(** * ConvoScope: classification and aggregation engine

    A shallow embedding of the decision logic of
      - src/claude_conversation_analyzer.py  (redaction, topic / sentiment /
        failure classifiers, row construction, summary statistics),
      - src/quality_analyzer.py              (task completion, collaboration),
      - src/temporal_analyzer.py             (streaks, pattern changes,
        engagement score),
    together with the Python primitives these functions rest on: [str]
    methods, the backtracking matcher of the [re] module and MD5.

    Conventions.
      - A Python [str] is a list of Unicode code points ([pystr]).  Source
        literals are written as Rocq strings (UTF-8 bytes) and decoded by [u].
      - The rule tables are the pattern strings of the source, read by a
        parser for the part of the [re] syntax that they use.
      - Character classification ([\w], [\d], word boundaries) and case
        mapping are exact on ASCII.  Code points above 127 are treated as
        caseless and as non-word characters; this is what Python does for the
        non-ASCII code points of the rule tables (all of them symbols), so
        the model is exact on texts whose letters and digits are ASCII.
      - Python floats produced by [/] and [mean] are modelled by exact
        rationals ([Q]); a non-finite float is written [None].
      - Python exceptions are modelled by the [result] type.
      - The timestamp column of the temporal frame is modelled after its
        conversion by [pd.to_datetime]: seconds since the epoch, or NaT. *)

From Stdlib Require Import String Ascii.
From Stdlib Require Import List Bool Arith NArith ZArith QArith Qabs Lia Lqa.
From Stdlib Require Import Sorting.Sorted Sorting.Permutation.
Import ListNotations.

Set Implicit Arguments.
Local Open Scope string_scope.
Local Open Scope list_scope.
Local Open Scope nat_scope.

(* ===================================================================== *)
(** ** Python primitives *)
(* ===================================================================== *)

Module Py.

(** A Python [str]: a sequence of code points. *)
Definition pystr := list N.

(** Exceptions raised by the modelled code. *)
Inductive exn := ZeroDivisionError | IndexError | KeyError.

Inductive result (A : Type) :=
| Ok (a : A)
| Raise (e : exn).

Arguments Ok {A} a.
Arguments Raise {A} e.

Definition bind {A B} (r : result A) (f : A -> result B) : result B :=
  match r with
  | Ok a => f a
  | Raise e => Raise e
  end.

(** [int / int]: true division, raising on a zero divisor. *)
Definition truediv (a b : Z) : result Q :=
  if (b =? 0)%Z then Raise ZeroDivisionError else Ok (inject_Z a / inject_Z b)%Q.

(** UTF-8 decoding of a source literal. *)
Fixpoint utf8_decode (bs : list N) : pystr :=
  match bs with
  | [] => []
  | b0 :: r0 =>
    if (b0 <? 128)%N then b0 :: utf8_decode r0
    else match r0 with
    | b1 :: r1 =>
      if (b0 <? 224)%N then ((b0 - 192) * 64 + (b1 - 128))%N :: utf8_decode r1
      else match r1 with
      | b2 :: r2 =>
        if (b0 <? 240)%N
        then ((b0 - 224) * 4096 + (b1 - 128) * 64 + (b2 - 128))%N :: utf8_decode r2
        else match r2 with
        | b3 :: r3 =>
          ((b0 - 240) * 262144 + (b1 - 128) * 4096 + (b2 - 128) * 64 + (b3 - 128))%N
            :: utf8_decode r3
        | [] => [b0; b1; b2]
        end
      | [] => [b0; b1]
      end
    | [] => [b0]
    end
  end.

Definition bytes_of_string (s : string) : list N :=
  map N_of_ascii (list_ascii_of_string s).

(** The Python string denoted by a source literal. *)
Definition u (s : string) : pystr := utf8_decode (bytes_of_string s).

(** [str.encode()] (UTF-8). *)
Definition utf8_encode1 (c : N) : list N :=
  if (c <? 128)%N then [c]
  else if (c <? 2048)%N then [192 + c / 64; 128 + c mod 64]%N
  else if (c <? 65536)%N then [224 + c / 4096; 128 + (c / 64) mod 64; 128 + c mod 64]%N
  else [240 + c / 262144; 128 + (c / 4096) mod 64; 128 + (c / 64) mod 64; 128 + c mod 64]%N.

Definition encode (s : pystr) : list N := flat_map utf8_encode1 s.

Definition is_upper (c : N) : bool := (65 <=? c)%N && (c <=? 90)%N.
Definition is_lower (c : N) : bool := (97 <=? c)%N && (c <=? 122)%N.
Definition is_digit (c : N) : bool := (48 <=? c)%N && (c <=? 57)%N.
Definition is_word (c : N) : bool :=
  is_upper c || is_lower c || is_digit c || (c =? 95)%N.
Definition is_space (c : N) : bool :=
  ((9 <=? c)%N && (c <=? 13)%N) || ((28 <=? c)%N && (c <=? 32)%N)
  || existsb (N.eqb c) [133; 160; 5760; 8232; 8233; 8239; 8287; 12288]%N
  || ((8192 <=? c)%N && (c <=? 8202)%N).

Definition lower1 (c : N) : N := if is_upper c then (c + 32)%N else c.
Definition upper1 (c : N) : N := if is_lower c then (c - 32)%N else c.

(** [str.lower()], [str.upper()]. *)
Definition lower (s : pystr) : pystr := map lower1 s.
Definition upper (s : pystr) : pystr := map upper1 s.

Fixpoint str_eqb (a b : pystr) : bool :=
  match a, b with
  | [], [] => true
  | x :: a', y :: b' => (x =? y)%N && str_eqb a' b'
  | _, _ => false
  end.

(** [a < b] on strings: lexicographic on code points. *)
Fixpoint str_ltb (a b : pystr) : bool :=
  match a, b with
  | _, [] => false
  | [], _ :: _ => true
  | x :: a', y :: b' => (x <? y)%N || ((x =? y)%N && str_ltb a' b')
  end.

Fixpoint starts_with (p s : pystr) : bool :=
  match p, s with
  | [], _ => true
  | x :: p', y :: s' => (x =? y)%N && starts_with p' s'
  | _ :: _, [] => false
  end.

(** [needle in s]. *)
Fixpoint contains (needle s : pystr) : bool :=
  starts_with needle s ||
  match s with
  | [] => false
  | _ :: s' => contains needle s'
  end.

(** [s.replace(old, new)]: every non-overlapping occurrence, left to right.
    [skip] counts the characters of an occurrence still to be dropped. *)
Fixpoint replace_from (old new s : pystr) (skip : nat) : pystr :=
  match s with
  | [] => []
  | x :: s' =>
    match skip with
    | S k => replace_from old new s' k
    | O =>
      if starts_with old s
      then new ++ replace_from old new s' (length old - 1)
      else x :: replace_from old new s' 0
    end
  end.

Definition replace (s old new : pystr) : pystr :=
  match old with
  | [] => new ++ flat_map (fun c => c :: new) s
  | _ :: _ => replace_from old new s 0
  end.

(** [sep.join(parts)]. *)
Fixpoint join (sep : pystr) (parts : list pystr) : pystr :=
  match parts with
  | [] => []
  | [p] => p
  | p :: rest => p ++ sep ++ join sep rest
  end.

(** [max(xs, key=...)] on a non-empty sequence: the first maximal element. *)
Fixpoint max_by {A} (ltb : A -> A -> bool) (best : A) (xs : list A) : A :=
  match xs with
  | [] => best
  | x :: xs' => max_by ltb (if ltb best x then x else best) xs'
  end.

Definition dedup (xs : list pystr) : list pystr :=
  fold_left (fun acc x => if existsb (str_eqb x) acc then acc else acc ++ [x]) xs [].

(** [s.strip()]. *)
Fixpoint lstrip (s : pystr) : pystr :=
  match s with
  | c :: s' => if is_space c then lstrip s' else s
  | [] => []
  end.

Definition strip (s : pystr) : pystr := rev (lstrip (rev (lstrip s))).

(** [s.split()]: the maximal runs of non-whitespace characters.  [cur] is
    the run being read, reversed. *)
Fixpoint split_ws (cur : pystr) (s : pystr) : list pystr :=
  match s with
  | [] => match cur with [] => [] | _ :: _ => [rev cur] end
  | c :: s' =>
    if is_space c
    then match cur with [] => split_ws [] s' | _ :: _ => rev cur :: split_ws [] s' end
    else split_ws (c :: cur) s'
  end.

Definition split (s : pystr) : list pystr := split_ws [] s.

(** [s.split(sep)] for a one-character separator. *)
Fixpoint split_chr (sep : N) (cur : pystr) (s : pystr) : list pystr :=
  match s with
  | [] => [rev cur]
  | c :: s' =>
    if (c =? sep)%N then rev cur :: split_chr sep [] s' else split_chr sep (c :: cur) s'
  end.

(** [collections.Counter(xs)] as an association list, keys in order of first
    occurrence. *)
Fixpoint counter_add (x : pystr) (c : list (pystr * nat)) : list (pystr * nat) :=
  match c with
  | [] => [(x, 1%nat)]
  | (k, n) :: c' => if str_eqb k x then (k, S n) :: c' else (k, n) :: counter_add x c'
  end.

Definition counter (xs : list pystr) : list (pystr * nat) :=
  fold_left (fun c x => counter_add x c) xs [].

(** [Series.nunique()] on strings. *)
Definition nunique (xs : list pystr) : nat := length (dedup xs).

(** [Series.mean()] of a non-empty integer column. *)
Definition mean (xs : list nat) : Q :=
  (inject_Z (Z.of_nat (list_sum xs)) / inject_Z (Z.of_nat (length xs)))%Q.

(** [s.count(sub)]: the number of non-overlapping occurrences of a
    non-empty [sub], counted from the left. *)
Fixpoint count_from (sub s : pystr) (skip : nat) : nat :=
  match s with
  | [] => O
  | _ :: s' =>
    match skip with
    | S k => count_from sub s' k
    | O =>
      if starts_with sub s
      then S (count_from sub s' (length sub - 1))
      else count_from sub s' 0
    end
  end.

Definition count (s sub : pystr) : nat :=
  match sub with
  | [] => S (length s)
  | _ :: _ => count_from sub s 0
  end.

End Py.

Import Py.

(* ===================================================================== *)
(** ** The [re] module: patterns, parser and backtracking matcher *)
(* ===================================================================== *)

Module Re.

(** Members of a character class. *)
Inductive citem :=
| CRange (lo hi : N)
| CDigit
| CWord
| CSpace.

(** Patterns.  Bounded repetitions are expanded by the parser into
    sequences of greedy optionals; groups leave no trace since nothing in the
    modelled code reads a group. *)
Inductive regex :=
| REmpty
| RChar (c : N)
| RClass (neg : bool) (items : list citem)
| RWordB
| RSeq (a b : regex)
| RAlt (a b : regex)
| ROpt (a : regex)
| RStar (a : regex).

(** *** Parser for the pattern syntax used by the rule tables *)

Definition ch (s : string) : N :=
  match s with
  | String a _ => N_of_ascii a
  | EmptyString => 0%N
  end.

Fixpoint rep_exact (n : nat) (r : regex) : regex :=
  match n with
  | O => REmpty
  | S O => r
  | S n' => RSeq r (rep_exact n' r)
  end.

Fixpoint rep_upto (n : nat) (r : regex) : regex :=
  match n with
  | O => REmpty
  | S O => ROpt r
  | S n' => ROpt (RSeq r (rep_upto n' r))
  end.

Definition seq (a b : regex) : regex :=
  match a, b with
  | REmpty, _ => b
  | _, REmpty => a
  | _, _ => RSeq a b
  end.

(** [r{lo,hi}]; [hi = None] stands for an open upper bound. *)
Definition repeat (r : regex) (lo : nat) (hi : option nat) : regex :=
  match hi with
  | None => seq (rep_exact lo r) (RStar r)
  | Some h => seq (rep_exact lo r) (rep_upto (h - lo) r)
  end.

Fixpoint parse_nat (acc : nat) (seen : bool) (s : pystr) : option (nat * pystr) :=
  match s with
  | c :: s' =>
    if is_digit c then parse_nat (10 * acc + N.to_nat (c - 48)) true s'
    else if seen then Some (acc, s) else None
  | [] => if seen then Some (acc, s) else None
  end.

(** A quantifier following an atom, if any. *)
Definition parse_quant (r : regex) (s : pystr) : option (regex * pystr) :=
  match s with
  | c :: s' =>
    if (c =? ch "?")%N then Some (ROpt r, s')
    else if (c =? ch "*")%N then Some (RStar r, s')
    else if (c =? ch "+")%N then Some (RSeq r (RStar r), s')
    else if (c =? ch "{")%N then
      match parse_nat 0 false s' with
      | Some (lo, c1 :: s1) =>
        if (c1 =? ch "}")%N then Some (rep_exact lo r, s1)
        else if (c1 =? ch ",")%N then
          match s1 with
          | c2 :: s2 =>
            if (c2 =? ch "}")%N then Some (repeat r lo None, s2)
            else match parse_nat 0 false s1 with
                 | Some (hi, c3 :: s3) =>
                   if (c3 =? ch "}")%N then Some (repeat r lo (Some hi), s3) else None
                 | _ => None
                 end
          | [] => None
          end
        else None
      | _ => None
      end
    else Some (r, s)
  | [] => Some (r, s)
  end.

Definition class_escape (c : N) : citem :=
  if (c =? ch "d")%N then CDigit
  else if (c =? ch "w")%N then CWord
  else if (c =? ch "s")%N then CSpace
  else CRange c c.

(** The body of a bracket expression, up to and including the bracket that
    closes it. *)
Fixpoint parse_class (fuel : nat) (s : pystr) : option (list citem * pystr) :=
  match fuel with
  | O => None
  | S fuel' =>
    match s with
    | [] => None
    | c :: s' =>
      if (c =? ch "]")%N then Some ([], s')
      else if (c =? ch "\")%N then
        match s' with
        | e :: s'' =>
          match parse_class fuel' s'' with
          | Some (items, rest) => Some (class_escape e :: items, rest)
          | None => None
          end
        | [] => None
        end
      else
        match s' with
        | d :: hi :: s'' =>
          if (d =? ch "-")%N && negb (hi =? ch "]")%N then
            match parse_class fuel' s'' with
            | Some (items, rest) => Some (CRange c hi :: items, rest)
            | None => None
            end
          else
            match parse_class fuel' s' with
            | Some (items, rest) => Some (CRange c c :: items, rest)
            | None => None
            end
        | _ =>
          match parse_class fuel' s' with
          | Some (items, rest) => Some (CRange c c :: items, rest)
          | None => None
          end
        end
    end
  end.

Definition escape (c : N) : regex :=
  if (c =? ch "b")%N then RWordB
  else if (c =? ch "d")%N then RClass false [CDigit]
  else if (c =? ch "w")%N then RClass false [CWord]
  else if (c =? ch "s")%N then RClass false [CSpace]
  else RChar c.

Definition is_quant_char (c : N) : bool :=
  (c =? ch "?")%N || (c =? ch "*")%N || (c =? ch "+")%N || (c =? ch "{")%N.

(** Recursive descent: [parse_alt] reads alternatives, [parse_seq] a
    concatenation of quantified atoms, [parse_atom] a single atom. *)
Fixpoint parse_alt (fuel : nat) (s : pystr) : option (regex * pystr) :=
  match fuel with
  | O => None
  | S fuel' =>
    match parse_seq fuel' s with
    | Some (a, c :: s') =>
      if (c =? ch "|")%N then
        match parse_alt fuel' s' with
        | Some (b, rest) => Some (RAlt a b, rest)
        | None => None
        end
      else Some (a, c :: s')
    | other => other
    end
  end
with parse_seq (fuel : nat) (s : pystr) : option (regex * pystr) :=
  match fuel with
  | O => None
  | S fuel' =>
    match s with
    | [] => Some (REmpty, s)
    | c :: _ =>
      if (c =? ch "|")%N || (c =? ch ")")%N then Some (REmpty, s)
      else
        match parse_atom fuel' s with
        | Some (a, s1) =>
          match parse_quant a s1 with
          | Some (q, s2) =>
            match parse_seq fuel' s2 with
            | Some (r, rest) => Some (seq q r, rest)
            | None => None
            end
          | None => None
          end
        | None => None
        end
    end
  end
with parse_atom (fuel : nat) (s : pystr) : option (regex * pystr) :=
  match fuel with
  | O => None
  | S fuel' =>
    match s with
    | [] => None
    | c :: s' =>
      if (c =? ch "(")%N then
        let body :=
          match s' with
          | q :: k :: s'' =>
            if (q =? ch "?")%N && (k =? ch ":")%N then s'' else s'
          | _ => s'
          end in
        match parse_alt fuel' body with
        | Some (r, c1 :: rest) => if (c1 =? ch ")")%N then Some (r, rest) else None
        | _ => None
        end
      else if (c =? ch "[")%N then
        match s' with
        | c1 :: s'' =>
          if (c1 =? ch "^")%N then
            match parse_class (length s'') s'' with
            | Some (items, rest) => Some (RClass true items, rest)
            | None => None
            end
          else
            match parse_class (length s') s' with
            | Some (items, rest) => Some (RClass false items, rest)
            | None => None
            end
        | [] => None
        end
      else if (c =? ch "\")%N then
        match s' with
        | e :: rest => Some (escape e, rest)
        | [] => None
        end
      else if (c =? ch ".")%N then Some (RClass true [CRange 10 10], s')
      else if is_quant_char c then None
      else Some (RChar c, s')
    end
  end.

Definition parse (p : pystr) : option regex :=
  match parse_alt (3 * length p + 3) p with
  | Some (r, []) => Some r
  | _ => None
  end.

(** [re.compile]: a pattern outside the supported syntax compiles to a
    pattern that matches nothing ([RClass false []]); the rule tables are
    shown below to lie inside the supported syntax. *)
Definition compile (p : string) : regex :=
  match parse (u p) with
  | Some r => r
  | None => RClass false []
  end.

(** *** Matcher *)

Definition in_item (c : N) (it : citem) : bool :=
  match it with
  | CRange lo hi => (lo <=? c)%N && (c <=? hi)%N
  | CDigit => is_digit c
  | CWord => is_word c
  | CSpace => is_space c
  end.

(** Class membership; under IGNORECASE a character also belongs to the
    class when its other-case form does. *)
Definition in_class (ic : bool) (items : list citem) (c : N) : bool :=
  existsb (in_item c) items
  || (ic && (existsb (in_item (lower1 c)) items || existsb (in_item (upper1 c)) items)).

Definition char_match (ic : bool) (p c : N) : bool :=
  if ic then (lower1 p =? lower1 c)%N else (p =? c)%N.

Definition word_opt (c : option N) : bool :=
  match c with
  | Some x => is_word x
  | None => false
  end.

(** [rmatch ic r prev s k]: match [r] at the head of [s], the character
    before it being [prev]; on success hand the character before the rest
    and the rest to the continuation [k], on failure of [k] backtrack.
    Alternatives are tried left to right and quantifiers are greedy, as in
    the [sre] engine.  An iteration of a star that consumes nothing is
    abandoned. *)
Fixpoint rmatch {A} (ic : bool) (r : regex) (prev : option N) (s : pystr)
         (k : option N -> pystr -> option A) : option A :=
  match r with
  | REmpty => k prev s
  | RChar p =>
    match s with
    | c :: s' => if char_match ic p c then k (Some c) s' else None
    | [] => None
    end
  | RClass neg items =>
    match s with
    | c :: s' => if xorb neg (in_class ic items c) then k (Some c) s' else None
    | [] => None
    end
  | RWordB => if xorb (word_opt prev) (word_opt (hd_error s)) then k prev s else None
  | RSeq a b => rmatch ic a prev s (fun p' s' => rmatch ic b p' s' k)
  | RAlt a b =>
    match rmatch ic a prev s k with
    | Some x => Some x
    | None => rmatch ic b prev s k
    end
  | ROpt a =>
    match rmatch ic a prev s k with
    | Some x => Some x
    | None => k prev s
    end
  | RStar a =>
    (fix loop (n : nat) (p : option N) (t : pystr) : option A :=
       match n with
       | O => k p t
       | S n' =>
         match rmatch ic a p t
                 (fun p' t' => if length t' <? length t then loop n' p' t' else None) with
         | Some x => Some x
         | None => k p t
         end
       end) (length s) prev s
  end.

(** A match starting exactly here: the rest of the text after it.  With
    [nonempty] an empty match is refused (the engine's [must_advance]). *)
Definition match_here (ic : bool) (r : regex) (prev : option N) (s : pystr)
           (nonempty : bool) : option pystr :=
  rmatch ic r prev s
    (fun _ rest => if nonempty && (length s <=? length rest) then None else Some rest).

Definition matched (s rest : pystr) : pystr := firstn (length s - length rest) s.

(** The matches found at the current position: at most an empty match
    followed by a non-empty one. *)
Definition matches_here (ic : bool) (r : regex) (prev : option N) (s : pystr)
  : list pystr * nat :=
  match match_here ic r prev s false with
  | None => ([], O)
  | Some rest =>
    let m := matched s rest in
    match m with
    | _ :: _ => ([m], length m)
    | [] =>
      match match_here ic r prev s true with
      | Some rest2 => let m2 := matched s rest2 in ([m; m2], length m2)
      | None => ([m], O)
      end
    end
  end.

(** The scan of [finditer]: non-overlapping matches, leftmost first; [skip]
    counts the characters of the previous match still to be passed. *)
Fixpoint scan (ic : bool) (r : regex) (prev : option N) (s : pystr) (skip : nat)
  : list pystr :=
  match skip with
  | S k =>
    match s with
    | c :: s' => scan ic r (Some c) s' k
    | [] => []
    end
  | O =>
    let '(ms, n) := matches_here ic r prev s in
    ms ++ match s with
          | c :: s' => scan ic r (Some c) s' (n - 1)
          | [] => []
          end
  end.

(** [m.group()] for each [m] of [re.finditer(pattern, text, flags)]. *)
Definition finditer (ic : bool) (pattern : string) (text : pystr) : list pystr :=
  scan ic (compile pattern) None text 0.

(** [len(re.findall(pattern, text, flags))]. *)
Definition findall_count (ic : bool) (pattern : string) (text : pystr) : nat :=
  length (finditer ic pattern text).

Fixpoint search_from (ic : bool) (r : regex) (prev : option N) (s : pystr) : bool :=
  match match_here ic r prev s false with
  | Some _ => true
  | None =>
    match s with
    | c :: s' => search_from ic r (Some c) s'
    | [] => false
    end
  end.

(** The truth value of [re.search(pattern, text, flags)]. *)
Definition search (ic : bool) (pattern : string) (text : pystr) : bool :=
  search_from ic (compile pattern) None text.

End Re.

(* ===================================================================== *)
(** ** [hashlib.md5] *)
(* ===================================================================== *)

Module MD5.

Local Open Scope N_scope.

Definition w32 (x : N) : N := x mod 4294967296.
Definition not32 (x : N) : N := N.lxor x 4294967295.
Definition rotl (x : N) (c : N) : N :=
  w32 (N.lor (N.shiftl x c) (N.shiftr x (32 - c))).

(** floor(2^32 * |sin(i + 1)|) for i = 0 .. 63. *)
Definition K : list N :=
  [ 0xd76aa478; 0xe8c7b756; 0x242070db; 0xc1bdceee;
    0xf57c0faf; 0x4787c62a; 0xa8304613; 0xfd469501;
    0x698098d8; 0x8b44f7af; 0xffff5bb1; 0x895cd7be;
    0x6b901122; 0xfd987193; 0xa679438e; 0x49b40821;
    0xf61e2562; 0xc040b340; 0x265e5a51; 0xe9b6c7aa;
    0xd62f105d; 0x02441453; 0xd8a1e681; 0xe7d3fbc8;
    0x21e1cde6; 0xc33707d6; 0xf4d50d87; 0x455a14ed;
    0xa9e3e905; 0xfcefa3f8; 0x676f02d9; 0x8d2a4c8a;
    0xfffa3942; 0x8771f681; 0x6d9d6122; 0xfde5380c;
    0xa4beea44; 0x4bdecfa9; 0xf6bb4b60; 0xbebfbc70;
    0x289b7ec6; 0xeaa127fa; 0xd4ef3085; 0x04881d05;
    0xd9d4d039; 0xe6db99e5; 0x1fa27cf8; 0xc4ac5665;
    0xf4292244; 0x432aff97; 0xab9423a7; 0xfc93a039;
    0x655b59c3; 0x8f0ccc92; 0xffeff47d; 0x85845dd1;
    0x6fa87e4f; 0xfe2ce6e0; 0xa3014314; 0x4e0811a1;
    0xf7537e82; 0xbd3af235; 0x2ad7d2bb; 0xeb86d391 ].

Definition shifts : list N :=
  [ 7; 12; 17; 22; 7; 12; 17; 22; 7; 12; 17; 22; 7; 12; 17; 22;
    5; 9; 14; 20; 5; 9; 14; 20; 5; 9; 14; 20; 5; 9; 14; 20;
    4; 11; 16; 23; 4; 11; 16; 23; 4; 11; 16; 23; 4; 11; 16; 23;
    6; 10; 15; 21; 6; 10; 15; 21; 6; 10; 15; 21; 6; 10; 15; 21 ].

Definition state := (N * N * N * N)%type.

Definition init : state := (0x67452301, 0xefcdab89, 0x98badcfe, 0x10325476).

(** One of the 64 operations on a 16-word block [m]. *)
Definition round (m : list N) (i : N) (st : state) : state :=
  let '(a, b, c, d) := st in
  let '(f, g) :=
    if i <? 16 then (N.lor (N.land b c) (N.land (not32 b) d), i)
    else if i <? 32 then (N.lor (N.land d b) (N.land (not32 d) c), (5 * i + 1) mod 16)
    else if i <? 48 then (N.lxor b (N.lxor c d), (3 * i + 5) mod 16)
    else (N.lxor c (N.lor b (not32 d)), (7 * i) mod 16) in
  let f' := w32 (f + a + nth (N.to_nat i) K 0 + nth (N.to_nat g) m 0) in
  (d, w32 (b + rotl f' (nth (N.to_nat i) shifts 0)), b, c).

Definition block (st : state) (m : list N) : state :=
  let '(a0, b0, c0, d0) := st in
  let '(a, b, c, d) :=
    fold_left (fun acc i => round m (N.of_nat i) acc) (List.seq 0 64) st in
  (w32 (a0 + a), w32 (b0 + b), w32 (c0 + c), w32 (d0 + d)).

Definition le_bytes (n : nat) (x : N) : list N :=
  map (fun i => (x / 2 ^ (8 * N.of_nat i)) mod 256) (List.seq 0 n).

(** The padded message: 0x80, zeros up to 56 mod 64, the bit length. *)
Definition pad (msg : list N) : list N :=
  let len := length msg in
  let zeros := ((119 - len mod 64) mod 64)%nat in
  msg ++ [128] ++ List.repeat 0 zeros ++ le_bytes 8 (8 * N.of_nat len).

Fixpoint words (n : nat) (bs : list N) : list N :=
  match n, bs with
  | S n', b0 :: b1 :: b2 :: b3 :: rest =>
    (b0 + 256 * b1 + 65536 * b2 + 16777216 * b3) :: words n' rest
  | _, _ => []
  end.

Fixpoint blocks (n : nat) (bs : list N) : list (list N) :=
  match n with
  | O => []
  | S n' =>
    match bs with
    | [] => []
    | _ :: _ => words 16 (firstn 64 bs) :: blocks n' (skipn 64 bs)
    end
  end.

Definition digest (msg : list N) : list N :=
  let p := pad msg in
  let '(a, b, c, d) := fold_left block (blocks (length p) p) init in
  le_bytes 4 a ++ le_bytes 4 b ++ le_bytes 4 c ++ le_bytes 4 d.

Definition hex_digit (n : N) : N := if n <? 10 then 48 + n else 87 + n.

(** [hashlib.md5(msg).hexdigest()]. *)
Definition hexdigest (msg : list N) : pystr :=
  flat_map (fun b => [hex_digit (b / 16); hex_digit (b mod 16)]) (digest msg).

End MD5.

(* ===================================================================== *)
(** ** claude_conversation_analyzer.py *)
(* ===================================================================== *)

Module Analyzer.

(** *** Rule tables of [ClaudeConversationAnalyzer.__init__] *)

Definition privacy_patterns : list (string * string) :=
  [ ("email", "\b[A-Za-z0-9._%+-]+@[A-Za-z0-9.-]+\.[A-Z|a-z]{2,}\b");
    ("phone", "\b(?:\+?1[-.]?)?\(?([0-9]{3})\)?[-.]?([0-9]{3})[-.]?([0-9]{4})\b");
    ("ssn", "\b\d{3}-\d{2}-\d{4}\b");
    ("credit_card", "\b\d{4}[-\s]?\d{4}[-\s]?\d{4}[-\s]?\d{4}\b");
    ("address", "\b\d+\s+[\w\s]+(?:street|st|avenue|ave|road|rd|boulevard|blvd|drive|dr|court|ct|lane|ln)\b");
    ("ip_address", "\b(?:\d{1,3}\.){3}\d{1,3}\b");
    ("api_key", "\b[A-Za-z0-9]{32,}\b") ].

Definition sensitive_entities : list (string * string) :=
  [ ("person_name", "\b(?:Dr\.|Mr\.|Mrs\.|Ms\.|Prof\.)\s+[A-Z][a-z]+(?:\s+[A-Z][a-z]+)*\b");
    ("full_name", "\b[A-Z][a-z]+\s+[A-Z][a-z]+\b") ].

Definition topic_patterns : list (string * list string) :=
  [ ("Technical/Coding",
      [ "\b(python|javascript|typescript|java|c\+\+|rust|go|ruby)\b";
        "\b(code|function|class|method|api|endpoint|docker|kubernetes|git)\b";
        "\b(debug|error|exception|stack trace|bug|fix|refactor)\b";
        "\b(programming|development|software|script|algorithm)\b";
        "\b(container|deployment|ci/cd|devops|infrastructure)\b" ]);
    ("AI/ML",
      [ "\b(machine learning|neural network|deep learning|transformer)\b";
        "\b(model|training|inference|embeddings|vector|llm|gpt)\b";
        "\b(artificial intelligence|ai|ml|nlp|computer vision)\b";
        "\b(huggingface|pytorch|tensorflow|langchain|openai)\b";
        "\b(prompt|fine-?tun|dataset|optimization)\b" ]);
    ("BlaqVox Project",
      [ "\bblaqvox\b";
        "\bcommunity intelligence\b";
        "\bgovernment data\b";
        "\bpublic records\b";
        "\bdata liberation\b";
        "\bdashboard|visualization|analytics\b" ]);
    ("GrandRYZE",
      [ "\bgrandrize\b";
        "\bequipment analysis\b";
        "\bimage classification\b";
        "\bflask api\b" ]);
    ("Healthcare/VA",
      [ "\b(va|veteran|medical|healthcare|johanna|cardiac|hospital)\b";
        "\b(doctor|physician|appointment|emergency|treatment)\b";
        "\b(medication|prescription|diagnosis|symptoms)\b";
        "\badvocacy|congressional|representative\b" ]);
    ("Philosophy/Consciousness",
      [ "\b(ubuntu|consciousness|ma\'?at|kemetic|liberation)\b";
        "\b(philosophy|wisdom|sacred|collective|interconnect)\b";
        "\b(phoenix|activation|framework|sovereign)\b";
        "\b(mindfulness|awareness|presence|being)\b" ]);
    ("Creative/Art",
      [ "\b(music|art|creative|generate|image|video|rap|freestyle)\b";
        "\b(production|studio|design|composition|visual)\b";
        "\b(dall-?e|midjourney|stable diffusion|comfyui)\b";
        "\b(poetry|writing|storytelling|narrative)\b" ]);
    ("Personal/Life",
      [ "\b(family|relationship|personal|feeling|emotion)\b";
        "\b(christmas|holiday|vacation|travel|ocean shores)\b";
        "\b(advice|guidance|support|help)\b" ]);
    ("Infrastructure",
      [ "\b(server|deployment|infrastructure|docker|container)\b";
        "\b(architecture|system design|optimization|scaling)\b";
        "\b(database|postgres|mongodb|redis|vector db)\b";
        "\b(nginx|apache|cloud|aws|azure|gcp)\b" ]);
    ("Data Analysis",
      [ "\b(data|analysis|statistics|metrics|analytics)\b";
        "\b(pandas|numpy|matplotlib|visualization)\b";
        "\b(csv|excel|json|sql|query)\b" ]);
    ("Documentation",
      [ "\b(documentation|docs|readme|guide|tutorial)\b";
        "\b(explain|clarify|describe|outline)\b";
        "\b(technical writing|specification|requirements)\b" ]);
    ("Debugging",
      [ "\b(debug|troubleshoot|diagnose|investigate)\b";
        "\b(error|exception|traceback|failing|broken)\b";
        "\b(logs|logging|monitoring|observability)\b" ]);
    ("Security/Privacy",
      [ "\b(security|privacy|encryption|authentication)\b";
        "\b(vulnerability|exploit|breach|attack)\b";
        "\b(gdpr|compliance|data protection)\b" ]) ].

Definition sentiment_patterns : list (string * list string) :=
  [ ("Very Positive",
      [ "\b(amazing|excellent|perfect|brilliant|outstanding|fantastic)\b";
        "\b(love it|absolutely|phenomenal|incredible|wonderful)\b";
        "🔥|✨|💯|🎉|🚀|⭐" ]);
    ("Positive",
      [ "\b(great|good|nice|helpful|thanks|appreciate|useful)\b";
        "\b(works|working|solved|fixed|better)\b";
        "😊|👍|👌|✅|💪" ]);
    ("Neutral",
      [ "\b(okay|fine|alright|understood|noted|got it)\b";
        "\b(interesting|see|makes sense)\b" ]);
    ("Negative",
      [ "\b(wrong|error|failed|broken|issue|problem)\b";
        "\b(doesn\'t work|not working|frustrated|confused)\b";
        "😞|👎|❌" ]);
    ("Very Negative",
      [ "\b(terrible|horrible|awful|useless|disaster|catastrophe)\b";
        "\b(hate|angry|furious|completely broken)\b";
        "😠|💔|😡|🤬" ]);
    ("Urgent",
      [ "\b(urgent|emergency|asap|immediately|critical|now|help)\b";
        "\b(deadline|time-sensitive|rush|quickly)\b";
        "!!|!!!|⚠️|🚨|‼️" ]);
    ("Questioning",
      [ "\b(why|how|what|when|where|confused|unclear)\b";
        "\b(can you|could you|would you|please explain)\b";
        "❓|🤔" ]);
    ("Collaborative",
      [ "\b(let\'s|we can|together|collaborate|partnership)\b";
        "\b(team|work with|joint|cooperative)\b";
        "🤝|💫" ]) ].

Definition failure_patterns : list (string * (string * list string)) :=
  [ ("Hallucination", ("high",
      [ "\b(that\'s not true|incorrect|wrong|didn\'t say|made up)\b";
        "\b(hallucinating|fabricated|inaccurate|false)\b";
        "\b(never said|not what i|completely wrong)\b" ]));
    ("Refusal (Unnecessary)", ("medium",
      [ "\b(won\'t help|can\'t assist|unable to|against guidelines)\b";
        "\b(safety|harmful|inappropriate|cannot provide)\b";
        "\b(not allowed|prohibited|restricted)\b" ]));
    ("Formatting Issues", ("low",
      [ "\b(formatting|markdown|broken|display|render)\b";
        "\b(code block|syntax|structure|layout)\b" ]));
    ("Repetition", ("medium",
      [ "\b(repeating|said that already|again|duplicate)\b";
        "\b(circular|loop|same thing|redundant)\b" ]));
    ("Misunderstanding", ("medium",
      [ "\b(didn\'t understand|misunderstood|confused|clarify)\b";
        "\b(what i meant|not what i asked|missed the point)\b" ]));
    ("Performance Theater", ("low",
      [ "\b(too formal|corporate speak|hedging|verbose)\b";
        "\b(unnecessary|over-explaining|preamble)\b";
        "\b(cut the|just answer|get to the point)\b" ]));
    ("Tool Misuse", ("high",
      [ "\b(wrong tool|should have searched|didn\'t search)\b";
        "\b(tool error|failed to fetch|api error)\b";
        "\b(why didn\'t you|forgot to use)\b" ]));
    ("Context Loss", ("high",
      [ "\b(forgot|lost context|earlier conversation|remember)\b";
        "\b(previous|before|you said|we discussed)\b";
        "\b(already told you|keep forgetting)\b" ]));
    ("Accuracy Error", ("high",
      [ "\b(factually wrong|incorrect information|outdated)\b";
        "\b(not accurate|misinformation|error in)\b" ]));
    ("Incomplete Response", ("medium",
      [ "\b(didn\'t finish|cut off|incomplete|partial)\b";
        "\b(where\'s the rest|finish this|complete)\b" ]));
    ("Ignored Instructions", ("high",
      [ "\b(asked you not to|told you to|ignored|didn\'t follow)\b";
        "\b(specifically said|explicitly requested)\b" ])) ].

(** *** redact_pii *)

(** The loop body shared by both stages: every match found in the text as it
    was when the rule started is replaced, wherever its characters occur in
    the current text, by the token [mk original]. *)
Definition apply_rule (ic : bool) (mk : pystr -> pystr) (rule : string * string)
           (st : pystr * list pystr) : pystr * list pystr :=
  let '(type, pattern) := rule in
  fold_left
    (fun (acc : pystr * list pystr) original =>
       (replace (fst acc) original (mk original), snd acc ++ [u type]))
    (Re.finditer ic pattern (fst st)) st.

Definition pii_token (type : string) (original : pystr) : pystr :=
  u "[" ++ upper (u type) ++ u "_REDACTED]".

Definition entity_token (type : string) (original : pystr) : pystr :=
  u "[" ++ upper (u type) ++ u "_" ++ firstn 8 (MD5.hexdigest (encode original)) ++ u "]".

(** [redact_pii(text)]; the list of labels is [list(set(redactions))], given
    here in order of first occurrence. *)
Definition redact_pii (enable_privacy : bool) (text : pystr) : pystr * list pystr :=
  if negb enable_privacy then (text, [])
  else
    let st1 :=
      fold_left (fun st rule => apply_rule true (pii_token (fst rule)) rule st)
                privacy_patterns (text, []) in
    let st2 :=
      fold_left (fun st rule => apply_rule false (entity_token (fst rule)) rule st)
                sensitive_entities st1 in
    (fst st2, dedup (snd st2)).

(** *** detect_topics *)

Definition any_match (patterns : list string) (text : pystr) : bool :=
  existsb (fun pattern => Re.search true pattern text) patterns.

Definition detect_topics (text : pystr) : list string :=
  let text_lower := lower text in
  let detected :=
    map fst (filter (fun entry => any_match (snd entry) text_lower) topic_patterns) in
  match detected with
  | [] => ["General"%string]
  | _ :: _ => detected
  end.

(** *** detect_sentiment *)

(** The [scores] dictionary, in insertion order. *)
Definition score_table (table : list (string * list string)) (text : pystr)
  : list (string * nat) :=
  map (fun entry =>
         (fst entry,
          list_sum (map (fun pattern => Re.findall_count true pattern text) (snd entry))))
      table.

Fixpoint get (key : string) (scores : list (string * nat)) : nat :=
  match scores with
  | [] => O
  | (k, v) :: rest => if String.eqb k key then v else get key rest
  end.

(** [max(scores.items(), key=lambda x: x[1])]; [None] on an empty dictionary. *)
Definition max_item (scores : list (string * nat)) : option (string * nat) :=
  match scores with
  | [] => None
  | first :: rest => Some (max_by (fun a b => snd a <? snd b) first rest)
  end.

Definition detect_sentiment (text : pystr) : string :=
  let text_lower := lower text in
  let scores := score_table sentiment_patterns text_lower in
  if 0 <? get "Urgent" scores then "Urgent"%string
  else
    match max_item scores with
    | Some max_sentiment =>
      if 0 <? snd max_sentiment then fst max_sentiment else "Neutral"%string
    | None => "Neutral"%string
    end.

(** *** detect_failures *)

Definition detect_failures (text : pystr) : list string * list string :=
  let text_lower := lower text in
  let hits :=
    filter (fun entry => any_match (snd (snd entry)) text_lower) failure_patterns in
  (map fst hits, map (fun entry => fst (snd entry)) hits).

(** *** parse_conversations *)

(** The keys read from an exported message and conversation; [None] is an
    absent key. *)
Record raw_message := {
  m_text : option pystr;
  m_content : option pystr;
  m_sender : option pystr;
  m_role : option pystr;
  m_created_at : option pystr
}.

Record raw_conversation := {
  c_id : option pystr;
  c_created_at : option pystr;
  c_updated_at : option pystr;
  c_name : option pystr;
  c_model : option pystr;
  c_chat_messages : option (list raw_message);
  c_messages : option (list raw_message)
}.

(** A row of the data frame. *)
Record row := {
  conversation_id : pystr;
  conversation_name : pystr;
  message_index : nat;
  timestamp : pystr;
  role : pystr;
  model : pystr;
  content_preview : pystr;
  content_length : nat;
  word_count : nat;
  topics : pystr;
  topic_count : nat;
  sentiment : pystr;
  has_failure : bool;
  failure_types : pystr;
  failure_count : nat;
  failure_severities : pystr;
  max_failure_severity : pystr
}.

Definition get_or (x : option pystr) (default : pystr) : pystr :=
  match x with
  | Some v => v
  | None => default
  end.

Definition is_nil {A} (l : list A) : bool :=
  match l with
  | [] => true
  | _ :: _ => false
  end.

Definition role_in (r : pystr) (names : list string) : bool :=
  existsb (fun n => str_eqb r (u n)) names.

(** [max(severities, default='none') if severities else 'none']. *)
Definition max_severity (severities : list string) : string :=
  match severities with
  | [] => "none"%string
  | first :: rest => max_by (fun a b => str_ltb (u a) (u b)) first rest
  end.

Definition joined (parts : list string) : pystr := join (u "|") (map u parts).

(** [message.get('text', '') or str(message.get('content', ''))], the values
    being strings. *)
Definition message_content (message : raw_message) : pystr :=
  let t := get_or (m_text message) [] in
  if is_nil t then get_or (m_content message) [] else t.

(** [message.get('sender', message.get('role', 'unknown'))]. *)
Definition message_role (message : raw_message) : pystr :=
  match m_sender message with
  | Some s => s
  | None => get_or (m_role message) (u "unknown")
  end.

(** The body of the loop over the messages of one conversation: the row
    appended for message number [idx], or nothing for a skipped message. *)
Definition parse_message (conv_id conv_name conv_created model : pystr)
           (idx : nat) (message : raw_message) : option row :=
  let content := message_content message in
  let role := message_role message in
  let msg_created := get_or (m_created_at message) conv_created in
  if is_nil content || (length (strip content) <? 3) then None
  else
    let topics := detect_topics content in
    let sentiment := detect_sentiment content in
    let '(failures, severities) :=
      if role_in role ["assistant"; "bot"]%string then detect_failures content
      else ([], []) in
    Some {|
      conversation_id := conv_id;
      conversation_name := conv_name;
      message_index := idx;
      timestamp := msg_created;
      role := role;
      model := model;
      content_preview := firstn 300 content;
      content_length := length content;
      word_count := length (split content);
      topics := joined topics;
      topic_count := length topics;
      sentiment := u sentiment;
      has_failure := 0 <? length failures;
      failure_types := if is_nil failures then u "None" else joined failures;
      failure_count := length failures;
      failure_severities := if is_nil severities then u "None" else joined severities;
      max_failure_severity := u (max_severity severities)
    |}.

Fixpoint parse_messages (conv_id conv_name conv_created model : pystr)
         (idx : nat) (messages : list raw_message) : list row :=
  match messages with
  | [] => []
  | message :: rest =>
    match parse_message conv_id conv_name conv_created model idx message with
    | Some r => [r]
    | None => []
    end ++ parse_messages conv_id conv_name conv_created model (S idx) rest
  end.

Definition parse_conversation (conv : raw_conversation) : list row :=
  let conv_id := get_or (c_id conv) (u "unknown") in
  let conv_created := get_or (c_created_at conv) [] in
  let conv_name := get_or (c_name conv) (u "Untitled") in
  let model := get_or (c_model conv) (u "unknown") in
  let messages :=
    let cm := match c_chat_messages conv with Some l => l | None => [] end in
    if is_nil cm then match c_messages conv with Some l => l | None => [] end else cm in
  parse_messages conv_id conv_name conv_created model 0 messages.

Definition parse_conversations (conversations : list raw_conversation) : list row :=
  flat_map parse_conversation conversations.

(** *** generate_statistics *)

Record statistics := {
  total_conversations : nat;
  total_messages : nat;
  user_messages : nat;
  assistant_messages : nat;
  avg_message_length : Q;
  avg_words_per_message : Q;
  topic_distribution : list (pystr * nat);
  sentiment_distribution : list (pystr * nat);
  messages_with_failures : nat;
  failure_rate : Q;
  failure_type_distribution : list (pystr * nat)
}.

Definition with_role (names : list string) (df : list row) : list row :=
  filter (fun r => role_in (role r) names) df.

(** The entries of the dictionary are evaluated in order.  A frame built from
    no rows has no columns, so that the first column access raises; the
    failure rate divides two [len] results with [/]. *)
Definition generate_statistics (df : list row) : result statistics :=
  match df with
  | [] => Raise KeyError
  | _ :: _ =>
    let failing := filter has_failure df in
    bind (truediv (Z.of_nat (length failing))
                  (Z.of_nat (length (with_role ["assistant"; "bot"]%string df))))
      (fun ratio =>
         Ok {|
           total_conversations := nunique (map conversation_id df);
           total_messages := length df;
           user_messages := length (with_role ["user"; "human"]%string df);
           assistant_messages := length (with_role ["assistant"; "bot"]%string df);
           avg_message_length := mean (map content_length df);
           avg_words_per_message := mean (map word_count df);
           topic_distribution :=
             counter (filter (fun t => negb (is_nil t))
                             (flat_map (fun r => split_chr (Re.ch "|") [] (topics r)) df));
           sentiment_distribution := counter (map sentiment df);
           messages_with_failures := length failing;
           failure_rate := (ratio * 100)%Q;
           failure_type_distribution :=
             counter (filter (fun f => negb (str_eqb f (u "None")))
                             (flat_map (fun r => split_chr (Re.ch "|") [] (failure_types r)) df))
         |})
  end.

End Analyzer.

(* ===================================================================== *)
(** ** quality_analyzer.py *)
(* ===================================================================== *)

Module Quality.

Import Analyzer.

(** *** Rule tables of [ConversationQualityAnalyzer.__init__] *)

Definition completion_patterns : list (string * list string) :=
  [ ("completed",
      [ "\b(done|finished|completed|solved|fixed|built|created)\b";
        "\b(works|working|success|accomplished)\b";
        "\b(thank you|thanks|perfect|exactly what i needed)\b";
        "✅|✓|☑" ]);
    ("abandoned",
      [ "\b(give up|never mind|forget it|doesn\'t matter)\b";
        "\b(not worth it|too complicated)\b" ]);
    ("blocked",
      [ "\b(can\'t|won\'t|unable|impossible|blocked)\b";
        "\b(limitation|restriction|not supported)\b" ]) ].

Definition collaboration_patterns : list (string * list string) :=
  [ ("high",
      [ "\b(let\'s|we can|together|collaborate|build on)\b";
        "\b(great idea|love it|perfect|excellent suggestion)\b";
        "\b(yes and|building on that|expanding)\b" ]);
    ("medium",
      [ "\b(okay|sure|alright|that works)\b";
        "\b(makes sense|i see|understood)\b" ]);
    ("low",
      [ "\b(no|wrong|don\'t|not what i|missed the point)\b";
        "\b(unclear|confused|doesn\'t make sense)\b" ]);
    ("confrontational",
      [ "\b(you\'re wrong|that\'s stupid|terrible|useless)\b";
        "\b(obviously|clearly you|don\'t you understand)\b" ]) ].

(** *** analyze_task_completion *)

Record completion := {
  status : string;
  scores : list (string * nat);
  confidence : Q
}.

Definition max_value (scores : list (string * nat)) : nat :=
  fold_right Nat.max 0 (map snd scores).

Definition sum_values (scores : list (string * nat)) : nat :=
  list_sum (map snd scores).

(** The decision on the three scores. *)
Definition completion_status (scores : list (string * nat)) : string :=
  if get "abandoned" scores + get "blocked" scores <? get "completed" scores
  then "completed"
  else if 0 <? get "abandoned" scores then "abandoned"
  else if 0 <? get "blocked" scores then "blocked"
  else "in_progress".

Definition analyze_task_completion (conversation_messages : list pystr) : completion :=
  let full_text := lower (join (u " ") conversation_messages) in
  let scores := score_table completion_patterns full_text in
  {| status := completion_status scores;
     scores := scores;
     confidence :=
       (inject_Z (Z.of_nat (max_value scores))
        / inject_Z (Z.of_nat (sum_values scores + 1)))%Q |}.

(** *** analyze_collaboration_quality *)

(** A message dictionary: the keys read by this module. *)
Record message := {
  content : option pystr;
  role : option pystr
}.

(** [scores[quality] += 1]. *)
Definition bump (quality : string) (scores : list (string * nat)) : list (string * nat) :=
  map (fun kv => if String.eqb (fst kv) quality then (fst kv, S (snd kv)) else kv) scores.

(** The two inner loops for one message text: one increment for each
    pattern that is found. *)
Definition score_message (text : pystr) (scores : list (string * nat))
  : list (string * nat) :=
  fold_left
    (fun sc entry =>
       fold_left
         (fun sc' pattern => if Re.search true pattern text then bump (fst entry) sc' else sc')
         (snd entry) sc)
    collaboration_patterns scores.

Definition collaboration_scores (messages : list message) : list (string * nat) :=
  fold_left
    (fun sc msg => score_message (lower (get_or (content msg) [])) sc)
    messages
    (map (fun entry => (fst entry, 0)) collaboration_patterns).

(** The decision on the four scores. *)
Definition collaboration_decision (scores : list (string * nat)) : string :=
  if 2 <? get "confrontational" scores then "confrontational"
  else if get "medium" scores + get "low" scores <? get "high" scores then "high"
  else if get "high" scores <? get "low" scores then "low"
  else "medium".

Definition analyze_collaboration_quality (messages : list message) : string :=
  collaboration_decision (collaboration_scores messages).

(** The scoring as the specification words it: per category, the number of
    messages in which any pattern of the category is found. *)
Definition spec_collaboration_scores (messages : list message) : list (string * nat) :=
  map (fun entry =>
         (fst entry,
          length (filter (fun msg => any_match (snd entry) (lower (get_or (content msg) [])))
                         messages)))
      collaboration_patterns.

Definition spec_collaboration_quality (messages : list message) : string :=
  collaboration_decision (spec_collaboration_scores messages).

(** *** Response effectiveness patterns of [__init__] *)

Definition effectiveness_patterns : list (string * list string) :=
  [ ("highly_effective",
      [ "\b(perfect|exactly|precisely what i needed)\b";
        "\b(solved it|that worked|excellent)\b" ]);
    ("effective",
      [ "\b(helpful|useful|good|works|thanks)\b";
        "\b(that helps|makes sense|got it)\b" ]);
    ("partially_effective",
      [ "\b(close but|almost|partially|kind of)\b";
        "\b(missing|need more|not quite)\b" ]);
    ("ineffective",
      [ "\b(didn\'t help|not useful|wrong|unhelpful)\b";
        "\b(not what i asked|missed the point)\b" ]) ].

(** *** analyze_response_effectiveness *)




(** *** calculate_conversation_metrics *)

Record conversation_metrics := {
  turn_count : nat;
  avg_user_length : Q;
  avg_assistant_length : Q;
  user_questions : nat;
  assistant_code_blocks : nat;
  assistant_tool_uses : nat;
  clarification_requests : nat
}.

(** The counters and the two lists of lengths while the loop runs. *)
Record metrics_state := {
  st_questions : nat;
  st_code_blocks : nat;
  st_tool_uses : nat;
  st_clarifications : nat;
  st_user_lengths : list nat;
  st_assistant_lengths : list nat
}.

Definition clarification_pattern : string :=
  "\b(clarify|explain|what do you mean|confused)\b".

Definition tool_pattern : string :=
  "\b(searching|fetching|analyzing|calculating)\b".

Definition has_role (msg : message) (name : string) : bool :=
  match role msg with
  | Some r => str_eqb r (u name)
  | None => false
  end.

(** The body of the loop for one message; [msg.get('role', '')] is compared
    with 'user', then with 'assistant'. *)
Definition metrics_step (st : metrics_state) (msg : message) : metrics_state :=
  let text := get_or (content msg) [] in
  if has_role msg "user" then
    {| st_questions :=
         if contains (u "?") text then st_questions st + count text (u "?")
         else st_questions st;
       st_code_blocks := st_code_blocks st;
       st_tool_uses := st_tool_uses st;
       st_clarifications :=
         if Re.search true clarification_pattern text then st_clarifications st + 1
         else st_clarifications st;
       st_user_lengths := st_user_lengths st ++ [length text];
       st_assistant_lengths := st_assistant_lengths st |}
  else if has_role msg "assistant" then
    {| st_questions := st_questions st;
       st_code_blocks := st_code_blocks st + count text (u "```");
       st_tool_uses :=
         if Re.search true tool_pattern text then st_tool_uses st + 1
         else st_tool_uses st;
       st_clarifications := st_clarifications st;
       st_user_lengths := st_user_lengths st;
       st_assistant_lengths := st_assistant_lengths st ++ [length text] |}
  else st.

(** [sum(lengths) / len(lengths) if lengths else 0]. *)
Definition average (lengths : list nat) : Q :=
  match lengths with
  | [] => 0
  | _ :: _ => mean lengths
  end.

Definition calculate_conversation_metrics (messages : list message) : conversation_metrics :=
  let st :=
    fold_left metrics_step messages
              {| st_questions := 0; st_code_blocks := 0; st_tool_uses := 0;
                 st_clarifications := 0; st_user_lengths := [];
                 st_assistant_lengths := [] |} in
  {| turn_count := length (filter (fun m => has_role m "user") messages);
     avg_user_length := average (st_user_lengths st);
     avg_assistant_length := average (st_assistant_lengths st);
     user_questions := st_questions st;
     assistant_code_blocks := st_code_blocks st;
     assistant_tool_uses := st_tool_uses st;
     clarification_requests := st_clarifications st |}.

(** *** analyze_conversation_flow *)

(** What the timing half finds under the key 'timestamp': no such key, a
    value that [datetime.fromisoformat] refuses (or that is not a string),
    or a point in time, in microseconds since the epoch, with or without a
    time zone. *)
Inductive stamp :=
| NoKey
| Unparsable
| At (microseconds : Z) (aware : bool).

(** A message dictionary as this function reads it. *)
Record timed_message := {
  tm_role : option pystr;
  tm_stamp : stamp
}.

Record flow := {
  interruptions : nat;
  monologues : nat;
  quick_responses : nat;
  long_gaps : nat
}.

Definition role_eqb (a b : option pystr) : bool :=
  match a, b with
  | Some x, Some y => str_eqb x y
  | None, None => true
  | _, _ => false
  end.

(** [(curr_time - prev_time).total_seconds()], in microseconds; subtracting
    a time with a zone from one without raises, which the handler
    swallows, as it does a failure to parse. *)
Definition gap (current previous : timed_message) : option Z :=
  match tm_stamp current, tm_stamp previous with
  | At c ca, At p pa => if Bool.eqb ca pa then Some (c - p)%Z else None
  | _, _ => None
  end.

(** The body of the loop for one adjacent pair. *)
Definition flow_step (previous current : timed_message) (fl : flow) : flow :=
  let fl1 :=
    if role_eqb (tm_role current) (tm_role previous) then
      if role_eqb (tm_role current) (Some (u "user"))
      then {| interruptions := interruptions fl + 1; monologues := monologues fl;
              quick_responses := quick_responses fl; long_gaps := long_gaps fl |}
      else {| interruptions := interruptions fl; monologues := monologues fl + 1;
              quick_responses := quick_responses fl; long_gaps := long_gaps fl |}
    else fl in
  match gap current previous with
  | Some g =>
    if (g <? 60000000)%Z
    then {| interruptions := interruptions fl1; monologues := monologues fl1;
            quick_responses := quick_responses fl1 + 1; long_gaps := long_gaps fl1 |}
    else if (3600000000 <? g)%Z
    then {| interruptions := interruptions fl1; monologues := monologues fl1;
            quick_responses := quick_responses fl1; long_gaps := long_gaps fl1 + 1 |}
    else fl1
  | None => fl1
  end.

(** The loop over [range(1, len(messages))]. *)
Fixpoint flow_loop (previous : timed_message) (rest : list timed_message) (fl : flow)
  : flow :=
  match rest with
  | [] => fl
  | current :: rest' => flow_loop current rest' (flow_step previous current fl)
  end.

Definition analyze_conversation_flow (messages : list timed_message) : flow :=
  let start := {| interruptions := 0; monologues := 0; quick_responses := 0;
                  long_gaps := 0 |} in
  match messages with
  | [] => start
  | first :: rest => flow_loop first rest start
  end.

End Quality.

(* ===================================================================== *)
(** ** temporal_analyzer.py *)
(* ===================================================================== *)

Module Temporal.

(** A row of the frame held by [TemporalEvolutionAnalyzer], after
    [__init__] has converted the timestamp column: [timestamp] is the time in
    seconds since the epoch, [None] for NaT (an unparsable timestamp). *)
Record row := {
  timestamp : option Z;
  sentiment : pystr;
  word_count : nat;
  conversation_id : pystr;
  message_index : nat
}.

(** The [date] column: the calendar day of the timestamp, as a day number.
    Timestamps are seconds on the clock the column is read in; an offset
    carried by the timestamp itself is not modelled. *)
Definition date (r : row) : option Z :=
  option_map (fun t => (t / 86400)%Z) (timestamp r).

(** *** identify_conversation_streaks *)

Fixpoint insert_uniq (d : Z) (l : list Z) : list Z :=
  match l with
  | [] => [d]
  | x :: l' =>
    if (d <? x)%Z then d :: l
    else if (d =? x)%Z then l
    else x :: insert_uniq d l'
  end.

Fixpoint dropna {A} (l : list (option A)) : list A :=
  match l with
  | [] => []
  | Some x :: l' => x :: dropna l'
  | None :: l' => dropna l'
  end.

(** [sorted(df['date'].dropna().unique())]. *)
Definition active_dates (df : list row) : list Z :=
  fold_right insert_uniq [] (dropna (map date df)).

Record streak := {
  start_date : Z;
  end_date : Z;
  length_days : nat;
  message_count : nat
}.

(** [len(df[(df['date'] >= lo) & (df['date'] <= hi)])]; a comparison with a
    missing date is false. *)
Definition messages_between (df : list row) (lo hi : Z) : nat :=
  length (filter (fun r => match date r with
                           | Some d => (lo <=? d)%Z && (d <=? hi)%Z
                           | None => false
                           end) df).

Definition streak_of (df : list row) (current_streak : list Z) : streak :=
  let first := hd 0%Z current_streak in
  let final := last current_streak 0%Z in
  {| start_date := first;
     end_date := final;
     length_days := length current_streak;
     message_count := messages_between df first final |}.

(** The test made when a streak ends, and once more after the loop. *)
Definition close_streak (df : list row) (min_days : Z) (current_streak : list Z)
           (streaks : list streak) : list streak :=
  if (min_days <=? Z.of_nat (length current_streak))%Z
  then streaks ++ [streak_of df current_streak]
  else streaks.

(** The loop over [active_dates[1:]]; [prev] is [active_dates[i-1]]. *)
Fixpoint streak_loop (df : list row) (min_days : Z) (prev : Z) (dates : list Z)
         (current_streak : list Z) (streaks : list streak) : list streak :=
  match dates with
  | [] => close_streak df min_days current_streak streaks
  | d :: rest =>
    if (d - prev =? 1)%Z
    then streak_loop df min_days d rest (current_streak ++ [d]) streaks
    else streak_loop df min_days d rest [d]
                     (close_streak df min_days current_streak streaks)
  end.

(** [sorted(streaks, key=lambda x: x['length_days'], reverse=True)]: stable,
    so streaks of equal length keep their order. *)
Fixpoint insert_desc (x : streak) (l : list streak) : list streak :=
  match l with
  | [] => [x]
  | y :: l' =>
    if length_days x <? length_days y then y :: insert_desc x l' else x :: l
  end.

Definition sort_desc (l : list streak) : list streak := fold_right insert_desc [] l.

Definition identify_conversation_streaks (df : list row) (min_days : Z)
  : result (list streak) :=
  let dates := active_dates df in
  if (Z.of_nat (length dates) <? min_days)%Z then Ok []
  else
    match dates with
    | [] => Raise IndexError
    | first :: rest => Ok (sort_desc (streak_loop df min_days first rest [first] []))
    end.

(** *** detect_pattern_changes *)

(** Order of the timestamp column under [sort_values]: ascending, NaT last. *)
Definition ts_le (a b : option Z) : bool :=
  match a, b with
  | Some x, Some y => (x <=? y)%Z
  | _, None => true
  | None, Some _ => false
  end.

Fixpoint insert_row (r : row) (l : list row) : list row :=
  match l with
  | [] => [r]
  | y :: l' => if ts_le (timestamp r) (timestamp y) then r :: l else y :: insert_row r l'
  end.

(** [df.sort_values('timestamp')].  Rows with equal timestamps are kept in
    their original order here; the default sort of pandas does not promise
    an order among them. *)
Definition sort_values (df : list row) : list row := fold_right insert_row [] df.

(** The [rolling_sentiment_score] column: 0, then 1 where the label contains
    'Positive', then -1 where it contains 'Negative'. *)
Definition sentiment_score (r : row) : Z :=
  let s0 := 0%Z in
  let s1 := if contains (u "Positive") (sentiment r) then 1%Z else s0 in
  if contains (u "Negative") (sentiment r) then (-1)%Z else s1.

Definition zsum (l : list Z) : Z := fold_right Z.add 0%Z l.

Definition zmean (l : list Z) : Q := (inject_Z (zsum l) / inject_Z (Z.of_nat (length l)))%Q.

Definition last_n {A} (n : nat) (l : list A) : list A := skipn (length l - n) l.

(** [rolling(window, min_periods=1).mean()]: [window_buf] holds the samples
    seen so far that are still inside the window. *)
Fixpoint rolling_mean (window : nat) (window_buf : list Z) (xs : list Z) : list Q :=
  match xs with
  | [] => []
  | x :: xs' =>
    let buf := last_n window (window_buf ++ [x]) in
    zmean buf :: rolling_mean window buf xs'
  end.

(** [Series.diff().abs()]: the first entry is NaN. *)
Fixpoint diff_abs (prev : option Q) (xs : list Q) : list (option Q) :=
  match xs with
  | [] => []
  | x :: xs' =>
    match prev with
    | None => None
    | Some p => Some (Qabs (x - p))
    end :: diff_abs (Some x) xs'
  end.

Record change := {
  change_timestamp : option Z;
  change_type : string;
  magnitude : Q;
  direction : string
}.

Definition Qltb (a b : Q) : bool := negb (Qle_bool b a).

(** The rows kept by [df_sorted['sentiment_shift'] > 0.5], turned into change
    records; a comparison with NaN is false. *)
Fixpoint collect_changes (rows : list row) (ma : list Q) (shift : list (option Q))
  : list change :=
  match rows, ma, shift with
  | r :: rows', m :: ma', sh :: shift' =>
    match sh with
    | Some d =>
      if Qltb (1 # 2) d
      then [{| change_timestamp := timestamp r;
               change_type := "sentiment_shift";
               magnitude := d;
               direction := if Qltb 0 m then "positive" else "negative" |}]
      else []
    | None => []
    end ++ collect_changes rows' ma' shift'
  | _, _, _ => []
  end.

Definition detect_pattern_changes (df : list row) : list change :=
  let df_sorted := sort_values df in
  let score := map sentiment_score df_sorted in
  let sentiment_ma := rolling_mean 10 [] score in
  let sentiment_shift := diff_abs None sentiment_ma in
  collect_changes df_sorted sentiment_ma sentiment_shift.

(** *** calculate_engagement_score *)

Record daily := {
  day : Z;
  day_message_count : nat;
  day_avg_length : Q;
  day_conversation_count : nat
}.

Definition on_day (df : list row) (d : Z) : list row :=
  filter (fun r => match date r with
                   | Some x => (x =? d)%Z
                   | None => false
                   end) df.

(** [df.groupby('date').agg(...)]: one line per distinct date, in ascending
    order; rows without a date belong to no group. *)
Definition daily_metrics (df : list row) : list daily :=
  map (fun d =>
         let g := on_day df d in
         {| day := d;
            day_message_count := length g;
            day_avg_length := mean (map word_count g);
            day_conversation_count := nunique (map conversation_id g) |})
      (active_dates df).

Definition nat_max (l : list nat) : nat := fold_right Nat.max 0 l.

Definition q_max (l : list Q) : Q :=
  fold_right (fun x acc => if Qle_bool acc x then x else acc) 0%Q l.

Definition qnat (n : nat) : Q := inject_Z (Z.of_nat n).

(** Float division of a column by a scalar: no exception is raised, a zero
    divisor gives a non-finite value or NaN, written [None]. *)
Definition fdiv (a b : Q) : option Q :=
  if Qeq_bool b 0 then None else Some (a / b)%Q.

Definition engagement (mc al cc : option Q) : option Q :=
  match mc, al, cc with
  | Some x, Some y, Some z =>
    Some ((x * (4 # 10) + y * (3 # 10) + z * (3 # 10)) * 100)%Q
  | _, _, _ => None
  end.

(** The [engagement_score] column next to the daily metrics. *)
Definition calculate_engagement_score (df : list row) : list (daily * option Q) :=
  let dm := daily_metrics df in
  let max_mc := qnat (nat_max (map day_message_count dm)) in
  let max_al := q_max (map day_avg_length dm) in
  let max_cc := qnat (nat_max (map day_conversation_count dm)) in
  map (fun m =>
         (m, engagement (fdiv (qnat (day_message_count m)) max_mc)
                        (fdiv (day_avg_length m) max_al)
                        (fdiv (qnat (day_conversation_count m)) max_cc)))
      dm.

End Temporal.

(* ===================================================================== *)
(** ** advanced_analyzer.py *)
(* ===================================================================== *)

Module Advanced.

(** The dictionary that [conv_df.to_dict('records')] makes of a row, as
    the quality functions read it: the frame has a column 'role' and a
    column 'timestamp' but no column 'content'. *)
Definition record_of (r : Analyzer.row) : Quality.message :=
  {| Quality.content := None; Quality.role := Some (Analyzer.role r) |}.

(** [[m.get('content_preview', '') for m in messages]]. *)
Definition message_texts (rows : list Analyzer.row) : list pystr :=
  map Analyzer.content_preview rows.

(** The columns that [_add_quality_metrics] adds to the messages of one
    conversation, apart from the two flow columns, which are read off the
    time stamps. *)
Record quality_columns := {
  collaboration_quality : string;
  task_completion_status : string;
  task_completion_confidence : Q;
  conversation_turn_count : nat;
  conversation_questions : nat;
  conversation_code_blocks : nat
}.

Definition conversation_quality (rows : list Analyzer.row) : quality_columns :=
  let messages := map record_of rows in
  let conv_metrics := Quality.calculate_conversation_metrics messages in
  let task_status := Quality.analyze_task_completion (message_texts rows) in
  {| collaboration_quality := Quality.analyze_collaboration_quality messages;
     task_completion_status := Quality.status task_status;
     task_completion_confidence := Quality.confidence task_status;
     conversation_turn_count := Quality.turn_count conv_metrics;
     conversation_questions := Quality.user_questions conv_metrics;
     conversation_code_blocks := Quality.assistant_code_blocks conv_metrics |}.

End Advanced.

(* ===================================================================== *)
(** * Vocabulary of the properties *)
(* ===================================================================== *)

Import Analyzer.

Unset Implicit Arguments.

(** Every pattern of every rule table. *)
Definition all_patterns : list string :=
  map snd privacy_patterns ++ map snd sensitive_entities
  ++ flat_map snd topic_patterns ++ flat_map snd sentiment_patterns
  ++ flat_map (fun e => snd (snd e)) failure_patterns
  ++ flat_map snd Quality.completion_patterns
  ++ flat_map snd Quality.collaboration_patterns.

(** The pattern is accepted by the parser. *)
Definition parses (p : string) : bool :=
  match Re.parse (u p) with
  | Some _ => true
  | None => false
  end.

Section SentimentTerms.

(** The eight categories, in enumeration order. *)
Definition sentiment_labels : list string := map fst sentiment_patterns.

End SentimentTerms.

Section TaskCompletionTerms.

Import Quality.

(** The patterns listed under a key of a table. *)
Definition patterns_of (key : string) (table : list (string * list string)) : list string :=
  match find (fun entry => String.eqb (fst entry) key) table with
  | Some entry => snd entry
  | None => []
  end.

(** The number of matches of the patterns of [key] in [text]. *)
Definition match_count (key : string) (table : list (string * list string))
           (text : pystr) : nat :=
  list_sum (map (fun pattern => Re.findall_count true pattern text) (patterns_of key table)).

End TaskCompletionTerms.

Section SeverityTerms.

(** The severities that occur in the failure table. *)
Definition severity_labels : list string := ["high"; "medium"; "low"].

(** Membership in a list of labels. *)
Definition mem (s : string) (l : list string) : bool := existsb (String.eqb s) l.

(** The maximum of a non-empty list of labels: medium if present, else low
    if present, else high. *)
Definition expected_severity (sevs : list string) : string :=
  if mem "medium" sevs then "medium" else if mem "low" sevs then "low" else "high".

(** The severities detected for a message: those of [detect_failures] for an
    assistant-like role, none otherwise. *)
Definition detected_severities (message : raw_message) : list string :=
  if role_in (message_role message) ["assistant"; "bot"]
  then snd (detect_failures (message_content message))
  else [].

End SeverityTerms.

Section SeverityExampleTerms.

(** An assistant message in which a failure of high severity (Hallucination)
    and one of low severity (Formatting Issues) are detected. *)
Definition high_low_message : raw_message :=
  {| m_text := Some (u "that is incorrect and the formatting is off");
     m_content := None;
     m_sender := Some (u "assistant");
     m_role := None;
     m_created_at := None |}.

(** The row built for it. *)
Definition high_low_row : row :=
  {| conversation_id := u "c1";
     conversation_name := u "Untitled";
     message_index := 0;
     timestamp := u "2024-01-01T00:00:00Z";
     role := u "assistant";
     model := u "unknown";
     content_preview := u "that is incorrect and the formatting is off";
     content_length := 43;
     word_count := 8;
     topics := u "General";
     topic_count := 1;
     sentiment := u "Neutral";
     has_failure := true;
     failure_types := u "Hallucination|Formatting Issues";
     failure_count := 2;
     failure_severities := u "high|low";
     max_failure_severity := u "low" |}.

End SeverityExampleTerms.

Section StatisticsTerms.

(** A corpus of one conversation holding one message, sent by the user. *)
Definition user_only_corpus : list raw_conversation :=
  [ {| c_id := Some (u "c1");
       c_created_at := Some (u "2024-01-01T00:00:00Z");
       c_updated_at := Some (u "2024-01-01T00:00:00Z");
       c_name := Some (u "greeting");
       c_model := None;
       c_chat_messages :=
         Some [ {| m_text := Some (u "hello there, how are you");
                   m_content := None;
                   m_sender := Some (u "human");
                   m_role := None;
                   m_created_at := None |} ];
       c_messages := None |} ].

End StatisticsTerms.

Section CollaborationTerms.

Import Quality.

(** The number of patterns of a list that are found in a text. *)
Definition matching_patterns (patterns : list string) (text : pystr) : nat :=
  length (filter (fun pattern => Re.search true pattern text) patterns).

(** The text of a message as the loop reads it. *)
Definition message_text (msg : message) : pystr := lower (get_or (content msg) []).

(** The contribution of one message to the score of [q]. *)
Definition increments (q : string) (table : list (string * list string)) (text : pystr)
  : nat :=
  list_sum (map (fun entry =>
                   if String.eqb (fst entry) q then matching_patterns (snd entry) text
                   else 0) table).

(** A message in which both patterns of the confrontational category are
    found. *)
Definition blunt_message : message :=
  {| content := Some (u "Obviously terrible"); role := Some (u "user") |}.

End CollaborationTerms.

Section RedactionTerms.

(** No rule of either table finds a match in the text. *)
Definition residual_free (text : pystr) : bool :=
  forallb (fun rule => is_nil (Re.finditer true (snd rule) text)) privacy_patterns
  && forallb (fun rule => is_nil (Re.finditer false (snd rule) text)) sensitive_entities.

(** A text with an e-mail address, a telephone number and a name. *)
Definition contact_text : pystr :=
  u "Write to bob@example.com or call 555-123-4567; Dr. John Smith will answer.".

(** Two dotted numbers, the first of which occurs again inside the second. *)
Definition overlapping_addresses : pystr := u "1.2.3.4 a1.2.3.45.6.7.8".

End RedactionTerms.

Section StreaksTerms.

Import Temporal.

(** Each date of a run is the day after the one before it. *)
Fixpoint consecutive (r : list Z) : Prop :=
  match r with
  | x :: (y :: _) as r' => y = (x + 1)%Z /\ consecutive r'
  | _ => True
  end.

(** No run can be extended by the run that follows it. *)
Fixpoint separated (rs : list (list Z)) : Prop :=
  match rs with
  | r1 :: (r2 :: _) as rs' => (hd 0 r2 - last r1 0 <> 1)%Z /\ separated rs'
  | _ => True
  end.

(** [rs] cuts [dates] into maximal runs of consecutive dates. *)
Definition run_partition (dates : list Z) (rs : list (list Z)) : Prop :=
  concat rs = dates
  /\ Forall (fun r => r <> [] /\ consecutive r) rs
  /\ separated rs.

(** The runs read off by the loop, the run in progress being [current]. *)
Fixpoint group_runs (prev : Z) (dates : list Z) (current : list Z) : list (list Z) :=
  match dates with
  | [] => [current]
  | d :: rest =>
    if (d - prev =? 1)%Z then group_runs d rest (current ++ [d])
    else current :: group_runs d rest [d]
  end.

(** The run has at least [min_days] days. *)
Definition long_enough (min_days : Z) (r : list Z) : bool :=
  (min_days <=? Z.of_nat (length r))%Z.

(** The order of the result: no streak is followed by a longer one. *)
Definition longer_first (a b : streak) : Prop := length_days b <= length_days a.

End StreaksTerms.

Section StreaksMainTerms.

Import Temporal.

(** The seven dates of the example: three days, a gap, four days. *)
Definition example_dates (D : Z) : list Z :=
  [D; D + 1; D + 2; D + 4; D + 5; D + 6; D + 7]%Z.

(** Messages on the days 0, 1, 2, 4, 5, 6 and 7, two of them on day 5, and
    one message without a timestamp. *)
Definition week_frame : list row :=
  map (fun t => {| timestamp := t; sentiment := u "Neutral"; word_count := 3;
                   conversation_id := u "c1"; message_index := 0 |})
      [Some 432000; Some 0; Some 90000; Some 172800; None; Some 345600;
       Some 435600; Some 518400; Some 604800]%Z.

End StreaksMainTerms.

Section PatternChangesTerms.

Import Temporal.


(** The samples of the window that ends at index [i]: the last [w] of the
    first [i + 1] samples, or all of these when there are fewer. *)
Definition window (w : nat) (xs : list Z) (i : nat) : list Z :=
  skipn (S i - w) (firstn (S i) xs).

(** The event recorded at index [i] of the sorted frame, if any: the moving
    average moved by more than one half since index [i - 1]. *)
Definition change_at (rows : list row) (ma : nat -> Q) (i : nat) : list change :=
  match nth_error rows i with
  | Some r =>
    let d := Qabs (ma i - ma (i - 1)) in
    if Qltb (1 # 2) d
    then [{| change_timestamp := timestamp r;
             change_type := "sentiment_shift";
             magnitude := d;
             direction := if Qltb 0 (ma i) then "positive" else "negative" |}]
    else []
  | None => []
  end.

End PatternChangesTerms.

Section PatternChangesExampleTerms.

Import Temporal.

(** Four messages, given out of order. *)
Definition mood_frame : list row :=
  map (fun p => {| timestamp := Some (fst p); sentiment := u (snd p); word_count := 2;
                   conversation_id := u "c1"; message_index := 0 |})
      [(200, "Negative"); (100, "Very Positive"); (300, "Neutral"); (400, "Positive")]%Z.

End PatternChangesExampleTerms.

Section EngagementExampleTerms.

Import Temporal.

(** Two messages from two conversations on day 0, one message on day 1. *)
Definition two_day_frame : list row :=
  [ {| timestamp := Some 3600%Z; sentiment := u "Positive"; word_count := 4;
       conversation_id := u "c1"; message_index := 0 |};
    {| timestamp := Some 90000%Z; sentiment := u "Neutral"; word_count := 3;
       conversation_id := u "c1"; message_index := 1 |};
    {| timestamp := Some 7200%Z; sentiment := u "Neutral"; word_count := 2;
       conversation_id := u "c2"; message_index := 0 |} ].

(** The metrics of day 0, maximal in all three columns. *)
Definition busy_day : daily :=
  {| day := 0; day_message_count := 2; day_avg_length := 6 # 2;
     day_conversation_count := 2 |}.

End EngagementExampleTerms.

Section StatisticsExampleTerms.

(** A conversation of three messages: a question of the user, an answer
    in which a failure is detected and an answer in which none is. *)
Definition mixed_corpus : list raw_conversation :=
  [ {| c_id := Some (u "c1");
       c_created_at := Some (u "2024-01-01T00:00:00Z");
       c_updated_at := None;
       c_name := None;
       c_model := None;
       c_chat_messages :=
         Some [ {| m_text := Some (u "how do I sort a list");
                   m_content := None; m_sender := Some (u "human");
                   m_role := None; m_created_at := None |};
                {| m_text := Some (u "sorry, that is incorrect");
                   m_content := None; m_sender := Some (u "assistant");
                   m_role := None; m_created_at := None |};
                {| m_text := Some (u "call sorted on it");
                   m_content := None; m_sender := Some (u "assistant");
                   m_role := None; m_created_at := None |} ];
       c_messages := None |} ].

End StatisticsExampleTerms.

Section RedactionLabelTerms.

(** The types of the rules of both tables, as they are reported. *)
Definition rule_types : list pystr :=
  map (fun rule => u (fst rule)) (privacy_patterns ++ sensitive_entities).

(** A character of a hexadecimal digest: a digit or a letter from a to f. *)
Definition is_hex (c : N) : bool := is_digit c || ((97 <=? c)%N && (c <=? 102)%N).

End RedactionLabelTerms.

Section QualityTerms.

Import Quality.

(** Two messages of one conversation, one of them blunt. *)
Definition polite_message : message :=
  {| content := Some (u "Okay, let's build on that together"); role := Some (u "assistant") |}.

End QualityTerms.

Section EffectivenessTerms.

Import Quality.

(** The patterns of quality_analyzer.py outside the completion and
    collaboration tables. *)
Definition quality_patterns : list string :=
  flat_map snd effectiveness_patterns ++ [clarification_pattern; tool_pattern].

End EffectivenessTerms.

Section MetricsTerms.

Import Quality.

(** The messages whose role is exactly [name]. *)
Definition messages_of_role (name : string) (messages : list message) : list message :=
  filter (fun msg => has_role msg name) messages.

(** [msg.get('content', '')]. *)
Definition content_of (msg : message) : pystr := get_or (content msg) [].

(** The number of question marks of a text. *)
Definition question_marks (text : pystr) : nat :=
  length (filter (fun c => (c =? 63)%N) text).


(** A short exchange, with a message of a role that is not counted. *)
Definition short_exchange : list message :=
  [ {| content := Some (u "What is this? Can you explain?"); role := Some (u "user") |};
    {| content := Some (u "Searching the docs."); role := Some (u "assistant") |};
    {| content := Some (u "Why?"); role := Some (u "human") |} ].

End MetricsTerms.

Section FlowTerms.

Import Quality.

(** The pairs of a message and the one after it: (previous, current). *)
Definition adjacent (messages : list timed_message)
  : list (timed_message * timed_message) :=
  combine messages (tl messages).

Definition same_role (pair : timed_message * timed_message) : bool :=
  role_eqb (tm_role (snd pair)) (tm_role (fst pair)).

Definition by_user (msg : timed_message) : bool :=
  role_eqb (tm_role msg) (Some (u "user")).

(** The time from the first message of a pair to the second is below
    [bound] microseconds. *)
Definition gap_below (bound : Z) (pair : timed_message * timed_message) : bool :=
  match gap (snd pair) (fst pair) with
  | Some g => (g <? bound)%Z
  | None => false
  end.

Definition gap_above (bound : Z) (pair : timed_message * timed_message) : bool :=
  match gap (snd pair) (fst pair) with
  | Some g => (bound <? g)%Z
  | None => false
  end.

(** Two messages without a role, the second stamped an hour before the
    first. *)
Definition out_of_order : list timed_message :=
  [ {| tm_role := None; tm_stamp := At 3600000000 true |};
    {| tm_role := None; tm_stamp := At 0 true |} ].

End FlowTerms.

Section StreakShapeTerms.

Import Temporal.

(** The runs of consecutive dates of a sorted list of dates, as the loop
    reads them off. *)
Definition runs_of (dates : list Z) : list (list Z) :=
  match dates with
  | [] => []
  | first :: rest => group_runs first rest [first]
  end.

(** At least one day lies between the end of the first run and the start
    of the second. *)
Definition runs_apart (r1 r2 : list Z) : Prop := (last r1 0 + 2 <= hd 0 r2)%Z.

(** At least one day lies between the end of [a] and the start of [b]. *)
Definition apart (a b : streak) : Prop := (end_date a + 2 <= start_date b)%Z.

(** [a] may stand before [b] in the result: it is longer, or as long and
    earlier. *)
Definition ranked (a b : streak) : Prop :=
  length_days b < length_days a
  \/ (length_days a = length_days b /\ (end_date a < start_date b)%Z).

(** Some message was sent on day [d]. *)
Definition active (df : list row) (d : Z) : Prop :=
  exists r, In r df /\ date r = Some d.

End StreakShapeTerms.

Section StreakOrderTerms.

Import Temporal.

(** The messages of [week_frame], the latest first. *)
Definition week_frame_reversed : list row := rev week_frame.


End StreakOrderTerms.

Section ChangePositionTerms.

Import Temporal.

(** The moving average of index [i] of the sorted frame. *)
Definition moving_average (df : list row) (i : nat) : Q :=
  zmean (window 10 (map sentiment_score (sort_values df)) i).

(** A score of the sentiment column. *)
Definition is_score (x : Z) : Prop := (-1 <= x <= 1)%Z.

End ChangePositionTerms.

Section EngagementDaysTerms.

Import Temporal.

(** The day of a line of the result. *)
Definition day_of (line : daily * option Q) : Z := day (fst line).

(** The rows that have a date. *)
Definition dated (df : list row) : list row :=
  filter (fun r => match date r with Some _ => true | None => false end) df.

(** No row that has a date has a word. *)
Definition wordless (df : list row) : Prop :=
  forall r, In r df -> date r <> None -> word_count r = 0.

(** Two messages without words on one day. *)
Definition wordless_frame : list row :=
  [ {| timestamp := Some 3600%Z; sentiment := u "Neutral"; word_count := 0;
       conversation_id := u "c1"; message_index := 0 |};
    {| timestamp := Some 7200%Z; sentiment := u "Neutral"; word_count := 0;
       conversation_id := u "c1"; message_index := 1 |} ].

End EngagementDaysTerms.

Section MatchingTerms.

Import Re.

(** The character before the rest, after [w] has been read. *)
Definition last_opt (prev : option N) (w : pystr) : option N :=
  match rev w with
  | c :: _ => Some c
  | [] => prev
  end.

(** A word boundary lies between [prev] and the head of [s]. *)
Definition boundary (prev : option N) (s : pystr) : bool :=
  xorb (word_opt prev) (word_opt (hd_error s)).

(** [matches ic r prev w rest]: the pattern can read exactly [w], the
    character before being [prev] and the text after being [rest]. *)
Inductive matches (ic : bool) : regex -> option N -> pystr -> pystr -> Prop :=
| m_empty prev rest : matches ic REmpty prev [] rest
| m_char p c prev rest :
    char_match ic p c = true -> matches ic (RChar p) prev [c] rest
| m_class neg items c prev rest :
    xorb neg (in_class ic items c) = true -> matches ic (RClass neg items) prev [c] rest
| m_wordb prev rest :
    boundary prev rest = true -> matches ic RWordB prev [] rest
| m_seq a b prev w1 w2 rest :
    matches ic a prev w1 (w2 ++ rest) ->
    matches ic b (last_opt prev w1) w2 rest ->
    matches ic (RSeq a b) prev (w1 ++ w2) rest
| m_alt_l a b prev w rest :
    matches ic a prev w rest -> matches ic (RAlt a b) prev w rest
| m_alt_r a b prev w rest :
    matches ic b prev w rest -> matches ic (RAlt a b) prev w rest
| m_opt_some a prev w rest :
    matches ic a prev w rest -> matches ic (ROpt a) prev w rest
| m_opt_none a prev rest : matches ic (ROpt a) prev [] rest
| m_star_nil a prev rest : matches ic (RStar a) prev [] rest
| m_star_cons a prev w1 w2 rest :
    matches ic a prev w1 (w2 ++ rest) -> w1 <> [] ->
    matches ic (RStar a) (last_opt prev w1) w2 rest ->
    matches ic (RStar a) prev (w1 ++ w2) rest.

(** The loop of a star, with the fuel that [rmatch] gives it. *)
Definition star_loop {A}
           (step : option N -> pystr -> (option N -> pystr -> option A) -> option A)
           (k : option N -> pystr -> option A) : nat -> option N -> pystr -> option A :=
  fix loop (n : nat) (p : option N) (t : pystr) : option A :=
    match n with
    | O => k p t
    | S n' =>
      match step p t (fun p' t' => if length t' <? length t then loop n' p' t' else None) with
      | Some x => Some x
      | None => k p t
      end
    end.

(** Every word the pattern reads has at least one character. *)
Fixpoint consumes (r : regex) : bool :=
  match r with
  | RChar _ | RClass _ _ => true
  | RSeq a b => consumes a || consumes b
  | RAlt a b => consumes a && consumes b
  | _ => false
  end.

(** The pattern starts with a word boundary; it ends with one. *)
Fixpoint starts_wb (r : regex) : bool :=
  match r with
  | RWordB => true
  | RSeq a _ => starts_wb a
  | RAlt a b => starts_wb a && starts_wb b
  | _ => false
  end.

Fixpoint ends_wb (r : regex) : bool :=
  match r with
  | RWordB => true
  | RSeq _ b => ends_wb b
  | RAlt a b => ends_wb a && ends_wb b
  | _ => false
  end.

(** The pattern reads none of the characters of [l]. *)
Fixpoint avoids (ic : bool) (l : list N) (r : regex) : bool :=
  match r with
  | REmpty | RWordB => true
  | RChar p => forallb (fun c => negb (char_match ic p c)) l
  | RClass neg items => forallb (fun c => negb (xorb neg (in_class ic items c))) l
  | RSeq a b | RAlt a b => avoids ic l a && avoids ic l b
  | ROpt a | RStar a => avoids ic l a
  end.

(** A kind of character that a word must contain. *)
Inductive want :=
| WChar (c : N)
| WSpace.

Definition sat (w : want) (c : N) : bool :=
  match w with
  | WChar x => (c =? x)%N
  | WSpace => is_space c
  end.

(** Every word the pattern reads contains a character of the kind [w]. *)
Fixpoint needs (ic : bool) (w : want) (r : regex) : bool :=
  match r with
  | RChar p => forallb (sat w) (if ic then [p; lower1 p; upper1 p] else [p])
  | RClass neg items =>
    negb neg
    && match w with
       | WSpace => forallb (fun it => match it with CSpace => true | _ => false end) items
       | WChar _ => false
       end
  | RSeq a b => needs ic w a || needs ic w b
  | RAlt a b => needs ic w a && needs ic w b
  | _ => false
  end.

End MatchingTerms.

Section TokenTerms.

Import Re.

(** The square brackets, which delimit every token. *)
Definition brackets : list N := [91; 93]%N.

(** The redacted text seen next to the text it was made from: the two agree
    up to the next token; a word boundary of the first, there and before,
    is a word boundary of the second. *)
Inductive beside : option N -> pystr -> option N -> pystr -> Prop :=
| beside_nil p' p :
    (boundary p' [] = true -> boundary p [] = true) -> beside p' [] p []
| beside_stop p' c out p s :
    In c brackets -> (boundary p' (c :: out) = true -> boundary p s = true) ->
    beside p' (c :: out) p s
| beside_char p' c out p s :
    (boundary p' (c :: out) = true -> boundary p (c :: s) = true) ->
    beside (Some c) out (Some c) s ->
    beside p' (c :: out) p (c :: s).

(** A token: a word between square brackets, with an underscore in it. *)
Definition token_like (k : pystr) : Prop :=
  exists word, k = 91%N :: word ++ [93%N] /\ forallb is_word word = true /\ In 95%N word.

(** What the analysis of a pattern must show for the rule to leave the
    tokens alone. *)
Definition rule_ok (ic : bool) (r : regex) : bool :=
  consumes r && starts_wb r && ends_wb r && avoids ic brackets r
  && (avoids ic [95%N] r || needs ic (WChar 64) r || needs ic WSpace r).

(** The text with every match of the scan replaced, where it stands, by
    its token: the counterpart of [scan]. *)
Fixpoint subst_scan (ic : bool) (r : regex) (mk : pystr -> pystr) (prev : option N)
         (s : pystr) (skip : nat) : pystr :=
  match skip with
  | S k =>
    match s with
    | c :: s' => subst_scan ic r mk (Some c) s' k
    | [] => []
    end
  | O =>
    let '(ms, n) := matches_here ic r prev s in
    flat_map mk ms
    ++ match s with
       | c :: s' =>
         match n with
         | O => c :: subst_scan ic r mk (Some c) s' 0
         | S k => subst_scan ic r mk (Some c) s' k
         end
       | [] => []
       end
  end.

(** Where the scan stands in the text, next to where the redacted text has
    got to: between matches both have the same character behind them, or
    the redacted text has a token behind it and the text a match that ends
    on a word boundary; inside a match the end of the match lies ahead. *)
Definition state_ok (prev prev' : option N) (s : pystr) (skip : nat) : Prop :=
  match skip with
  | O => prev' = prev \/ (word_opt prev' = false /\ boundary prev s = true)
  | S _ =>
    word_opt prev' = false /\ skip <= length s
    /\ boundary (last_opt prev (firstn skip s)) (skipn skip s) = true
  end.

End TokenTerms.

Section RedactionPassTerms.

(** The text after one rule, as [apply_rule] leaves it. *)
Definition rule_text (ic : bool) (mk : pystr -> pystr) (pattern : string) (text : pystr)
  : pystr :=
  fold_left (fun acc original => replace acc original (mk original))
            (Re.finditer ic pattern text) text.

(** The text after one rule had each match been replaced where it stands. *)
Definition span_text (ic : bool) (mk : pystr -> pystr) (pattern : string) (text : pystr)
  : pystr :=
  subst_scan ic (Re.compile pattern) mk None text 0.

(** The rules of both tables in the order in which [redact_pii] applies
    them: the flag, the token and the pattern of each. *)
Definition redaction_rules : list (bool * (pystr -> pystr) * string) :=
  map (fun rule => (true, pii_token (fst rule), snd rule)) privacy_patterns
  ++ map (fun rule => (false, entity_token (fst rule), snd rule)) sensitive_entities.

(** Under every rule, replacing all occurrences of the matched strings
    replaces the matches and nothing else. *)
Fixpoint only_matches (rules : list (bool * (pystr -> pystr) * string)) (text : pystr)
  : bool :=
  match rules with
  | [] => true
  | (ic, mk, pattern) :: rules' =>
    str_eqb (rule_text ic mk pattern text) (span_text ic mk pattern text)
    && only_matches rules' (rule_text ic mk pattern text)
  end.

Definition replaces_only_matches (text : pystr) : bool :=
  only_matches redaction_rules text.

(** The text after a list of rules. *)
Definition pass_text (rules : list (bool * (pystr -> pystr) * string)) (text : pystr)
  : pystr :=
  fold_left (fun acc rule => rule_text (fst (fst rule)) (snd (fst rule)) (snd rule) acc)
            rules text.

(** The rule finds nothing in the text. *)
Definition finds_nothing (rule : bool * (pystr -> pystr) * string) (text : pystr) : Prop :=
  Re.search_from (fst (fst rule)) (Re.compile (snd rule)) None text = false.

End RedactionPassTerms.

(* ===================================================================== *)
(** * Properties *)
(* ===================================================================== *)

Arguments Re.search : simpl never.
Arguments Re.findall_count : simpl never.
Arguments Re.finditer : simpl never.

(** ** The rule tables are well formed *)

(** Every pattern of every table lies inside the syntax read by [Re.parse]. *)
Lemma tables_parse : forallb parses all_patterns = true.
Proof. vm_compute. reflexivity. Qed.

Ltac nodup_keys :=
  repeat (constructor; [simpl; intuition discriminate|]); constructor.

Lemma topic_keys_nodup : NoDup (map fst topic_patterns).
Proof. nodup_keys. Qed.

Lemma sentiment_keys_nodup : NoDup (map fst sentiment_patterns).
Proof. nodup_keys. Qed.

Lemma collaboration_keys_nodup : NoDup (map fst Quality.collaboration_patterns).
Proof. nodup_keys. Qed.

(** ** Dictionaries as association lists *)

Section Dict.

Lemma get_in (k : string) (v : nat) (sc : list (string * nat)) :
  NoDup (map fst sc) -> In (k, v) sc -> get k sc = v.
Proof.
  induction sc as [|[k' v'] sc IH]; simpl; intros Hnd Hin; [contradiction|].
  inversion Hnd as [|? ? Hnotin Hnd']; subst.
  destruct Hin as [Heq | Hin].
  - inversion Heq; subst. now rewrite String.eqb_refl.
  - destruct (String.eqb_spec k' k) as [->|_].
    + exfalso. apply Hnotin. change k with (fst (k, v)). now apply in_map.
    + now apply IH.
Qed.

Lemma get_absent (k : string) (sc : list (string * nat)) :
  ~ In k (map fst sc) -> get k sc = 0.
Proof.
  induction sc as [|[k' v'] sc IH]; simpl; intros Hn; [reflexivity|].
  destruct (String.eqb_spec k' k) as [->|_]; [tauto|].
  apply IH. tauto.
Qed.

Lemma score_table_keys table text :
  map fst (score_table table text) = map fst table.
Proof. unfold score_table. rewrite map_map. reflexivity. Qed.

Lemma score_table_get table text k ps :
  NoDup (map fst table) -> In (k, ps) table ->
  get k (score_table table text)
  = list_sum (map (fun pattern => Re.findall_count true pattern text) ps).
Proof.
  intros Hnd Hin. apply get_in.
  - now rewrite score_table_keys.
  - unfold score_table.
    apply (in_map (fun entry => (fst entry, list_sum (map (fun pattern =>
             Re.findall_count true pattern text) (snd entry)))) _ _ Hin).
Qed.

Lemma filter_keys {V} (f : string * V -> bool) (table : list (string * V)) k v :
  NoDup (map fst table) -> In (k, v) table ->
  (In k (map fst (filter f table)) <-> f (k, v) = true).
Proof.
  intros Hnd Hin. rewrite in_map_iff. split.
  - intros [[k' v'] [Hk Hf]]. simpl in Hk. subst k'.
    apply filter_In in Hf. destruct Hf as [Hin' Hf].
    assert (v' = v) as ->; [|exact Hf].
    clear Hf. induction table as [|[a b] table IH]; [contradiction|].
    simpl in Hnd. inversion Hnd as [|? ? Hn Hnd']; subst.
    destruct Hin as [E1|H1], Hin' as [E2|H2].
    + congruence.
    + inversion E1; subst. exfalso. apply Hn. change k with (fst (k, v')). now apply in_map.
    + inversion E2; subst. exfalso. apply Hn. change k with (fst (k, v)). now apply in_map.
    + now apply IH.
  - intros Hf. exists (k, v). split; [reflexivity|]. apply filter_In. now split.
Qed.

(** The element chosen by [max]: it sits in the sequence, everything before
    it has a strictly smaller key and nothing after it has a larger one. *)
Lemma max_by_split_gen {A} (key : A -> nat) (xs : list A) :
  forall best l1 l2,
    Forall (fun x => key x < key best) l1 ->
    Forall (fun x => key x <= key best) l2 ->
    exists l1' l2',
      l1 ++ best :: l2 ++ xs
      = l1' ++ max_by (fun a b => key a <? key b) best xs :: l2'
      /\ Forall (fun x => key x < key (max_by (fun a b => key a <? key b) best xs)) l1'
      /\ Forall (fun x => key x <= key (max_by (fun a b => key a <? key b) best xs)) l2'.
Proof.
  induction xs as [|x xs IH]; intros best l1 l2 H1 H2; simpl.
  - exists l1, l2. rewrite app_nil_r. auto.
  - destruct (Nat.ltb_spec (key best) (key x)) as [Hlt|Hge].
    + destruct (IH x (l1 ++ best :: l2) []) as (l1' & l2' & E & F1 & F2).
      * apply Forall_app. split.
        -- eapply Forall_impl; [|exact H1]. simpl. intros; lia.
        -- constructor; [lia|]. eapply Forall_impl; [|exact H2]. simpl. intros; lia.
      * constructor.
      * exists l1', l2'. split; [|auto].
        rewrite <- E. simpl. rewrite <- app_assoc. reflexivity.
    + destruct (IH best l1 (l2 ++ [x])) as (l1' & l2' & E & F1 & F2).
      * exact H1.
      * apply Forall_app. split; [exact H2|]. constructor; [lia|constructor].
      * exists l1', l2'. split; [|auto].
        rewrite <- E. rewrite <- app_assoc. reflexivity.
Qed.

Lemma max_by_split {A} (key : A -> nat) (first : A) (rest : list A) :
  let m := max_by (fun a b => key a <? key b) first rest in
  exists l1 l2,
    first :: rest = l1 ++ m :: l2
    /\ Forall (fun x => key x < key m) l1
    /\ Forall (fun x => key x <= key m) l2.
Proof.
  intros m.
  destruct (max_by_split_gen key rest first [] []) as (l1 & l2 & E & F1 & F2);
    try constructor.
  exists l1, l2. auto.
Qed.

End Dict.

(** ** detect_topics *)

Section Topics.

Lemma any_match_exists patterns text :
  any_match patterns text = true
  <-> exists pattern, In pattern patterns /\ Re.search true pattern text = true.
Proof. unfold any_match. apply existsb_exists. Qed.

Lemma general_not_a_key : ~ In "General" (map fst topic_patterns).
Proof. simpl. intuition discriminate. Qed.

Lemma detect_topics_cases (t : pystr) :
  detect_topics t <> []
  /\ (forall topic patterns, In (topic, patterns) topic_patterns ->
        (In topic (detect_topics t)
         <-> exists pattern, In pattern patterns
                             /\ Re.search true pattern (lower t) = true))
  /\ ((forall topic patterns pattern, In (topic, patterns) topic_patterns ->
         In pattern patterns -> Re.search true pattern (lower t) = false)
      <-> detect_topics t = ["General"]).
Proof.
  unfold detect_topics.
  set (f := fun entry : string * list string => any_match (snd entry) (lower t)).
  assert (Hkeys : forall topic patterns, In (topic, patterns) topic_patterns ->
            (In topic (map fst (filter f topic_patterns))
             <-> exists pattern, In pattern patterns
                                 /\ Re.search true pattern (lower t) = true)).
  { intros topic patterns Hin.
    rewrite (filter_keys f topic_patterns topic patterns topic_keys_nodup Hin).
    unfold f. simpl. apply any_match_exists. }
  assert (Hsub : forall k, In k (map fst (filter f topic_patterns)) ->
                           In k (map fst topic_patterns)).
  { intros k Hk. apply in_map_iff in Hk. destruct Hk as [e [<- He]].
    apply in_map. apply filter_In in He. tauto. }
  destruct (map fst (filter f topic_patterns)) as [|k ks] eqn:E.
  - split; [discriminate|]. split.
    + intros topic patterns Hin. rewrite <- (Hkeys topic patterns Hin). simpl. split.
      * intros [Heq|[]]. exfalso. apply general_not_a_key. rewrite Heq.
        change topic with (fst (topic, patterns)). now apply in_map.
      * intros [].
    + split; [reflexivity|]. intros _ topic patterns pattern Hin Hp.
      destruct (Re.search true pattern (lower t)) eqn:Es; [|reflexivity].
      exfalso. apply (proj2 (Hkeys topic patterns Hin)). exists pattern. split; assumption.
  - split; [discriminate|]. split.
    + exact Hkeys.
    + split.
      * intros Hnone. exfalso.
        assert (Hk : In k (map fst topic_patterns)) by (apply Hsub; now left).
        apply in_map_iff in Hk. destruct Hk as [[k' ps] [Hfst Hin]]. simpl in Hfst. subst k'.
        destruct (proj1 (Hkeys k ps Hin) (or_introl eq_refl)) as [p [Hp Hs]].
        rewrite (Hnone k ps p Hin Hp) in Hs. discriminate.
      * intros Heq. exfalso. apply general_not_a_key. apply Hsub.
        inversion Heq. now left.
Qed.

(** C8.  [detect_topics] never returns the empty list; a topic of the table
    is in the result exactly when one of its patterns is found in the text
    as the code searches it, that is in the lower-cased text, the search
    ignoring case; and when no pattern of any topic is found there the
    result is exactly [General]. *)
Theorem detect_topics_total (t : pystr) :
  detect_topics t <> []
  /\ (forall topic patterns, In (topic, patterns) topic_patterns ->
        (In topic (detect_topics t)
         <-> exists pattern, In pattern patterns
                             /\ Re.search true pattern (lower t) = true))
  /\ ((forall topic patterns pattern, In (topic, patterns) topic_patterns ->
         In pattern patterns -> Re.search true pattern (lower t) = false)
      <-> detect_topics t = ["General"]).
Proof. exact (detect_topics_cases t). Qed.

End Topics.

(** ** detect_sentiment *)

Section Sentiment.

Lemma sentiment_labels_eq :
  sentiment_labels
  = ["Very Positive"; "Positive"; "Neutral"; "Negative"; "Very Negative";
     "Urgent"; "Questioning"; "Collaborative"].
Proof. reflexivity. Qed.

Lemma score_entry (sc : list (string * nat)) (e : string * nat) :
  NoDup (map fst sc) -> In e sc -> get (fst e) sc = snd e.
Proof. destruct e as [k v]. simpl. apply get_in. Qed.

Lemma max_item_split (sc : list (string * nat)) :
  sc <> [] ->
  exists m l1 l2,
    max_item sc = Some m /\ sc = l1 ++ m :: l2
    /\ Forall (fun x => snd x < snd m) l1
    /\ Forall (fun x => snd x <= snd m) l2.
Proof.
  destruct sc as [|first rest]; [congruence|]. intros _.
  destruct (max_by_split snd first rest) as (l1 & l2 & E & F1 & F2).
  exists (max_by (fun a b => snd a <? snd b) first rest), l1, l2. auto.
Qed.

(** C4.  The score of a category is the total number of matches of its
    patterns in the lower-cased text, the search ignoring case.  If the
    score of Urgent is positive the answer is Urgent;
    otherwise, if every score is zero the answer is Neutral, and if some
    score is positive the answer is the category of maximal score that comes
    first in enumeration order (every category before it scores strictly
    less, no category after it scores more), which is not Urgent.  The
    answer is always one of the eight categories. *)
Theorem detect_sentiment_spec (t : pystr) :
  let score := fun k => get k (score_table sentiment_patterns (lower t)) in
  let r := detect_sentiment t in
  (forall k ps, In (k, ps) sentiment_patterns ->
     score k = list_sum (map (fun p => Re.findall_count true p (lower t)) ps))
  /\ (0 < score "Urgent" -> r = "Urgent")
  /\ (score "Urgent" = 0 ->
      (forall k, In k sentiment_labels -> score k = 0) -> r = "Neutral")
  /\ (score "Urgent" = 0 ->
      (exists k, In k sentiment_labels /\ 0 < score k) ->
      r <> "Urgent" /\ 0 < score r
      /\ exists before after,
           sentiment_labels = before ++ r :: after
           /\ (forall k, In k before -> score k < score r)
           /\ (forall k, In k after -> score k <= score r))
  /\ In r sentiment_labels.
Proof.
  cbv beta zeta.
  assert (Hnd : NoDup (map fst (score_table sentiment_patterns (lower t)))).
  { rewrite score_table_keys. exact sentiment_keys_nodup. }
  split.
  { intros k ps Hin.
    rewrite (score_table_get _ _ k ps sentiment_keys_nodup Hin). reflexivity. }
  unfold detect_sentiment.
  assert (Hkeys := score_table_keys sentiment_patterns (lower t)).
  fold sentiment_labels in Hkeys.
  remember (score_table sentiment_patterns (lower t)) as sc eqn:Esc. clear Esc.
  destruct (max_item_split sc) as (m & l1 & l2 & Emax & E & F1 & F2).
  { intros ->. discriminate Hkeys. }
  rewrite Emax. rewrite Forall_forall in F1, F2.
  assert (Hval : forall e, In e sc -> get (fst e) sc = snd e).
  { intros e He. now apply score_entry. }
  assert (Hin1 : forall e, In e l1 -> In e sc).
  { intros e He. rewrite E. apply in_or_app. now left. }
  assert (Hin2 : forall e, In e l2 -> In e sc).
  { intros e He. rewrite E. apply in_or_app. right. now right. }
  assert (Hm : get (fst m) sc = snd m).
  { apply Hval. rewrite E. apply in_or_app. right. now left. }
  assert (Hlab : sentiment_labels = map fst l1 ++ fst m :: map fst l2).
  { rewrite <- Hkeys. rewrite E at 1. rewrite map_app. reflexivity. }
  assert (Hbefore : forall k, In k (map fst l1) -> get k sc < snd m).
  { intros k Hk. apply in_map_iff in Hk. destruct Hk as [e [<- He]].
    rewrite (Hval e (Hin1 e He)). now apply F1. }
  assert (Hafter : forall k, In k (map fst l2) -> get k sc <= snd m).
  { intros k Hk. apply in_map_iff in Hk. destruct Hk as [e [<- He]].
    rewrite (Hval e (Hin2 e He)). now apply F2. }
  assert (Hmax : forall k, In k sentiment_labels -> get k sc <= snd m).
  { intros k Hk. rewrite Hlab in Hk. apply in_app_or in Hk.
    destruct Hk as [Hk|[Hk|Hk]].
    - specialize (Hbefore k Hk). lia.
    - subst k. lia.
    - now apply Hafter. }
  assert (Hurgent_lab : In "Urgent" sentiment_labels).
  { rewrite sentiment_labels_eq. simpl. tauto. }
  assert (Hneutral_lab : In "Neutral" sentiment_labels).
  { rewrite sentiment_labels_eq. simpl. tauto. }
  assert (Hm_lab : In (fst m) sentiment_labels).
  { rewrite Hlab. apply in_or_app. right. now left. }
  destruct (Nat.ltb_spec 0 (get "Urgent" sc)) as [Hu|Hu].
  - split; [reflexivity|]. split; [intros; lia|]. split; [intros; lia|].
    exact Hurgent_lab.
  - destruct (Nat.ltb_spec 0 (snd m)) as [Hpos|Hzero].
    + split; [intros; lia|]. split.
      { intros _ Hall. specialize (Hall (fst m) Hm_lab). lia. }
      split; [|exact Hm_lab].
      intros Hu0 _. split.
      { intros Heq. rewrite Heq in Hm. lia. }
      split; [lia|].
      exists (map fst l1), (map fst l2). split; [exact Hlab|]. split.
      * intros k Hk. rewrite Hm. now apply Hbefore.
      * intros k Hk. rewrite Hm. now apply Hafter.
    + split; [intros; lia|]. split; [reflexivity|]. split; [|exact Hneutral_lab].
      intros _ [k [Hk Hkpos]]. specialize (Hmax k Hk). lia.
Qed.

End Sentiment.

(** ** analyze_task_completion *)

Section TaskCompletion.

Import Quality.

Lemma completion_scores_eq (text : pystr) :
  score_table completion_patterns text
  = [("completed", match_count "completed" completion_patterns text);
     ("abandoned", match_count "abandoned" completion_patterns text);
     ("blocked", match_count "blocked" completion_patterns text)].
Proof. reflexivity. Qed.

Lemma completion_status_cases (c a b : nat) :
  let sc := [("completed", c); ("abandoned", a); ("blocked", b)] in
  (a + b < c -> completion_status sc = "completed")
  /\ (c <= a + b -> 0 < a -> completion_status sc = "abandoned")
  /\ (c <= a + b -> a = 0 -> 0 < b -> completion_status sc = "blocked")
  /\ (c <= a + b -> a = 0 -> b = 0 -> completion_status sc = "in_progress").
Proof.
  unfold completion_status. simpl.
  destruct (Nat.ltb_spec (a + b) c), (Nat.ltb_spec 0 a), (Nat.ltb_spec 0 b);
    repeat split; intros; try reflexivity; lia.
Qed.

(** C5.  The three scores are the numbers of matches of the patterns of
    each category in the texts joined by single spaces and lower-cased, the
    search ignoring case.  The
    status is completed when the completed score exceeds the sum of the other
    two, else abandoned when the abandoned score is positive, else blocked
    when the blocked score is positive, else in_progress; the confidence is
    the largest score divided by the sum of the scores plus one.  Scores
    (2, 0, 1) give completed, as they do for the three texts shown. *)
Theorem analyze_task_completion_spec (texts : list pystr) :
  let text := lower (join (u " ") texts) in
  let c := match_count "completed" completion_patterns text in
  let a := match_count "abandoned" completion_patterns text in
  let b := match_count "blocked" completion_patterns text in
  let r := analyze_task_completion texts in
  scores r = [("completed", c); ("abandoned", a); ("blocked", b)]
  /\ (a + b < c -> status r = "completed")
  /\ (c <= a + b -> 0 < a -> status r = "abandoned")
  /\ (c <= a + b -> a = 0 -> 0 < b -> status r = "blocked")
  /\ (c <= a + b -> a = 0 -> b = 0 -> status r = "in_progress")
  /\ confidence r
     == inject_Z (Z.of_nat (Nat.max c (Nat.max a b)))
        / inject_Z (Z.of_nat (c + a + b + 1))
  /\ completion_status [("completed", 2); ("abandoned", 0); ("blocked", 1)] = "completed"
  /\ (let ex := analyze_task_completion [u "all done"; u "the bug is fixed"; u "it was blocked"] in
      scores ex = [("completed", 2); ("abandoned", 0); ("blocked", 1)]
      /\ status ex = "completed").
Proof.
  intros text c a b r.
  assert (Hscores : score_table completion_patterns text
                    = [("completed", c); ("abandoned", a); ("blocked", b)]).
  { rewrite completion_scores_eq. reflexivity. }
  assert (Hsc : scores r = [("completed", c); ("abandoned", a); ("blocked", b)]).
  { subst r. unfold analyze_task_completion. cbn [scores].
    fold text. exact Hscores. }
  assert (Hst : status r = completion_status [("completed", c); ("abandoned", a); ("blocked", b)]).
  { subst r. unfold analyze_task_completion. cbn [status].
    fold text. rewrite Hscores. reflexivity. }
  destruct (completion_status_cases c a b) as (H1 & H2 & H3 & H4).
  split; [exact Hsc|].
  rewrite Hst.
  split; [exact H1|]. split; [exact H2|]. split; [exact H3|]. split; [exact H4|].
  split.
  { subst r. unfold analyze_task_completion. cbn [confidence].
    fold text. rewrite Hscores.
    unfold max_value, sum_values. cbn [map snd fold_right list_sum].
    replace (Nat.max c (Nat.max a (Nat.max b 0))) with (Nat.max c (Nat.max a b)) by lia.
    replace (c + (a + (b + 0)) + 1) with (c + a + b + 1) by lia.
    reflexivity. }
  split; [reflexivity|].
  vm_compute. split; reflexivity.
Qed.

End TaskCompletion.

(** ** parse_conversations: the recorded severity *)

Section Severity.

(** On the three labels the order of Python strings is high < low < medium. *)
Lemma severity_order :
  str_ltb (u "high") (u "low") = true
  /\ str_ltb (u "low") (u "medium") = true
  /\ str_ltb (u "high") (u "medium") = true.
Proof. vm_compute. repeat split. Qed.

Lemma mem_In s l : mem s l = true <-> In s l.
Proof.
  unfold mem. rewrite existsb_exists. split.
  - intros [x [Hx He]]. apply String.eqb_eq in He. subst. exact Hx.
  - intros H. exists s. split; [exact H|apply String.eqb_refl].
Qed.

Lemma failure_table_severities :
  forallb (fun entry => mem (fst (snd entry)) severity_labels) failure_patterns = true.
Proof. vm_compute. reflexivity. Qed.

Lemma detect_failures_labels (t : pystr) :
  Forall (fun s => In s severity_labels) (snd (detect_failures t)).
Proof.
  unfold detect_failures. cbn [snd].
  rewrite Forall_forall. intros s Hs.
  apply in_map_iff in Hs. destruct Hs as [e [<- He]].
  apply filter_In in He. destruct He as [He _].
  pose proof failure_table_severities as Ht. rewrite forallb_forall in Ht.
  apply mem_In. exact (Ht e He).
Qed.

Lemma max_by_severity (rest : list string) :
  forall first,
    In first severity_labels ->
    Forall (fun s => In s severity_labels) rest ->
    max_by (fun a b => str_ltb (u a) (u b)) first rest = expected_severity (first :: rest).
Proof.
  induction rest as [|x rest IH]; intros first Hf Hr.
  - simpl in Hf. destruct Hf as [<-|[<-|[<-|[]]]]; reflexivity.
  - inversion Hr as [|? ? Hx Hr']; subst. cbn [max_by].
    simpl in Hf, Hx.
    destruct Hf as [<-|[<-|[<-|[]]]], Hx as [<-|[<-|[<-|[]]]];
      match goal with
      | |- context [if str_ltb ?a ?b then _ else _] =>
        let v := eval vm_compute in (str_ltb a b) in
        change (str_ltb a b) with v; cbv iota
      end;
      (rewrite IH; [|simpl; tauto|exact Hr']);
      unfold expected_severity, mem; cbn [existsb];
      repeat match goal with
             | |- context [String.eqb ?a ?b] =>
               let v := eval vm_compute in (String.eqb a b) in
               change (String.eqb a b) with v
             end;
      cbn [orb];
      repeat (destruct (existsb _ rest)); reflexivity.
Qed.

Lemma max_severity_cases (sevs : list string) :
  Forall (fun s => In s severity_labels) sevs ->
  max_severity sevs = match sevs with
                      | [] => "none"
                      | _ :: _ => expected_severity sevs
                      end.
Proof.
  destruct sevs as [|first rest]; [reflexivity|].
  intros H. inversion H; subst. now apply max_by_severity.
Qed.

(** C10.  For a parsed message the recorded [max_failure_severity] is 'none'
    when no failure is detected (always so for a role other than assistant
    and bot); otherwise it is the greatest detected label in the order of
    Python strings, where high < low < medium: 'medium' as soon as one
    detected failure is of medium severity, 'low' when low but not medium
    occurs (so for the severities high and low), and 'high' only when every
    detected failure is of high severity. *)
Theorem max_failure_severity_spec
        (conv_id conv_name conv_created model : pystr) (idx : nat)
        (message : raw_message) (r : row) :
  parse_message conv_id conv_name conv_created model idx message = Some r ->
  let sevs := detected_severities message in
  (sevs = [] -> max_failure_severity r = u "none")
  /\ (role_in (message_role message) ["assistant"; "bot"] = false ->
      max_failure_severity r = u "none")
  /\ (In "medium" sevs -> max_failure_severity r = u "medium")
  /\ (~ In "medium" sevs -> In "low" sevs -> max_failure_severity r = u "low")
  /\ (sevs <> [] -> ~ In "medium" sevs -> ~ In "low" sevs ->
      max_failure_severity r = u "high")
  /\ (sevs <> [] -> exists s, In s sevs /\ max_failure_severity r = u s)
  /\ (forall s, In s sevs -> str_ltb (max_failure_severity r) (u s) = false).
Proof.
  intros Hparse sevs.
  assert (Hlab : Forall (fun s => In s severity_labels) sevs).
  { subst sevs. unfold detected_severities.
    destruct (role_in _ _); [apply detect_failures_labels|constructor]. }
  assert (Hr : max_failure_severity r = u (max_severity sevs)).
  { unfold parse_message in Hparse.
    destruct (is_nil (message_content message)
              || (length (strip (message_content message)) <? 3)); [discriminate|].
    subst sevs. unfold detected_severities.
    destruct (role_in (message_role message) ["assistant"; "bot"]).
    - destruct (detect_failures (message_content message)) as [fs ss].
      inversion Hparse. reflexivity.
    - inversion Hparse. reflexivity. }
  rewrite Hr, (max_severity_cases sevs Hlab).
  assert (Hexp : sevs <> [] ->
                 (In "medium" sevs -> expected_severity sevs = "medium")
                 /\ (~ In "medium" sevs -> In "low" sevs -> expected_severity sevs = "low")
                 /\ (~ In "medium" sevs -> ~ In "low" sevs ->
                     expected_severity sevs = "high" /\ In "high" sevs)).
  { intros Hne. unfold expected_severity.
    destruct (mem "medium" sevs) eqn:Em; [apply mem_In in Em|];
      [repeat split; intros; try reflexivity; tauto|].
    assert (~ In "medium" sevs) by (intros Hc; apply mem_In in Hc; congruence).
    destruct (mem "low" sevs) eqn:El; [apply mem_In in El|];
      [repeat split; intros; try reflexivity; tauto|].
    assert (~ In "low" sevs) by (intros Hc; apply mem_In in Hc; congruence).
    repeat split; intros; try reflexivity; try tauto.
    destruct sevs as [|s ss]; [congruence|].
    inversion Hlab as [|? ? Hs _]; subst. simpl in Hs.
    destruct Hs as [<-|[<-|[<-|[]]]]; [now left| |]; exfalso; simpl in *; tauto. }
  split.
  { intros ->. reflexivity. }
  split.
  { intros Hrole. subst sevs. unfold detected_severities. rewrite Hrole. reflexivity. }
  destruct sevs as [|s0 ss] eqn:Es.
  { repeat split; intros; simpl in *; tauto. }
  rewrite <- Es in *.
  assert (Hne : sevs <> []) by (rewrite Es; discriminate).
  destruct (Hexp Hne) as (Hmed & Hlow & Hhigh).
  replace (match sevs with [] => "none" | _ :: _ => expected_severity sevs end)
    with (expected_severity sevs) by (rewrite Es; reflexivity).
  split; [intros H; now rewrite (Hmed H)|].
  split; [intros H1 H2; now rewrite (Hlow H1 H2)|].
  split; [intros _ H1 H2; now rewrite (proj1 (Hhigh H1 H2))|].
  split.
  { intros _. destruct (in_dec string_dec "medium" sevs) as [Hm|Hm].
    - exists "medium". split; [exact Hm|now rewrite (Hmed Hm)].
    - destruct (in_dec string_dec "low" sevs) as [Hl|Hl].
      + exists "low". split; [exact Hl|now rewrite (Hlow Hm Hl)].
      + exists "high". destruct (Hhigh Hm Hl) as [E Hin]. split; [exact Hin|now rewrite E]. }
  intros s Hs.
  assert (Hs' : In s severity_labels).
  { rewrite Forall_forall in Hlab. now apply Hlab. }
  destruct (in_dec string_dec "medium" sevs) as [Hm|Hm].
  { rewrite (Hmed Hm). simpl in Hs'. destruct Hs' as [<-|[<-|[<-|[]]]]; reflexivity. }
  destruct (in_dec string_dec "low" sevs) as [Hl|Hl].
  { rewrite (Hlow Hm Hl). simpl in Hs'.
    destruct Hs' as [<-|[<-|[<-|[]]]]; try reflexivity. contradiction. }
  rewrite (proj1 (Hhigh Hm Hl)). simpl in Hs'.
  destruct Hs' as [<-|[<-|[<-|[]]]]; try reflexivity; contradiction.
Qed.

End Severity.

Section SeverityExample.

Lemma max_failure_severity_witness :
  parse_message (u "c1") (u "Untitled") (u "2024-01-01T00:00:00Z") (u "unknown")
                0 high_low_message = Some high_low_row
  /\ detected_severities high_low_message = ["high"; "low"]
  /\ max_failure_severity high_low_row = u "low".
Proof.
  assert (H : parse_message (u "c1") (u "Untitled") (u "2024-01-01T00:00:00Z")
                            (u "unknown") 0 high_low_message = Some high_low_row)
    by (vm_compute; reflexivity).
  split; [exact H|]. split; [vm_compute; reflexivity|].
  destruct (max_failure_severity_spec _ _ _ _ _ _ _ H) as (_ & _ & _ & Hlow & _).
  apply Hlow.
  - vm_compute. intros [E|[E|[]]]; discriminate E.
  - vm_compute. right. left. reflexivity.
Defined.

End SeverityExample.

(** ** generate_statistics *)

Section Statistics.

Lemma truediv_zero (a : Z) : truediv a 0 = Raise ZeroDivisionError.
Proof. reflexivity. Qed.

(** Whenever the frame holds no assistant message no statistics are
    returned. *)
Lemma generate_statistics_no_assistant (df : list row) :
  with_role ["assistant"; "bot"] df = [] ->
  generate_statistics df = Raise KeyError
  \/ generate_statistics df = Raise ZeroDivisionError.
Proof.
  intros H. destruct df as [|r df]; [left; reflexivity|right].
  unfold generate_statistics. rewrite H. reflexivity.
Qed.

(** C1 (the code at the failing input).  The corpus above parses to one row,
    of role human; computing its statistics divides by the number of
    assistant messages, which is zero, and raises ZeroDivisionError: no
    structure with a zero failure rate is returned. *)
Theorem generate_statistics_user_only :
  length (parse_conversations user_only_corpus) = 1
  /\ with_role ["assistant"; "bot"] (parse_conversations user_only_corpus) = []
  /\ generate_statistics (parse_conversations user_only_corpus) = Raise ZeroDivisionError
  /\ generate_statistics [] = Raise KeyError.
Proof. vm_compute. repeat split. Qed.

End Statistics.

(** ** analyze_collaboration_quality *)

Section Collaboration.

Import Quality.

Lemma bump_keys k sc : map fst (bump k sc) = map fst sc.
Proof.
  unfold bump. rewrite map_map. apply map_ext.
  intros [a b]. simpl. destruct (String.eqb a k); reflexivity.
Qed.

Lemma get_bump q k sc :
  In q (map fst sc) ->
  get q (bump k sc) = if String.eqb k q then S (get q sc) else get q sc.
Proof.
  induction sc as [|[k' v'] sc IH]; simpl; intros Hin; [contradiction|].
  destruct (String.eqb_spec k' q) as [->|Hne].
  - destruct (String.eqb_spec q k) as [->|Hqk]; simpl.
    + now rewrite !String.eqb_refl.
    + rewrite String.eqb_refl.
      destruct (String.eqb_spec k q); [congruence|reflexivity].
  - destruct Hin as [Heq|Hin]; [congruence|].
    destruct (String.eqb k' k); simpl;
      (destruct (String.eqb_spec k' q); [congruence|]); now apply IH.
Qed.

Lemma inner_loop_keys text k ps : forall sc,
  map fst (fold_left (fun sc' pattern =>
                        if Re.search true pattern text then bump k sc' else sc') ps sc)
  = map fst sc.
Proof.
  induction ps as [|p ps IH]; intros sc; simpl; [reflexivity|].
  rewrite IH. destruct (Re.search true p text); [apply bump_keys|reflexivity].
Qed.

Lemma inner_loop_get text q k ps : forall sc,
  In q (map fst sc) ->
  get q (fold_left (fun sc' pattern =>
                      if Re.search true pattern text then bump k sc' else sc') ps sc)
  = get q sc + (if String.eqb k q then matching_patterns ps text else 0).
Proof.
  unfold matching_patterns.
  induction ps as [|p ps IH]; intros sc Hin; simpl.
  - destruct (String.eqb k q); lia.
  - destruct (Re.search true p text) eqn:Es.
    + rewrite IH by (rewrite bump_keys; exact Hin).
      rewrite get_bump by exact Hin.
      destruct (String.eqb k q); simpl; lia.
    + now apply IH.
Qed.

Lemma outer_loop text q table : forall sc,
  In q (map fst sc) ->
  let sc' := fold_left
               (fun sc entry =>
                  fold_left (fun sc' pattern =>
                               if Re.search true pattern text then bump (fst entry) sc'
                               else sc')
                            (snd entry) sc)
               table sc in
  map fst sc' = map fst sc /\ get q sc' = get q sc + increments q table text.
Proof.
  unfold increments.
  induction table as [|e table IH]; intros sc Hin; simpl.
  - split; [reflexivity|lia].
  - destruct (IH (fold_left (fun sc' pattern =>
                               if Re.search true pattern text then bump (fst e) sc' else sc')
                            (snd e) sc)) as [Hk Hg].
    { rewrite inner_loop_keys. exact Hin. }
    split.
    + rewrite Hk. apply inner_loop_keys.
    + rewrite Hg, inner_loop_get by exact Hin. lia.
Qed.

Lemma increments_entry q ps text :
  In (q, ps) collaboration_patterns ->
  increments q collaboration_patterns text = matching_patterns ps text.
Proof.
  intros Hin. unfold increments, collaboration_patterns in *.
  cbn [In] in Hin.
  destruct Hin as [E|[E|[E|[E|[]]]]]; inversion E; subst; cbn [map fst snd list_sum];
    repeat match goal with
           | |- context [String.eqb ?a ?b] =>
             let v := eval vm_compute in (String.eqb a b) in
             change (String.eqb a b) with v
           end; cbv iota; unfold list_sum; cbn [fold_right]; lia.
Qed.

Lemma collaboration_scores_get q (messages : list message) : forall sc,
  In q (map fst sc) ->
  let sc' := fold_left (fun sc msg => score_message (message_text msg) sc) messages sc in
  map fst sc' = map fst sc
  /\ get q sc'
     = get q sc
       + list_sum (map (fun msg => increments q collaboration_patterns (message_text msg))
                       messages).
Proof.
  induction messages as [|m messages IH]; intros sc Hin; simpl.
  - split; [reflexivity|lia].
  - destruct (outer_loop (message_text m) q collaboration_patterns sc Hin) as [Hk Hg].
    fold (score_message (message_text m) sc) in Hk, Hg.
    destruct (IH (score_message (message_text m) sc)) as [Hk' Hg'].
    { rewrite Hk. exact Hin. }
    split; [now rewrite Hk'|]. rewrite Hg', Hg. lia.
Qed.

Lemma collaboration_decision_cases (sc : list (string * nat)) :
  (2 < get "confrontational" sc -> collaboration_decision sc = "confrontational")
  /\ (get "confrontational" sc <= 2 ->
      get "medium" sc + get "low" sc < get "high" sc ->
      collaboration_decision sc = "high")
  /\ (get "confrontational" sc <= 2 ->
      get "high" sc <= get "medium" sc + get "low" sc ->
      get "high" sc < get "low" sc ->
      collaboration_decision sc = "low")
  /\ (get "confrontational" sc <= 2 ->
      get "high" sc <= get "medium" sc + get "low" sc ->
      get "low" sc <= get "high" sc ->
      collaboration_decision sc = "medium").
Proof.
  unfold collaboration_decision.
  destruct (Nat.ltb_spec 2 (get "confrontational" sc)),
           (Nat.ltb_spec (get "medium" sc + get "low" sc) (get "high" sc)),
           (Nat.ltb_spec (get "high" sc) (get "low" sc));
    repeat split; intros; try reflexivity; lia.
Qed.

(** C2 (as amended).  The score of a category is the number of pairs of a
    message and a pattern of the category such that the pattern is found in
    the lower-cased content of the message, the search ignoring case: one
    message adds as many increments as it matches patterns of the
    category.  On these scores the answer is confrontational when the
    confrontational score exceeds 2, else high when the high score exceeds
    medium plus low, else low when low exceeds high, else medium; scores
    confrontational = 3 and high = 5 give confrontational. *)
Theorem analyze_collaboration_quality_spec (messages : list message) :
  let sc := collaboration_scores messages in
  let r := analyze_collaboration_quality messages in
  (forall q ps, In (q, ps) collaboration_patterns ->
     get q sc
     = list_sum (map (fun msg => matching_patterns ps (message_text msg)) messages))
  /\ (2 < get "confrontational" sc -> r = "confrontational")
  /\ (get "confrontational" sc <= 2 ->
      get "medium" sc + get "low" sc < get "high" sc -> r = "high")
  /\ (get "confrontational" sc <= 2 ->
      get "high" sc <= get "medium" sc + get "low" sc ->
      get "high" sc < get "low" sc -> r = "low")
  /\ (get "confrontational" sc <= 2 ->
      get "high" sc <= get "medium" sc + get "low" sc ->
      get "low" sc <= get "high" sc -> r = "medium")
  /\ (forall sc', get "confrontational" sc' = 3 -> get "high" sc' = 5 ->
                  collaboration_decision sc' = "confrontational").
Proof.
  intros sc r. split.
  - intros q ps Hin.
    subst sc. unfold collaboration_scores.
    set (init := map (fun entry : string * list string => (fst entry, 0))
                     collaboration_patterns).
    assert (Hq : In q (map fst init)).
    { unfold init. rewrite map_map. cbn [fst].
      change q with (fst (q, ps)). apply in_map. exact Hin. }
    destruct (collaboration_scores_get q messages init Hq) as [_ Hg].
    unfold message_text in Hg at 1. rewrite Hg.
    assert (H0 : get q init = 0).
    { unfold init, collaboration_patterns in *. cbn [In] in Hin.
      destruct Hin as [E|[E|[E|[E|[]]]]]; inversion E; reflexivity. }
    rewrite H0. simpl. f_equal. apply map_ext. intros msg.
    apply increments_entry. exact Hin.
  - destruct (collaboration_decision_cases sc) as (H1 & H2 & H3 & H4).
    subst r. unfold analyze_collaboration_quality. fold sc.
    split; [exact H1|]. split; [exact H2|]. split; [exact H3|]. split; [exact H4|].
    intros sc' Hc Hh. apply (proj1 (collaboration_decision_cases sc')). lia.
Qed.

(** C2 (counterexample to the claim as stated).  One message raises the
    confrontational score by two, where counting messages gives one; two
    such messages are answered confrontational, where counting messages
    gives medium. *)
Lemma collaboration_counts_patterns :
  get "confrontational" (collaboration_scores [blunt_message]) = 2
  /\ get "confrontational" (spec_collaboration_scores [blunt_message]) = 1
  /\ analyze_collaboration_quality [blunt_message; blunt_message] = "confrontational"
  /\ spec_collaboration_quality [blunt_message; blunt_message] = "medium".
Proof. vm_compute. repeat split. Qed.

End Collaboration.

(** ** redact_pii *)

Section Redaction.

Lemma is_nil_true {A} (l : list A) : is_nil l = true -> l = [].
Proof. destruct l; [reflexivity|discriminate]. Qed.

Lemma apply_rule_no_match ic mk rule st :
  Re.finditer ic (snd rule) (fst st) = [] -> apply_rule ic mk rule st = st.
Proof.
  destruct rule as [type pattern]. unfold apply_rule. cbn [snd].
  intros ->. reflexivity.
Qed.

Lemma rules_no_match ic (mk : string -> pystr -> pystr) (table : list (string * string)) st :
  forallb (fun rule => is_nil (Re.finditer ic (snd rule) (fst st))) table = true ->
  fold_left (fun st rule => apply_rule ic (mk (fst rule)) rule st) table st = st.
Proof.
  induction table as [|rule table IH]; intros H; [reflexivity|].
  cbn [forallb] in H. apply andb_true_iff in H. destruct H as [H1 H2].
  cbn [fold_left]. rewrite apply_rule_no_match by (apply is_nil_true; exact H1).
  apply IH. exact H2.
Qed.

(** A text without any match is returned as it is, with no label. *)
Lemma redact_pii_unchanged (text : pystr) :
  residual_free text = true -> redact_pii true text = (text, []).
Proof.
  unfold residual_free, redact_pii. intros H.
  apply andb_true_iff in H. destruct H as [H1 H2]. cbn [negb].
  rewrite (rules_no_match true pii_token privacy_patterns (text, [])) by exact H1.
  rewrite (rules_no_match false entity_token sensitive_entities (text, [])) by exact H2.
  reflexivity.
Qed.

(** C3 (counterexample to the claim as stated).  The address rule finds
    1.2.3.4 and 2.3.45.6; replacing every occurrence of the first destroys
    the second and leaves 5.6.7.8, which a second redaction replaces. *)
Lemma redact_pii_not_idempotent :
  Re.finditer true "\b(?:\d{1,3}\.){3}\d{1,3}\b" overlapping_addresses
  = [u "1.2.3.4"; u "2.3.45.6"]
  /\ fst (redact_pii true overlapping_addresses)
     = u "[IP_ADDRESS_REDACTED] a[IP_ADDRESS_REDACTED]5.6.7.8"
  /\ fst (redact_pii true (fst (redact_pii true overlapping_addresses)))
     = u "[IP_ADDRESS_REDACTED] a[IP_ADDRESS_REDACTED][IP_ADDRESS_REDACTED]"
  /\ fst (redact_pii true (fst (redact_pii true overlapping_addresses)))
     <> fst (redact_pii true overlapping_addresses).
Proof.
  split; [vm_compute; reflexivity|].
  split; [vm_compute; reflexivity|].
  split; [vm_compute; reflexivity|].
  vm_compute. intros E. discriminate E.
Qed.

End Redaction.

(** ** identify_conversation_streaks *)

Section Streaks.

Import Temporal.

(** *** The sorted distinct dates *)

Lemma insert_uniq_in d x l : In x (insert_uniq d l) <-> x = d \/ In x l.
Proof.
  induction l as [|y l IH]; simpl.
  - intuition.
  - destruct (Z.ltb_spec d y); simpl; [intuition|].
    destruct (Z.eqb_spec d y); simpl.
    + subst. intuition.
    + rewrite IH. intuition.
Qed.

Lemma insert_uniq_sorted d l :
  StronglySorted Z.lt l -> StronglySorted Z.lt (insert_uniq d l).
Proof.
  induction l as [|y l IH]; simpl; intros Hs.
  - repeat constructor.
  - inversion Hs as [|? ? Hl Hy]; subst.
    destruct (Z.ltb_spec d y).
    + constructor; [exact Hs|]. constructor; [assumption|].
      rewrite Forall_forall in *. intros z Hz. specialize (Hy z Hz). lia.
    + destruct (Z.eqb_spec d y); [exact Hs|].
      constructor; [now apply IH|].
      rewrite Forall_forall in *. intros z Hz.
      apply insert_uniq_in in Hz. destruct Hz as [->|Hz]; [lia|now apply Hy].
Qed.

Lemma dropna_in {A} (x : A) l : In x (dropna l) <-> In (Some x) l.
Proof.
  induction l as [|[y|] l IH]; simpl.
  - tauto.
  - rewrite IH. split; intros [H|H]; auto; left; congruence.
  - rewrite IH. split; [auto|]. intros [H|H]; [discriminate|exact H].
Qed.

Lemma active_dates_sorted df : StronglySorted Z.lt (active_dates df).
Proof.
  unfold active_dates. induction (dropna (map date df)) as [|d l IH]; simpl.
  - constructor.
  - now apply insert_uniq_sorted.
Qed.

Lemma active_dates_in df d :
  In d (active_dates df) <-> exists r, In r df /\ date r = Some d.
Proof.
  unfold active_dates.
  assert (H : forall l, In d (fold_right insert_uniq [] l) <-> In d l).
  { induction l as [|x l IH]; simpl; [tauto|].
    rewrite insert_uniq_in, IH. intuition. }
  rewrite H, dropna_in, in_map_iff. split; intros [r [H1 H2]]; exists r; tauto.
Qed.

(** *** Maximal runs of consecutive dates *)

Lemma consecutive_snoc r d :
  r <> [] -> consecutive r -> d = (last r 0 + 1)%Z -> consecutive (r ++ [d]).
Proof.
  induction r as [|x r IH]; intros Hne Hc Hd; [congruence|].
  destruct r as [|y r].
  - simpl in *. split; [exact Hd|exact I].
  - destruct Hc as [Hy Hc]. change ((x :: y :: r) ++ [d]) with (x :: ((y :: r) ++ [d])).
    change (consecutive (x :: (y :: r ++ [d]))) with
      (y = (x + 1)%Z /\ consecutive ((y :: r) ++ [d])).
    split; [exact Hy|]. apply IH; [discriminate|exact Hc|exact Hd].
Qed.

Lemma hd_app_nonempty (r : list Z) d : r <> [] -> hd 0%Z (r ++ [d]) = hd 0%Z r.
Proof. destruct r; [congruence|reflexivity]. Qed.

Lemma group_runs_partition dates : forall prev current,
  current <> [] -> last current 0%Z = prev -> consecutive current ->
  concat (group_runs prev dates current) = current ++ dates
  /\ Forall (fun r => r <> [] /\ consecutive r) (group_runs prev dates current)
  /\ separated (group_runs prev dates current)
  /\ hd 0%Z (hd [] (group_runs prev dates current)) = hd 0%Z current
  /\ group_runs prev dates current <> [].
Proof.
  induction dates as [|d rest IH]; intros prev current Hne Hlast Hc; cbn [group_runs].
  - cbn [concat]. rewrite !app_nil_r.
    repeat split; try exact I; try discriminate.
    constructor; [split; assumption|constructor].
  - destruct (Z.eqb_spec (d - prev) 1) as [E|E].
    + destruct (IH d (current ++ [d])) as (H1 & H2 & H3 & H4 & H5).
      * destruct current; discriminate.
      * apply last_last.
      * apply consecutive_snoc; [exact Hne|exact Hc|lia].
      * split; [rewrite H1, <- app_assoc; reflexivity|].
        split; [exact H2|]. split; [exact H3|].
        split; [rewrite H4; now apply hd_app_nonempty|exact H5].
    + destruct (IH d [d]) as (H1 & H2 & H3 & H4 & H5);
        [discriminate|reflexivity|exact I|].
      split; [cbn [concat]; rewrite H1; reflexivity|].
      split; [constructor; [split; assumption|exact H2]|].
      split; [|split; [reflexivity|discriminate]].
      destruct (group_runs d rest [d]) as [|r2 rs'] eqn:Eg; [congruence|].
      cbn [separated]. split; [|exact H3].
      cbn [hd] in H4. rewrite H4. cbn [hd]. lia.
Qed.

(** *** The loop computes the runs that are long enough *)

Lemma streak_loop_runs df min_days dates : forall prev current streaks,
  streak_loop df min_days prev dates current streaks
  = streaks ++ map (streak_of df)
                   (filter (long_enough min_days) (group_runs prev dates current)).
Proof.
  induction dates as [|d rest IH]; intros prev current streaks;
    cbn [streak_loop group_runs].
  - unfold close_streak. cbn [filter]. unfold long_enough.
    destruct (min_days <=? Z.of_nat (length current))%Z; cbn [map];
      [reflexivity|now rewrite app_nil_r].
  - destruct (d - prev =? 1)%Z.
    + apply IH.
    + rewrite IH. unfold close_streak. cbn [filter]. unfold long_enough at 2.
      destruct (min_days <=? Z.of_nat (length current))%Z; cbn [map];
        [now rewrite <- app_assoc|reflexivity].
Qed.

(** *** The final sort *)

Lemma insert_desc_perm x l : Permutation (x :: l) (insert_desc x l).
Proof.
  induction l as [|y l IH]; simpl; [apply Permutation_refl|].
  destruct (length_days x <? length_days y); [|apply Permutation_refl].
  eapply Permutation_trans; [apply perm_swap|]. now apply perm_skip.
Qed.

Lemma sort_desc_perm l : Permutation l (sort_desc l).
Proof.
  induction l as [|x l IH]; simpl; [constructor|].
  eapply Permutation_trans; [apply perm_skip; exact IH|apply insert_desc_perm].
Qed.

Lemma insert_desc_sorted x l :
  StronglySorted longer_first l -> StronglySorted longer_first (insert_desc x l).
Proof.
  induction l as [|y l IH]; simpl; intros Hs.
  - repeat constructor.
  - inversion Hs as [|? ? Hl Hy]; subst.
    destruct (Nat.ltb_spec (length_days x) (length_days y)).
    + constructor; [now apply IH|].
      rewrite Forall_forall in *. intros z Hz.
      apply (Permutation_in _ (Permutation_sym (insert_desc_perm x l))) in Hz.
      destruct Hz as [<-|Hz]; [unfold longer_first; lia|now apply Hy].
    + constructor; [exact Hs|]. constructor; [exact H|].
      rewrite Forall_forall in *. intros z Hz. specialize (Hy z Hz).
      unfold longer_first in *. lia.
Qed.

Lemma sort_desc_sorted l : StronglySorted longer_first (sort_desc l).
Proof.
  induction l as [|x l IH]; simpl; [constructor|now apply insert_desc_sorted].
Qed.

Lemma run_length_le (r : list Z) rs : In r rs -> length r <= length (concat rs).
Proof.
  induction rs as [|r' rs IH]; simpl; intros H; [contradiction|].
  rewrite length_app. destruct H as [->|H]; [lia|]. specialize (IH H). lia.
Qed.

End Streaks.

Section StreaksMain.

Import Temporal.

Lemma filter_none {A} (f : A -> bool) (l : list A) :
  (forall x, In x l -> f x = false) -> filter f l = [].
Proof.
  induction l as [|x l IH]; intros H; [reflexivity|]. simpl.
  rewrite (H x (or_introl eq_refl)). apply IH. intros y Hy. apply H. now right.
Qed.

Lemma streak_example (D : Z) (df : list row) :
  active_dates df = example_dates D ->
  identify_conversation_streaks df 3
  = Ok [ {| start_date := D + 4; end_date := D + 7; length_days := 4;
            message_count := messages_between df (D + 4) (D + 7) |};
         {| start_date := D; end_date := D + 2; length_days := 3;
            message_count := messages_between df D (D + 2) |} ]%Z.
Proof.
  intros H. unfold identify_conversation_streaks. rewrite H. unfold example_dates.
  cbn [length Z.of_nat Z.ltb Z.compare Pos.of_succ_nat Pos.succ Pos.compare Pos.compare_cont].
  cbn [streak_loop].
  repeat match goal with
         | |- context [(?a =? 1)%Z] =>
           destruct (Z.eqb_spec a 1); try (exfalso; lia)
         end.
  cbn [streak_loop app close_streak]. unfold close_streak.
  cbn [length app Z.of_nat Z.leb Z.compare Pos.of_succ_nat Pos.succ Pos.compare
       Pos.compare_cont].
  reflexivity.
Qed.

(** C6.  The active dates are the distinct dates of the messages in
    ascending order.  They are cut into maximal runs of consecutive days;
    the streaks returned are exactly the runs of at least [min_days] days,
    each with its first and last date, its length and the number of messages
    dated between these two dates inclusive, the longest first.  For the
    dates D, D+1, D+2, D+4, D+5, D+6, D+7 and a minimum of 3 days the result
    is the streak from D+4 to D+7 followed by the streak from D to D+2. *)
Theorem identify_conversation_streaks_spec (df : list row) (min_days : Z) :
  (0 < min_days)%Z \/ active_dates df <> [] ->
  StronglySorted Z.lt (active_dates df)
  /\ (forall d, In d (active_dates df) <-> exists r, In r df /\ date r = Some d)
  /\ (exists runs out,
        run_partition (active_dates df) runs
        /\ identify_conversation_streaks df min_days = Ok out
        /\ Permutation out (map (streak_of df) (filter (long_enough min_days) runs))
        /\ StronglySorted longer_first out
        /\ (forall s, In s out ->
              exists r, In r runs
                        /\ (min_days <= Z.of_nat (length r))%Z
                        /\ start_date s = hd 0%Z r
                        /\ end_date s = last r 0%Z
                        /\ length_days s = length r
                        /\ message_count s
                           = length (filter (fun m => match date m with
                                                      | Some d => (hd 0 r <=? d)%Z
                                                                  && (d <=? last r 0)%Z
                                                      | None => false
                                                      end) df)))
  /\ (forall D df', active_dates df' = example_dates D ->
        identify_conversation_streaks df' 3
        = Ok [ {| start_date := D + 4; end_date := D + 7; length_days := 4;
                  message_count := messages_between df' (D + 4) (D + 7) |};
               {| start_date := D; end_date := D + 2; length_days := 3;
                  message_count := messages_between df' D (D + 2) |} ]%Z).
Proof.
  intros Hdom.
  split; [apply active_dates_sorted|].
  split; [apply active_dates_in|].
  split; [|intros D df'; apply streak_example].
  assert (Hfields : forall runs out,
            Permutation out (map (streak_of df) (filter (long_enough min_days) runs)) ->
            forall s, In s out ->
              exists r, In r runs
                        /\ (min_days <= Z.of_nat (length r))%Z
                        /\ start_date s = hd 0%Z r
                        /\ end_date s = last r 0%Z
                        /\ length_days s = length r
                        /\ message_count s
                           = length (filter (fun m => match date m with
                                                      | Some d => (hd 0 r <=? d)%Z
                                                                  && (d <=? last r 0)%Z
                                                      | None => false
                                                      end) df)).
  { intros runs out Hp s Hs.
    apply (Permutation_in _ Hp) in Hs. apply in_map_iff in Hs.
    destruct Hs as [r [<- Hr]]. apply filter_In in Hr. destruct Hr as [Hr Hlong].
    exists r. split; [exact Hr|]. split; [now apply Z.leb_le|].
    repeat split. }
  unfold identify_conversation_streaks.
  destruct (active_dates df) as [|first rest] eqn:Edates.
  - exists [], []. split; [repeat split; constructor|].
    assert (Hm : (0 < min_days)%Z) by (destruct Hdom as [H|H]; [exact H|congruence]).
    cbn [length Z.of_nat]. destruct (Z.ltb_spec 0 min_days); [|lia].
    split; [reflexivity|]. split; [constructor|]. split; [constructor|].
    intros s [].
  - destruct (group_runs_partition rest first [first]) as (H1 & H2 & H3 & _ & _);
      [discriminate|reflexivity|exact I|].
    exists (group_runs first rest [first]).
    destruct (Z.ltb_spec (Z.of_nat (length (first :: rest))) min_days) as [Hshort|Hlong].
    + exists []. split; [repeat split; assumption|]. split; [reflexivity|].
      assert (Hnone : filter (long_enough min_days) (group_runs first rest [first]) = []).
      { apply filter_none. intros r Hr. unfold long_enough. apply Z.leb_gt.
        pose proof (run_length_le r _ Hr) as Hle. rewrite H1 in Hle.
        change ([first] ++ rest) with (first :: rest) in Hle. lia. }
      rewrite Hnone. split; [constructor|]. split; [constructor|]. intros s [].
    + exists (sort_desc (streak_loop df min_days first rest [first] [])).
      split; [repeat split; assumption|]. split; [reflexivity|].
      assert (Hp : Permutation (sort_desc (streak_loop df min_days first rest [first] []))
                     (map (streak_of df)
                          (filter (long_enough min_days) (group_runs first rest [first])))).
      { rewrite streak_loop_runs. cbn [app]. apply Permutation_sym, sort_desc_perm. }
      split; [exact Hp|]. split; [apply sort_desc_sorted|].
      apply Hfields. exact Hp.
Qed.

Lemma identify_conversation_streaks_witness :
  ((0 < 3)%Z \/ active_dates week_frame <> [])
  /\ active_dates week_frame = example_dates 0
  /\ identify_conversation_streaks week_frame 3
     = Ok [ {| start_date := 4; end_date := 7; length_days := 4; message_count := 5 |};
            {| start_date := 0; end_date := 2; length_days := 3; message_count := 3 |} ]%Z.
Proof.
  assert (H : (0 < 3)%Z \/ active_dates week_frame <> []) by (left; reflexivity).
  split; [exact H|]. split; [vm_compute; reflexivity|].
  destruct (identify_conversation_streaks_spec week_frame 3 H) as (_ & _ & _ & Hex).
  rewrite (Hex 0%Z week_frame); [|vm_compute; reflexivity].
  vm_compute. reflexivity.
Defined.

End StreaksMain.

(** ** detect_pattern_changes *)

Section PatternChanges.

Import Temporal.

(** *** Sorting by timestamp *)



Lemma insert_row_perm r l : Permutation (r :: l) (insert_row r l).
Proof.
  induction l as [|y l IH]; simpl; [apply Permutation_refl|].
  destruct (ts_le (timestamp r) (timestamp y)); [apply Permutation_refl|].
  eapply Permutation_trans; [apply perm_swap|]. now apply perm_skip.
Qed.

Lemma sort_values_perm df : Permutation (sort_values df) df.
Proof.
  induction df as [|r df IH]; simpl; [constructor|].
  eapply Permutation_trans; [apply Permutation_sym, insert_row_perm|].
  now apply perm_skip.
Qed.



(** *** The moving average *)


Lemma last_n_snoc (w : nat) (pre : list Z) (x : Z) :
  last_n w (last_n w pre ++ [x]) = last_n w (pre ++ [x]).
Proof.
  unfold last_n. rewrite !length_app, length_skipn. cbn [length].
  rewrite !skipn_app, skipn_skipn, length_skipn.
  destruct (Nat.le_gt_cases w (length pre)).
  - replace (length pre - (length pre - w) + 1 - w + (length pre - w))
      with (length pre + 1 - w) by lia.
    replace (length pre - (length pre - w) + 1 - w - (length pre - (length pre - w)))
      with (length pre + 1 - w - length pre) by lia.
    reflexivity.
  - replace (length pre - (length pre - w) + 1 - w + (length pre - w))
      with (length pre + 1 - w) by lia.
    replace (length pre - (length pre - w) + 1 - w - (length pre - (length pre - w)))
      with (length pre + 1 - w - length pre) by lia.
    reflexivity.
Qed.

Lemma window_at w (pre : list Z) x xs :
  window w (pre ++ x :: xs) (length pre) = last_n w (pre ++ [x]).
Proof.
  unfold window, last_n.
  replace (firstn (S (length pre)) (pre ++ x :: xs)) with (pre ++ [x]).
  - rewrite length_app. cbn [length]. f_equal. lia.
  - rewrite firstn_app. replace (S (length pre) - length pre) with 1 by lia.
    rewrite firstn_all2 by lia. reflexivity.
Qed.

Lemma rolling_mean_window w xs : forall pre,
  rolling_mean w (last_n w pre) xs
  = map (fun i => zmean (window w (pre ++ xs) i)) (seq (length pre) (length xs)).
Proof.
  induction xs as [|x xs IH]; intros pre; [reflexivity|].
  cbn [rolling_mean length seq map].
  rewrite last_n_snoc, window_at. f_equal.
  rewrite (IH (pre ++ [x])), length_app, <- app_assoc. cbn [length app].
  replace (length pre + 1) with (S (length pre)) by lia. reflexivity.
Qed.

(** *** The change events *)

Lemma collect_changes_at (ma : nat -> Q) (rows : list row) : forall k pre,
  length pre = S k ->
  collect_changes rows (map ma (seq (S k) (length rows)))
                  (diff_abs (Some (ma k)) (map ma (seq (S k) (length rows))))
  = flat_map (change_at (pre ++ rows) ma) (seq (S k) (length rows)).
Proof.
  induction rows as [|r rows IH]; intros k pre Hpre; [reflexivity|].
  cbn [length seq map diff_abs collect_changes flat_map].
  rewrite (IH (S k) (pre ++ [r])) by (rewrite length_app; cbn [length]; lia).
  rewrite <- app_assoc. cbn [app]. f_equal.
  unfold change_at. rewrite nth_error_app2 by lia.
  replace (S k - length pre) with 0 by lia. cbn [nth_error].
  replace (S k - 1) with k by lia. reflexivity.
Qed.




End PatternChanges.

Section PatternChangesExample.

Import Temporal.

(** After one positive message a negative one brings the moving average
    from 1 down to 0: a change of magnitude 1 is recorded, with direction
    negative since the average is not above zero. *)
Example detect_pattern_changes_mood :
  detect_pattern_changes mood_frame
  = [{| change_timestamp := Some 200%Z; change_type := "sentiment_shift";
        magnitude := Qabs (zmean [1; -1]%Z - zmean [1]%Z);
        direction := "negative" |}]
  /\ Qabs (zmean [1; -1]%Z - zmean [1]%Z) == 1.
Proof. split; [vm_compute; reflexivity|vm_compute; reflexivity]. Qed.

End PatternChangesExample.

(** ** calculate_engagement_score *)

Section Engagement.

Import Temporal.

Lemma nat_max_ge (l : list nat) x : In x l -> x <= nat_max l.
Proof.
  induction l as [|y l IH]; simpl; intros H; [contradiction|].
  destruct H as [->|H]; [lia|]. specialize (IH H). lia.
Qed.

Lemma q_max_nonneg (l : list Q) : (0 <= q_max l)%Q.
Proof.
  induction l as [|y l IH]; simpl; [apply Qle_refl|].
  destruct (Qle_bool (q_max l) y) eqn:E; [|exact IH].
  apply Qle_bool_iff in E. eapply Qle_trans; eassumption.
Qed.

Lemma q_max_ge (l : list Q) x : In x l -> (x <= q_max l)%Q.
Proof.
  induction l as [|y l IH]; simpl; intros H; [contradiction|].
  destruct (Qle_bool (q_max l) y) eqn:E.
  - apply Qle_bool_iff in E. destruct H as [->|H]; [apply Qle_refl|].
    eapply Qle_trans; [now apply IH|exact E].
  - assert (Hlt : (y < q_max l)%Q).
    { apply Qnot_le_lt. intros Hc. apply Qle_bool_iff in Hc. congruence. }
    destruct H as [->|H]; [now apply Qlt_le_weak|now apply IH].
Qed.

Lemma dedup_grows (xs : list pystr) : forall acc,
  length acc
  <= length (fold_left (fun acc x => if existsb (str_eqb x) acc then acc else acc ++ [x])
                       xs acc).
Proof.
  induction xs as [|x xs IH]; intros acc; simpl; [lia|].
  destruct (existsb (str_eqb x) acc); [apply IH|].
  eapply Nat.le_trans; [|apply IH]. rewrite length_app. simpl. lia.
Qed.

Lemma nunique_pos (xs : list pystr) : xs <> [] -> 1 <= nunique xs.
Proof.
  destruct xs as [|x xs]; [congruence|]. intros _.
  unfold nunique, dedup. cbn [fold_left existsb app].
  apply (dedup_grows xs [x]).
Qed.

Lemma list_sum_ge (l : list nat) :
  Forall (fun n => 1 <= n) l -> length l <= list_sum l.
Proof.
  induction 1 as [|n l Hn _ IH]; simpl; lia.
Qed.

Lemma qnat_pos n : 1 <= n -> (0 < qnat n)%Q.
Proof.
  intros H. unfold qnat, Qlt. simpl. lia.
Qed.

Lemma qnat_le a b : a <= b -> (qnat a <= qnat b)%Q.
Proof.
  intros H. unfold qnat, Qle. simpl. lia.
Qed.

Lemma mean_pos (l : list nat) :
  l <> [] -> Forall (fun n => 1 <= n) l -> (0 < mean l)%Q.
Proof.
  intros Hne Hall. unfold mean.
  apply Qlt_shift_div_l.
  - apply (qnat_pos (length l)). destruct l; [congruence|simpl; lia].
  - rewrite Qmult_0_l. apply (qnat_pos (list_sum l)).
    pose proof (list_sum_ge l Hall). destruct l; [congruence|simpl in *; lia].
Qed.

Lemma on_day_nonempty df d : In d (active_dates df) -> on_day df d <> [].
Proof.
  intros H. apply active_dates_in in H. destruct H as [r [Hr Hd]].
  assert (Hin : In r (on_day df d)).
  { unfold on_day. apply filter_In. split; [exact Hr|].
    rewrite Hd. apply Z.eqb_refl. }
  intros E. rewrite E in Hin. contradiction.
Qed.

Lemma ratio_bounds (a b : Q) :
  (0 <= a -> a <= b -> 0 < b -> 0 <= a / b /\ a / b <= 1)%Q.
Proof.
  intros Ha Hab Hb. split.
  - apply Qle_shift_div_l; [exact Hb|]. now rewrite Qmult_0_l.
  - apply Qle_shift_div_r; [exact Hb|]. now rewrite Qmult_1_l.
Qed.

Lemma fdiv_some (a b : Q) : (0 < b)%Q -> fdiv a b = Some (a / b)%Q.
Proof.
  intros Hb. unfold fdiv. destruct (Qeq_bool b 0) eqn:E; [|reflexivity].
  apply Qeq_bool_iff in E. rewrite E in Hb. exfalso. apply (Qlt_irrefl 0 Hb).
Qed.

Lemma ratio_one (a b : Q) : (0 < b -> a == b -> a / b == 1)%Q.
Proof.
  intros Hb E. rewrite E. apply Qmult_inv_r. intros H. rewrite H in Hb.
  apply (Qlt_irrefl 0 Hb).
Qed.

(** C9.  When every message has at least one word (the parser keeps no
    other message), every day of the frame gets a score, computed from the
    three daily metrics divided by their maxima over all days with weights
    0.4, 0.3 and 0.3 and scaled by 100; the score lies between 0 and 100,
    and it is 100 for a day whose three metrics all equal the maxima. *)
Theorem engagement_score_bounds (df : list row) (m : daily) (s : option Q) :
  Forall (fun r => 1 <= word_count r) df ->
  In (m, s) (calculate_engagement_score df) ->
  let dm := daily_metrics df in
  let max_mc := nat_max (map day_message_count dm) in
  let max_al := q_max (map day_avg_length dm) in
  let max_cc := nat_max (map day_conversation_count dm) in
  (exists d, In d (active_dates df)
             /\ day m = d
             /\ day_message_count m = length (on_day df d)
             /\ day_avg_length m = mean (map word_count (on_day df d))
             /\ day_conversation_count m = nunique (map conversation_id (on_day df d)))
  /\ exists q,
       s = Some q
       /\ (q == (qnat (day_message_count m) / qnat max_mc * (4 # 10)
                 + day_avg_length m / max_al * (3 # 10)
                 + qnat (day_conversation_count m) / qnat max_cc * (3 # 10)) * 100)%Q
       /\ (0 <= q)%Q /\ (q <= 100)%Q
       /\ (day_message_count m = max_mc ->
           (day_avg_length m == max_al)%Q ->
           day_conversation_count m = max_cc ->
           (q == 100)%Q).
Proof.
  intros Hwords Hin dm max_mc max_al max_cc.
  unfold calculate_engagement_score in Hin. fold dm in Hin.
  apply in_map_iff in Hin. destruct Hin as [m' [Heq Hm]].
  inversion Heq as [[Hm' Hs]]. subst m'. clear Heq. clear Hs.
  pose proof Hm as Hm0.
  unfold dm, daily_metrics in Hm0. apply in_map_iff in Hm0.
  destruct Hm0 as [d [Hd Hact]].
  pose proof (on_day_nonempty df d Hact) as Hne.
  assert (Hmc : day_message_count m = length (on_day df d)) by (now subst m).
  assert (Hal : day_avg_length m = mean (map word_count (on_day df d))) by (now subst m).
  assert (Hcc : day_conversation_count m = nunique (map conversation_id (on_day df d)))
    by (now subst m).
  split.
  { exists d. repeat split; try assumption. now subst m. }
  assert (Hmc1 : 1 <= day_message_count m).
  { rewrite Hmc. destruct (on_day df d); [congruence|simpl; lia]. }
  assert (Hcc1 : 1 <= day_conversation_count m).
  { rewrite Hcc. apply nunique_pos. destruct (on_day df d); [congruence|discriminate]. }
  assert (Hal1 : (0 < day_avg_length m)%Q).
  { rewrite Hal. apply mean_pos.
    - destruct (on_day df d); [congruence|discriminate].
    - rewrite Forall_forall in *. intros n Hn. apply in_map_iff in Hn.
      destruct Hn as [r [<- Hr]]. apply Hwords.
      unfold on_day in Hr. apply filter_In in Hr. tauto. }
  assert (Hmc_le : day_message_count m <= max_mc).
  { apply nat_max_ge. now apply in_map. }
  assert (Hcc_le : day_conversation_count m <= max_cc).
  { apply nat_max_ge. now apply in_map. }
  assert (Hal_le : (day_avg_length m <= max_al)%Q).
  { apply q_max_ge. now apply in_map. }
  assert (Hmax_mc : (0 < qnat max_mc)%Q) by (apply qnat_pos; lia).
  assert (Hmax_cc : (0 < qnat max_cc)%Q) by (apply qnat_pos; lia).
  assert (Hmax_al : (0 < max_al)%Q)
    by (apply (Qlt_le_trans _ (day_avg_length m)); assumption).
  fold max_mc max_al max_cc.
  rewrite (fdiv_some _ _ Hmax_mc), (fdiv_some _ _ Hmax_al), (fdiv_some _ _ Hmax_cc).
  cbn [engagement].
  destruct (ratio_bounds (qnat (day_message_count m)) (qnat max_mc)) as [X0 X1];
    [apply Qlt_le_weak, qnat_pos; lia|now apply qnat_le|exact Hmax_mc|].
  destruct (ratio_bounds (day_avg_length m) max_al) as [Y0 Y1];
    [now apply Qlt_le_weak|exact Hal_le|exact Hmax_al|].
  destruct (ratio_bounds (qnat (day_conversation_count m)) (qnat max_cc)) as [Z0 Z1];
    [apply Qlt_le_weak, qnat_pos; lia|now apply qnat_le|exact Hmax_cc|].
  eexists. split; [reflexivity|].
  split; [reflexivity|].
  set (x := (qnat (day_message_count m) / qnat max_mc)%Q) in *.
  set (y := (day_avg_length m / max_al)%Q) in *.
  set (z := (qnat (day_conversation_count m) / qnat max_cc)%Q) in *.
  split; [lra|]. split; [lra|].
  intros E1 E2 E3.
  assert (Hx : (x == 1)%Q).
  { unfold x. apply ratio_one; [exact Hmax_mc|]. rewrite E1. reflexivity. }
  assert (Hy : (y == 1)%Q) by (unfold y; now apply ratio_one).
  assert (Hz : (z == 1)%Q).
  { unfold z. apply ratio_one; [exact Hmax_cc|]. rewrite E3. reflexivity. }
  rewrite Hx, Hy, Hz. reflexivity.
Qed.

End Engagement.

Section EngagementExample.

Import Temporal.

Lemma engagement_score_witness :
  Forall (fun r => 1 <= word_count r) two_day_frame
  /\ calculate_engagement_score two_day_frame
     = [ (busy_day, Some (4800000 # 48000));
         ({| day := 1; day_message_count := 1; day_avg_length := 3 # 1;
             day_conversation_count := 1 |}, Some (1560000 # 24000)) ]
  /\ (4800000 # 48000 == 100)%Q
  /\ (1560000 # 24000 == 65)%Q.
Proof.
  assert (H1 : Forall (fun r => 1 <= word_count r) two_day_frame)
    by (repeat constructor).
  assert (H2 : In (busy_day, Some (4800000 # 48000))
                  (calculate_engagement_score two_day_frame))
    by (vm_compute; left; reflexivity).
  split; [exact H1|]. split; [vm_compute; reflexivity|].
  split; [|vm_compute; reflexivity].
  destruct (engagement_score_bounds two_day_frame busy_day _ H1 H2)
    as (_ & q & Hq & _ & _ & _ & Hmax).
  injection Hq as <-.
  apply Hmax; vm_compute; reflexivity.
Defined.

End EngagementExample.

(** ** parse_conversations keeps no message without a word *)

Section ParserInvariant.

Lemma lstrip_all_space (s : pystr) : forallb is_space s = true -> lstrip s = [].
Proof.
  induction s as [|c s IH]; simpl; [reflexivity|].
  intros H. apply andb_true_iff in H. destruct H as [Hc Hs]. rewrite Hc. now apply IH.
Qed.

Lemma strip_all_space (s : pystr) : forallb is_space s = true -> strip s = [].
Proof.
  intros H. unfold strip. rewrite (lstrip_all_space s H). reflexivity.
Qed.

Lemma split_ws_nonempty (s : pystr) : forall cur,
  cur <> [] \/ forallb is_space s = false -> split_ws cur s <> [].
Proof.
  induction s as [|c s IH]; intros cur H; simpl.
  - destruct H as [H|H]; [|discriminate]. destruct cur; [congruence|discriminate].
  - simpl in H. destruct (is_space c) eqn:Ec.
    + destruct cur as [|x cur]; [|discriminate].
      apply IH. right. destruct H as [H|H]; [congruence|exact H].
    + apply IH. left. discriminate.
Qed.

Lemma parse_message_word_count conv_id conv_name conv_created model idx message r :
  parse_message conv_id conv_name conv_created model idx message = Some r ->
  1 <= Analyzer.word_count r.
Proof.
  unfold parse_message. intros H.
  destruct (is_nil (message_content message)
            || (length (strip (message_content message)) <? 3)) eqn:E; [discriminate|].
  apply orb_false_iff in E. destruct E as [_ E]. apply Nat.ltb_ge in E.
  assert (Hw : split (message_content message) <> []).
  { apply split_ws_nonempty. right.
    destruct (forallb is_space (message_content message)) eqn:Es; [|reflexivity].
    rewrite (strip_all_space _ Es) in E. simpl in E. lia. }
  assert (Hr : Analyzer.word_count r = length (split (message_content message))).
  { destruct (role_in (message_role message) ["assistant"; "bot"]);
      [destruct (detect_failures (message_content message))|];
      inversion H; reflexivity. }
  rewrite Hr. destruct (split (message_content message)); [congruence|simpl; lia].
Qed.

End ParserInvariant.

(** ** The primitives on known values *)

Section Primitives.

Example md5_empty :
  MD5.hexdigest (encode (u "")) = u "d41d8cd98f00b204e9800998ecf8427e".
Proof. vm_compute. reflexivity. Qed.

Example md5_abc :
  MD5.hexdigest (encode (u "abc")) = u "900150983cd24fb0d6963f7d28e17f72".
Proof. vm_compute. reflexivity. Qed.

Example replace_all_occurrences :
  replace (u "abcabc") (u "bc") (u "[X]") = u "a[X]a[X]"
  /\ replace (u "aaaa") (u "aa") (u "b") = u "bb".
Proof. vm_compute. split; reflexivity. Qed.

Example finditer_full_name :
  Re.finditer false "\b[A-Z][a-z]+\s+[A-Z][a-z]+\b"
    (u "Prof. Alan Mathison Turing and Mrs. Ada Lovelace visited New York City")
  = [u "Alan Mathison"; u "Ada Lovelace"; u "New York"].
Proof. vm_compute. reflexivity. Qed.

Example finditer_person_name :
  Re.finditer false "\b(?:Dr\.|Mr\.|Mrs\.|Ms\.|Prof\.)\s+[A-Z][a-z]+(?:\s+[A-Z][a-z]+)*\b"
    (u "Prof. Alan Mathison Turing and Mrs. Ada Lovelace visited New York City")
  = [u "Prof. Alan Mathison Turing"; u "Mrs. Ada Lovelace"].
Proof. vm_compute. reflexivity. Qed.

Example finditer_phone :
  Re.finditer true "\b(?:\+?1[-.]?)?\(?([0-9]{3})\)?[-.]?([0-9]{3})[-.]?([0-9]{4})\b"
    (u "call +1-555-123-4567 or (555)123-4567 or 15551234567 now!!! help")
  = [u "1-555-123-4567"; u "555)123-4567"; u "15551234567"].
Proof. vm_compute. reflexivity. Qed.

Example finditer_address :
  Re.finditer true
    "\b\d+\s+[\w\s]+(?:street|st|avenue|ave|road|rd|boulevard|blvd|drive|dr|court|ct|lane|ln)\b"
    (u "99 red balloons st and 5 x ave. 1600 Pennsylvania Avenue NW")
  = [u "99 red balloons st and 5 x ave"; u "1600 Pennsylvania Avenue"].
Proof. vm_compute. reflexivity. Qed.

Example findall_urgent_marks :
  Re.findall_count true "!!|!!!|⚠️|🚨|‼️" (u "help!!! 🚨 now!!!!") = 4.
Proof. vm_compute. reflexivity. Qed.

Example classify_examples :
  detect_topics (u "Fix the Python bug in docker") = ["Technical/Coding"; "Infrastructure"]
  /\ detect_topics (u "hello there") = ["General"]
  /\ detect_sentiment (u "this is great, thanks") = "Positive"
  /\ detect_sentiment (u "great, but I need help") = "Urgent"
  /\ detect_sentiment (u "nothing to report") = "Neutral".
Proof. vm_compute. repeat split. Qed.

End Primitives.

(* ===================================================================== *)
(** * Further properties of the analyzers *)
(* ===================================================================== *)

(** ** detect_failures *)

Section Failures.

Lemma failure_keys_nodup : NoDup (map fst failure_patterns).
Proof. nodup_keys. Qed.

Lemma nodup_filter_keys {V} (f : string * V -> bool) (table : list (string * V)) :
  NoDup (map fst table) -> NoDup (map fst (filter f table)).
Proof.
  induction table as [|e table IH]; simpl; intros H; [constructor|].
  inversion H as [|? ? Hn Hnd]; subst.
  destruct (f e); [|now apply IH].
  simpl. constructor; [|now apply IH].
  intros Hin. apply Hn. apply in_map_iff in Hin. destruct Hin as [x [Hx Hf]].
  apply filter_In in Hf. rewrite <- Hx. apply in_map. tauto.
Qed.

Lemma detect_failures_lengths (t : pystr) :
  length (fst (detect_failures t)) = length (snd (detect_failures t)).
Proof. unfold detect_failures. cbn [fst snd]. now rewrite !length_map. Qed.

(** X1.  [detect_failures] returns two lists of the same length; the names
    are distinct; a failure of the table is named exactly when one of its
    patterns is found in the lower-cased text, the search ignoring case;
    and the severity at each position is the one the table gives to the
    name at that position. *)
Theorem detect_failures_spec (t : pystr) :
  let labels := fst (detect_failures t) in
  let severities := snd (detect_failures t) in
  length labels = length severities
  /\ NoDup labels
  /\ (forall name severity patterns,
        In (name, (severity, patterns)) failure_patterns ->
        (In name labels
         <-> exists pattern, In pattern patterns
                             /\ Re.search true pattern (lower t) = true))
  /\ (forall i name severity,
        nth_error labels i = Some name -> nth_error severities i = Some severity ->
        exists patterns, In (name, (severity, patterns)) failure_patterns).
Proof.
  unfold detect_failures. cbn [fst snd].
  set (f := fun entry : string * (string * list string) =>
              any_match (snd (snd entry)) (lower t)).
  split; [now rewrite !length_map|].
  split; [apply nodup_filter_keys, failure_keys_nodup|].
  split.
  - intros name severity patterns Hin.
    rewrite (filter_keys f failure_patterns name (severity, patterns)
                         failure_keys_nodup Hin).
    unfold f. cbn [snd]. apply any_match_exists.
  - intros i name severity Hl Hs.
    rewrite nth_error_map in Hl, Hs.
    destruct (nth_error (filter f failure_patterns) i) as [[n [sv ps]]|] eqn:E;
      [|discriminate].
    cbn in Hl, Hs. inversion Hl; inversion Hs; subst.
    exists ps. apply nth_error_In in E. apply filter_In in E. tauto.
Qed.

End Failures.

(** ** parse_conversations: what a row records *)

Section Rows.

Lemma strip_short_of_nil (s : pystr) : is_nil s = true -> length (strip s) < 3.
Proof. destruct s; [simpl; lia|discriminate]. Qed.

Lemma lstrip_length (s : pystr) : length (lstrip s) <= length s.
Proof.
  induction s as [|c s IH]; simpl; [lia|].
  destruct (is_space c); simpl; lia.
Qed.

Lemma strip_length (s : pystr) : length (strip s) <= length s.
Proof.
  unfold strip. rewrite length_rev.
  eapply Nat.le_trans; [apply lstrip_length|].
  rewrite length_rev. apply lstrip_length.
Qed.

Lemma detect_topics_count (t : pystr) :
  1 <= length (detect_topics t) <= 13.
Proof.
  unfold detect_topics.
  set (f := fun entry : string * list string => any_match (snd entry) (lower t)).
  pose proof (filter_length_le f topic_patterns) as Hle.
  change (length topic_patterns) with 13 in Hle.
  rewrite <- (length_map fst) in Hle.
  destruct (map fst (filter f topic_patterns)) as [|k ks].
  - cbn [length]. lia.
  - cbn [length] in *. lia.
Qed.

(** X2.  A message is dropped exactly when its text, stripped of
    surrounding whitespace, has fewer than three characters.  A row that is
    kept carries the identifier of its conversation and the position of the
    message, the length of the whole text (at least 3) and its number of
    words (at least 1), between 1 and 13 topics, and as preview the first
    300 characters of the text. *)
Theorem parse_message_row
        (conv_id conv_name conv_created model : pystr) (idx : nat) (message : raw_message) :
  let text := message_content message in
  match parse_message conv_id conv_name conv_created model idx message with
  | None => length (strip text) < 3
  | Some r =>
    3 <= length (strip text)
    /\ conversation_id r = conv_id
    /\ message_index r = idx
    /\ role r = message_role message
    /\ timestamp r = get_or (m_created_at message) conv_created
    /\ content_length r = length text /\ 3 <= content_length r
    /\ 1 <= word_count r
    /\ 1 <= topic_count r <= 13
    /\ content_preview r = firstn 300 text
    /\ length (content_preview r) = Nat.min 300 (content_length r)
  end.
Proof.
  intros text.
  destruct (parse_message conv_id conv_name conv_created model idx message) as [r|] eqn:E.
  - pose proof (parse_message_word_count _ _ _ _ _ _ _ E) as Hw.
    unfold parse_message in E. fold text in E.
    destruct (is_nil text || (length (strip text) <? 3)) eqn:Eskip; [discriminate|].
    apply orb_false_iff in Eskip. destruct Eskip as [_ Es]. apply Nat.ltb_ge in Es.
    pose proof (strip_length text) as Hsl.
    pose proof (detect_topics_count text) as Ht.
    assert (Hfields :
              conversation_id r = conv_id /\ message_index r = idx
              /\ role r = message_role message
              /\ timestamp r = get_or (m_created_at message) conv_created
              /\ content_length r = length text
              /\ topic_count r = length (detect_topics text)
              /\ content_preview r = firstn 300 text).
    { destruct (role_in (message_role message) ["assistant"; "bot"]);
        [destruct (detect_failures text)|]; inversion E; repeat split. }
    destruct Hfields as (H1 & H2 & H3 & H4 & H5 & H6 & H7).
    rewrite H1, H2, H3, H4, H5, H6, H7, length_firstn.
    repeat split; try reflexivity; try lia; exact Hw.
  - unfold parse_message in E. fold text in E.
    destruct (is_nil text || (length (strip text) <? 3)) eqn:Eskip.
    + apply orb_true_iff in Eskip. destruct Eskip as [Hn|Hs].
      * now apply strip_short_of_nil.
      * now apply Nat.ltb_lt.
    + destruct (role_in (message_role message) ["assistant"; "bot"]);
        [destruct (detect_failures text)|]; discriminate.
Qed.

(** X3.  A row reports a failure exactly when its failure count is
    positive, and only for a role that is assistant or bot: for any other
    role the failure columns read no failure, 'None', 'None' and 'none'.
    With a failure the column of types is the detected names joined by a
    bar. *)
Theorem parse_message_failure_columns
        (conv_id conv_name conv_created model : pystr) (idx : nat) (message : raw_message) :
  match parse_message conv_id conv_name conv_created model idx message with
  | None => True
  | Some r =>
    (has_failure r = true <-> 0 < failure_count r)
    /\ (has_failure r = true -> role_in (role r) ["assistant"; "bot"] = true)
    /\ (has_failure r = true ->
        failure_types r = joined (fst (detect_failures (message_content message)))
        /\ failure_count r = length (fst (detect_failures (message_content message))))
    /\ (has_failure r = false ->
        failure_count r = 0 /\ failure_types r = u "None"
        /\ failure_severities r = u "None" /\ max_failure_severity r = u "none")
  end.
Proof.
  destruct (parse_message conv_id conv_name conv_created model idx message) as [r|] eqn:E;
    [|exact I].
  unfold parse_message in E.
  destruct (is_nil (message_content message)
            || (length (strip (message_content message)) <? 3)); [discriminate|].
  destruct (role_in (message_role message) ["assistant"; "bot"]) eqn:Erole.
  - pose proof (detect_failures_lengths (message_content message)) as Hlen.
    destruct (detect_failures (message_content message)) as [fs ss] eqn:Ed.
    cbn [fst snd] in *.
    inversion E; subst r; clear E.
    cbn [has_failure failure_count failure_types failure_severities
         max_failure_severity role].
    destruct fs as [|f fs]; destruct ss as [|s ss]; try discriminate Hlen;
      cbn [length is_nil Nat.ltb Nat.leb max_severity].
    + repeat split; intros; try discriminate; try (exfalso; lia); try reflexivity.
    + repeat split; intros; try discriminate; try apply Nat.lt_0_succ;
        try reflexivity; exact Erole.
  - inversion E; subst r; clear E.
    cbn [has_failure failure_count failure_types failure_severities
         max_failure_severity role length is_nil Nat.ltb Nat.leb max_severity].
    repeat split; intros; try discriminate; try (exfalso; lia); reflexivity.
Qed.

End Rows.

Section RowOrder.

Lemma parse_message_index conv_id conv_name conv_created model idx message r :
  parse_message conv_id conv_name conv_created model idx message = Some r ->
  message_index r = idx.
Proof.
  unfold parse_message. intros H.
  destruct (is_nil (message_content message)
            || (length (strip (message_content message)) <? 3)); [discriminate|].
  destruct (role_in (message_role message) ["assistant"; "bot"]);
    [destruct (detect_failures (message_content message))|]; inversion H; reflexivity.
Qed.

Lemma parse_message_kept conv_id conv_name conv_created model idx message :
  (exists r, parse_message conv_id conv_name conv_created model idx message = Some r)
  <-> 3 <= length (strip (message_content message)).
Proof.
  unfold parse_message.
  destruct (is_nil (message_content message)
            || (length (strip (message_content message)) <? 3)) eqn:E.
  - split; [intros [r Hr]; discriminate|]. intros H3.
    apply orb_true_iff in E. destruct E as [Hn|Hs].
    + pose proof (strip_short_of_nil _ Hn). lia.
    + apply Nat.ltb_lt in Hs. lia.
  - apply orb_false_iff in E. destruct E as [_ Hs]. apply Nat.ltb_ge in Hs.
    split; [intros _; exact Hs|]. intros _.
    destruct (role_in (message_role message) ["assistant"; "bot"]);
      [destruct (detect_failures (message_content message))|]; eexists; reflexivity.
Qed.

(** X4.  Within a conversation the rows follow the order of the messages
    and keep their positions: the indices increase strictly, a row of index
    [i] is the row of the message at position [i], dropped messages leave
    gaps in the numbering, and there are as many rows as messages with at
    least three characters once stripped. *)
Theorem parse_messages_indices
        (conv_id conv_name conv_created model : pystr) (messages : list raw_message) :
  forall start,
    let rows := parse_messages conv_id conv_name conv_created model start messages in
    StronglySorted lt (map message_index rows)
    /\ length rows
       = length (filter (fun m => 3 <=? length (strip (message_content m))) messages)
    /\ (forall r, In r rows ->
          start <= message_index r < start + length messages
          /\ exists message,
               nth_error messages (message_index r - start) = Some message
               /\ parse_message conv_id conv_name conv_created model
                                (message_index r) message = Some r).
Proof.
  induction messages as [|m messages IH]; intros start; cbn [parse_messages].
  - cbn [map length filter]. split; [constructor|]. split; [reflexivity|]. intros r [].
  - destruct (IH (S start)) as (Hs & Hl & Hr). clear IH.
    pose proof (parse_message_kept conv_id conv_name conv_created model start m) as Hk.
    destruct (parse_message conv_id conv_name conv_created model start m) as [r0|] eqn:E.
    + pose proof (parse_message_index _ _ _ _ _ _ _ E) as Hi.
      cbn [app map filter length].
      assert (H3 : (3 <=? length (strip (message_content m))) = true).
      { apply Nat.leb_le. apply Hk. now exists r0. }
      rewrite H3. cbn [length]. split; [|split].
      * constructor; [exact Hs|]. rewrite Forall_forall. intros i Hin.
        apply in_map_iff in Hin. destruct Hin as [r [<- Hin]].
        destruct (Hr r Hin) as [Hb _]. lia.
      * now rewrite Hl.
      * intros r [<-|Hin].
        -- split; [lia|]. exists m. rewrite Hi. replace (start - start) with 0 by lia.
           split; [reflexivity|exact E].
        -- destruct (Hr r Hin) as [Hb [msg [Hn Hp]]]. split; [lia|].
           exists msg. split; [|exact Hp].
           replace (message_index r - start) with (S (message_index r - S start)) by lia.
           exact Hn.
    + cbn [app filter].
      assert (H3 : (3 <=? length (strip (message_content m))) = false).
      { apply Nat.leb_gt. destruct (Nat.lt_ge_cases (length (strip (message_content m))) 3)
          as [Hlt|Hge]; [exact Hlt|].
        destruct (proj2 Hk Hge) as [r Hr0]. discriminate. }
      rewrite H3. split; [exact Hs|]. split; [exact Hl|].
      intros r Hin. destruct (Hr r Hin) as [Hb [msg [Hn Hp]]]. cbn [length].
      split; [lia|]. exists msg. split; [|exact Hp].
      replace (message_index r - start) with (S (message_index r - S start)) by lia.
      exact Hn.
Qed.

End RowOrder.

(** ** generate_statistics: when it returns and what it returns *)

Section StatisticsOutcome.

Lemma str_eqb_eq (a b : pystr) : str_eqb a b = true -> a = b.
Proof.
  revert b. induction a as [|x a IH]; intros [|y b]; simpl; try discriminate.
  - reflexivity.
  - intros H. apply andb_true_iff in H. destruct H as [H1 H2].
    apply N.eqb_eq in H1. subst. f_equal. now apply IH.
Qed.

Lemma roles_disjoint (r : pystr) :
  role_in r ["user"; "human"] = true -> role_in r ["assistant"; "bot"] = false.
Proof.
  unfold role_in. cbn [existsb]. rewrite orb_false_r. intros H.
  apply orb_true_iff in H.
  destruct H as [H|H]; apply str_eqb_eq in H; subst r; vm_compute; reflexivity.
Qed.

Lemma filter_length_implies {A} (f g : A -> bool) (l : list A) :
  (forall x, In x l -> f x = true -> g x = true) ->
  length (filter f l) <= length (filter g l).
Proof.
  induction l as [|x l IH]; intros H; simpl; [lia|].
  assert (IH' : length (filter f l) <= length (filter g l)).
  { apply IH. intros y Hy. apply H. now right. }
  destruct (f x) eqn:Ef.
  - rewrite (H x (or_introl eq_refl) Ef). simpl. lia.
  - destruct (g x); simpl; lia.
Qed.

Lemma filter_length_disjoint {A} (f g : A -> bool) (l : list A) :
  (forall x, f x = true -> g x = false) ->
  length (filter f l) + length (filter g l) <= length l.
Proof.
  intros H. induction l as [|x l IH]; simpl; [lia|].
  destruct (f x) eqn:Ef.
  - rewrite (H x Ef). simpl. lia.
  - destruct (g x); simpl; lia.
Qed.

(** X6.  [generate_statistics] returns a dictionary exactly when the frame
    holds a message of role assistant or bot; it then counts every row, the
    user and assistant messages being disjoint, and the failure rate is 100
    times the rows with a failure over the assistant rows.  Otherwise it
    raises: KeyError on a frame without rows, ZeroDivisionError on
    any other. *)
Theorem generate_statistics_outcome (df : list row) :
  match generate_statistics df with
  | Ok st =>
    with_role ["assistant"; "bot"] df <> []
    /\ total_messages st = length df
    /\ assistant_messages st = length (with_role ["assistant"; "bot"] df)
    /\ user_messages st + assistant_messages st <= total_messages st
    /\ messages_with_failures st = length (filter has_failure df)
    /\ (failure_rate st
        == inject_Z (Z.of_nat (messages_with_failures st))
           / inject_Z (Z.of_nat (assistant_messages st)) * 100)%Q
  | Raise e =>
    with_role ["assistant"; "bot"] df = []
    /\ (df = [] -> e = KeyError)
    /\ (df <> [] -> e = ZeroDivisionError)
  end.
Proof.
  destruct df as [|r0 df'].
  - cbn [generate_statistics]. repeat split; congruence.
  - unfold generate_statistics. set (df := r0 :: df'). unfold truediv.
    destruct (Z.eqb_spec (Z.of_nat (length (with_role ["assistant"; "bot"] df))) 0)
      as [Hz|Hnz]; cbn [bind].
    + split; [|split; intros; [discriminate|reflexivity]].
      destruct (with_role ["assistant"; "bot"] df); [reflexivity|discriminate].
    + cbn [total_messages assistant_messages user_messages messages_with_failures
           failure_rate].
      split; [intros E; rewrite E in Hnz; apply Hnz; reflexivity|].
      split; [reflexivity|]. split; [reflexivity|].
      split; [|split; [reflexivity|apply Qeq_refl]].
      apply filter_length_disjoint. intros x. apply roles_disjoint.
Qed.

Lemma parse_message_failure_role conv_id conv_name conv_created model idx message r :
  parse_message conv_id conv_name conv_created model idx message = Some r ->
  has_failure r = true -> role_in (role r) ["assistant"; "bot"] = true.
Proof.
  unfold parse_message. intros H.
  destruct (is_nil (message_content message)
            || (length (strip (message_content message)) <? 3)); [discriminate|].
  destruct (role_in (message_role message) ["assistant"; "bot"]) eqn:Er.
  - destruct (detect_failures (message_content message)).
    inversion H; subst r. cbn [role]. intros _. exact Er.
  - inversion H; subst r. cbn [has_failure length Nat.ltb Nat.leb]. discriminate.
Qed.

Lemma parse_messages_origin conv_id conv_name conv_created model messages : forall start r,
  In r (parse_messages conv_id conv_name conv_created model start messages) ->
  exists idx message,
    parse_message conv_id conv_name conv_created model idx message = Some r.
Proof.
  induction messages as [|m messages IH]; intros start r; cbn [parse_messages];
    [intros []|].
  intros Hin. apply in_app_or in Hin. destruct Hin as [Hin|Hin].
  - destruct (parse_message conv_id conv_name conv_created model start m) as [r0|] eqn:E;
      [|contradiction].
    destruct Hin as [<-|[]]. now exists start, m.
  - now apply (IH (S start)).
Qed.

Lemma parsed_failures_are_assistant (conversations : list raw_conversation) (r : row) :
  In r (parse_conversations conversations) ->
  has_failure r = true -> role_in (role r) ["assistant"; "bot"] = true.
Proof.
  unfold parse_conversations. intros Hin. apply in_flat_map in Hin.
  destruct Hin as [conv [_ Hin]]. unfold parse_conversation in Hin.
  apply parse_messages_origin in Hin. destruct Hin as (idx & message & Hp).
  now apply (parse_message_failure_role _ _ _ _ _ _ _ Hp).
Qed.

Lemma generate_statistics_outcome_aux (df : list row) :
  match generate_statistics df with
  | Ok st =>
    with_role ["assistant"; "bot"] df <> []
    /\ assistant_messages st = length (with_role ["assistant"; "bot"] df)
    /\ messages_with_failures st = length (filter has_failure df)
    /\ (failure_rate st
        == inject_Z (Z.of_nat (messages_with_failures st))
           / inject_Z (Z.of_nat (assistant_messages st)) * 100)%Q
  | Raise e => True
  end.
Proof.
  destruct df as [|r0 df']; [exact I|].
  unfold generate_statistics. set (df := r0 :: df'). unfold truediv.
  destruct (Z.eqb_spec (Z.of_nat (length (with_role ["assistant"; "bot"] df))) 0)
    as [Hz|Hnz]; cbn [bind]; [exact I|].
  cbn [assistant_messages messages_with_failures failure_rate].
  split; [intros E; rewrite E in Hnz; apply Hnz; reflexivity|].
  split; [reflexivity|]. split; [reflexivity|apply Qeq_refl].
Qed.

(** X7.  On the frame parsed from any export, whenever the statistics are
    returned the rows with a failure are at most the assistant rows and
    the failure rate lies between 0 and 100. *)
Theorem failure_rate_bounds (conversations : list raw_conversation) (st : statistics) :
  generate_statistics (parse_conversations conversations) = Ok st ->
  messages_with_failures st <= assistant_messages st
  /\ (0 <= failure_rate st)%Q /\ (failure_rate st <= 100)%Q.
Proof.
  intros H.
  pose proof (generate_statistics_outcome_aux (parse_conversations conversations)) as Ho.
  rewrite H in Ho. destruct Ho as (Hne & Ha & Hf & Hr).
  assert (Hle : messages_with_failures st <= assistant_messages st).
  { rewrite Hf, Ha. unfold with_role. apply filter_length_implies.
    intros x Hx. apply (parsed_failures_are_assistant conversations x Hx). }
  split; [exact Hle|].
  assert (Hpos : 1 <= assistant_messages st).
  { rewrite Ha. destruct (with_role ["assistant"; "bot"] (parse_conversations conversations));
      [congruence|simpl; lia]. }
  destruct (ratio_bounds (inject_Z (Z.of_nat (messages_with_failures st)))
                         (inject_Z (Z.of_nat (assistant_messages st)))) as [B0 B1].
  - unfold Qle. simpl. lia.
  - unfold Qle. simpl. lia.
  - unfold Qlt. simpl. lia.
  - rewrite Hr. split; lra.
Qed.

Lemma failure_rate_bounds_witness :
  exists st,
    generate_statistics (parse_conversations mixed_corpus) = Ok st
    /\ total_messages st = 3 /\ assistant_messages st = 2
    /\ messages_with_failures st = 1
    /\ (failure_rate st == 50)%Q
    /\ (0 <= failure_rate st)%Q /\ (failure_rate st <= 100)%Q.
Proof.
  destruct (generate_statistics (parse_conversations mixed_corpus)) as [st|e] eqn:E;
    [|vm_compute in E; discriminate E].
  exists st. split; [reflexivity|].
  destruct (failure_rate_bounds mixed_corpus st E) as (_ & H0 & H100).
  assert (Hst : Ok st = generate_statistics (parse_conversations mixed_corpus))
    by (symmetry; exact E).
  vm_compute in Hst. injection Hst as ->.
  repeat split; try exact H0; try exact H100.
Defined.

End StatisticsOutcome.

(** ** redact_pii: the labels and the tokens *)

Section RedactionLabels.

Lemma str_eqb_refl (a : pystr) : str_eqb a a = true.
Proof. induction a as [|x a IH]; simpl; [reflexivity|]. now rewrite N.eqb_refl. Qed.

Lemma existsb_str_eqb (x : pystr) (l : list pystr) :
  existsb (str_eqb x) l = true <-> In x l.
Proof.
  rewrite existsb_exists. split.
  - intros [y [Hy He]]. apply str_eqb_eq in He. now subst.
  - intros H. exists x. split; [exact H|apply str_eqb_refl].
Qed.

Lemma dedup_fold (xs : list pystr) : forall acc,
  NoDup acc ->
  let out := fold_left (fun acc x => if existsb (str_eqb x) acc then acc else acc ++ [x])
                       xs acc in
  NoDup out /\ (forall x, In x out <-> In x acc \/ In x xs).
Proof.
  induction xs as [|x xs IH]; intros acc Hnd; cbn [fold_left].
  - split; [exact Hnd|]. intros x. simpl. tauto.
  - destruct (existsb (str_eqb x) acc) eqn:E.
    + apply existsb_str_eqb in E. destruct (IH acc Hnd) as [H1 H2].
      split; [exact H1|]. intros y. rewrite H2. simpl.
      split; [tauto|]. intros [H|[<-|H]]; tauto.
    + assert (Hn : ~ In x acc).
      { intros Hc. apply existsb_str_eqb in Hc. congruence. }
      destruct (IH (acc ++ [x])) as [H1 H2].
      * apply NoDup_app; [exact Hnd|repeat constructor; simpl; tauto|].
        intros y Hy [<-|[]]. exact (Hn Hy).
      * split; [exact H1|]. intros y. rewrite H2, in_app_iff. simpl. tauto.
Qed.

Lemma dedup_spec (xs : list pystr) :
  NoDup (dedup xs) /\ (forall x, In x (dedup xs) <-> In x xs).
Proof.
  destruct (dedup_fold xs [] (NoDup_nil _)) as [H1 H2].
  split; [exact H1|]. intros x. unfold dedup. rewrite H2. simpl. tauto.
Qed.

Lemma apply_rule_labels ic mk rule st :
  snd (apply_rule ic mk rule st)
  = snd st ++ repeat (u (fst rule)) (length (Re.finditer ic (snd rule) (fst st))).
Proof.
  destruct rule as [type pattern]. unfold apply_rule. cbn [fst snd].
  generalize (Re.finditer ic pattern (fst st)) as ms. intros ms. revert st.
  induction ms as [|m ms IH]; intros st; cbn [fold_left length repeat].
  - now rewrite app_nil_r.
  - rewrite IH. cbn [snd]. now rewrite <- app_assoc.
Qed.

Lemma rules_labels ic (mk : string -> pystr -> pystr) (table : list (string * string)) :
  forall st,
    let out := fold_left (fun st rule => apply_rule ic (mk (fst rule)) rule st) table st in
    (forall l, In l (snd out) ->
               In l (snd st) \/ In l (map (fun rule => u (fst rule)) table))
    /\ (snd out = [] -> out = st).
Proof.
  induction table as [|rule table IH]; intros st; cbn [fold_left].
  - split; [tauto|reflexivity].
  - destruct (IH (apply_rule ic (mk (fst rule)) rule st)) as [H1 H2]. split.
    + intros l Hl. destruct (H1 l Hl) as [H|H].
      * rewrite apply_rule_labels in H. apply in_app_or in H.
        destruct H as [H|H]; [left; exact H|]. apply repeat_spec in H.
        right. cbn [map]. left. symmetry. exact H.
      * right. cbn [map]. right. exact H.
    + intros Hnil. rewrite (H2 Hnil).
      rewrite (H2 Hnil) in Hnil. rewrite apply_rule_labels in Hnil.
      apply app_eq_nil in Hnil. destruct Hnil as [_ Hrep].
      apply apply_rule_no_match.
      destruct (Re.finditer ic (snd rule) (fst st)); [reflexivity|discriminate].
Qed.

(** X8.  The labels returned by [redact_pii] are pairwise distinct and each
    is the type of a rule of one of the two tables; when no label is
    returned the text is returned as it was. *)
Theorem redact_pii_labels (enable_privacy : bool) (t : pystr) :
  let labels := snd (redact_pii enable_privacy t) in
  NoDup labels
  /\ (forall l, In l labels -> In l rule_types)
  /\ (labels = [] -> fst (redact_pii enable_privacy t) = t).
Proof.
  unfold redact_pii. destruct enable_privacy; cbn [negb fst snd].
  2: { split; [constructor|]. split; [intros l []|reflexivity]. }
  set (st1 := fold_left (fun st rule => apply_rule true (pii_token (fst rule)) rule st)
                        privacy_patterns (t, [])).
  set (st2 := fold_left (fun st rule => apply_rule false (entity_token (fst rule)) rule st)
                        sensitive_entities st1).
  destruct (dedup_spec (snd st2)) as [Hnd Hin].
  destruct (rules_labels true pii_token privacy_patterns (t, [])) as [L1 N1].
  destruct (rules_labels false entity_token sensitive_entities st1) as [L2 N2].
  fold st1 in L1, N1. fold st2 in L2, N2. cbn [fst snd] in L1, N1.
  clearbody st2. clearbody st1.
  split; [exact Hnd|]. split.
  - intros l Hl. apply (proj1 (Hin l)) in Hl. unfold rule_types. rewrite map_app.
    apply in_or_app. destruct (L2 l Hl) as [H|H]; [|right; exact H].
    destruct (L1 l H) as [H'|H']; [destruct H'|left; exact H'].
  - intros Hnil.
    assert (H2 : snd st2 = []).
    { destruct (snd st2) as [|x xs]; [reflexivity|].
      assert (Hx : In x (dedup (x :: xs))) by (apply (proj2 (Hin x)); left; reflexivity).
      rewrite Hnil in Hx. contradiction. }
    rewrite (N2 H2). rewrite (N2 H2) in H2. rewrite (N1 H2). reflexivity.
Qed.

Lemma le_bytes_length n x : length (MD5.le_bytes n x) = n.
Proof. unfold MD5.le_bytes. now rewrite length_map, length_seq. Qed.

Lemma le_bytes_small n x : Forall (fun b => (b < 256)%N) (MD5.le_bytes n x).
Proof.
  unfold MD5.le_bytes. rewrite Forall_forall. intros b Hb.
  apply in_map_iff in Hb. destruct Hb as [i [<- _]].
  apply N.mod_lt. discriminate.
Qed.

Lemma hex_digit_is_hex (n : N) : (n < 16)%N -> is_hex (MD5.hex_digit n) = true.
Proof.
  intros H. unfold MD5.hex_digit, is_hex, is_digit.
  destruct (N.ltb_spec n 10).
  - apply orb_true_iff. left. apply andb_true_iff. split; apply N.leb_le; lia.
  - apply orb_true_iff. right. apply andb_true_iff. split; apply N.leb_le; lia.
Qed.

Lemma hexdigest_shape (msg : list N) :
  length (MD5.hexdigest msg) = 32 /\ forallb is_hex (MD5.hexdigest msg) = true.
Proof.
  unfold MD5.hexdigest, MD5.digest.
  destruct (fold_left MD5.block _ MD5.init) as [[[a b] c] d].
  set (bytes := MD5.le_bytes 4 a ++ MD5.le_bytes 4 b ++ MD5.le_bytes 4 c
                ++ MD5.le_bytes 4 d).
  assert (Hlen : length bytes = 16).
  { unfold bytes. rewrite !length_app, !le_bytes_length. reflexivity. }
  assert (Hsmall : Forall (fun x => (x < 256)%N) bytes).
  { unfold bytes. repeat (apply Forall_app; split); apply le_bytes_small. }
  clearbody bytes. split.
  - assert (H : forall l : list N,
               length (flat_map (fun x => [MD5.hex_digit (x / 16);
                                           MD5.hex_digit (x mod 16)]) l)
               = 2 * length l).
    { induction l as [|x l IH]; cbn [flat_map length app]; [reflexivity|].
      rewrite IH. lia. }
    rewrite H, Hlen. reflexivity.
  - clear Hlen. induction Hsmall as [|x l Hx _ IH]; cbn [flat_map forallb app]; [reflexivity|].
    assert (Hhi : is_hex (MD5.hex_digit (x / 16)) = true).
    { apply hex_digit_is_hex. apply N.Div0.div_lt_upper_bound. lia. }
    assert (Hlo : is_hex (MD5.hex_digit (x mod 16)) = true).
    { apply hex_digit_is_hex. apply N.mod_lt. discriminate. }
    rewrite IH, Hhi, Hlo. reflexivity.
Qed.

(** X9.  The token that replaces a sensitive entity is the upper-cased type
    of the rule followed by eight hexadecimal characters, between square
    brackets: its length does not depend on the text replaced.  The token of
    a PII rule does not depend on the text replaced at all. *)
Theorem redaction_tokens (type : string) (original : pystr) :
  (exists h,
     entity_token type original = u "[" ++ upper (u type) ++ u "_" ++ h ++ u "]"
     /\ length h = 8 /\ forallb is_hex h = true)
  /\ length (entity_token type original) = length (u type) + 11
  /\ pii_token type original = u "[" ++ upper (u type) ++ u "_REDACTED]".
Proof.
  destruct (hexdigest_shape (encode original)) as [Hlen Hhex].
  assert (H8 : length (firstn 8 (MD5.hexdigest (encode original))) = 8).
  { rewrite length_firstn, Hlen. reflexivity. }
  split; [|split; [|reflexivity]].
  - exists (firstn 8 (MD5.hexdigest (encode original))).
    split; [reflexivity|]. split; [exact H8|].
    rewrite forallb_forall in *. intros c Hc. apply Hhex.
    rewrite <- (firstn_skipn 8 (MD5.hexdigest (encode original))).
    apply in_or_app. now left.
  - unfold entity_token. rewrite !length_app, H8. unfold upper. rewrite length_map.
    change (length (u "[")) with 1. change (length (u "_")) with 1.
    change (length (u "]")) with 1. lia.
Qed.

End RedactionLabels.

(** ** The matcher and the words a pattern can read *)

Section Matching.

Import Re.

Lemma rmatch_star {A} ic a prev s (k : option N -> pystr -> option A) :
  rmatch ic (RStar a) prev s k = star_loop (rmatch ic a) k (length s) prev s.
Proof. reflexivity. Qed.

Lemma star_loop_S {A} step (k : option N -> pystr -> option A) n p t :
  star_loop step k (S n) p t
  = match step p t (fun p' t' => if length t' <? length t then star_loop step k n p' t'
                                 else None) with
    | Some x => Some x
    | None => k p t
    end.
Proof. reflexivity. Qed.

Lemma last_opt_app prev w1 w2 : last_opt prev (w1 ++ w2) = last_opt (last_opt prev w1) w2.
Proof.
  unfold last_opt. rewrite rev_app_distr.
  destruct (rev w2) as [|c l]; [reflexivity|reflexivity].
Qed.

(** The matcher is sound for the relation: a result comes from the
    continuation, called after a word that the pattern can read. *)
Lemma rmatch_sound {A} ic (r : regex) :
  forall prev s (k : option N -> pystr -> option A) x,
    rmatch ic r prev s k = Some x ->
    exists w rest, s = w ++ rest /\ matches ic r prev w rest
                   /\ k (last_opt prev w) rest = Some x.
Proof.
  induction r as [|c|neg items| |a IHa b IHb|a IHa b IHb|a IHa|a IHa];
    intros prev s k x H.
  - cbn [rmatch] in H. exists [], s. split; [reflexivity|]. split; [constructor|exact H].
  - cbn [rmatch] in H. destruct s as [|y s]; [discriminate|].
    destruct (char_match ic c y) eqn:E; [|discriminate].
    exists [y], s. split; [reflexivity|]. split; [constructor; exact E|exact H].
  - cbn [rmatch] in H. destruct s as [|y s]; [discriminate|].
    destruct (xorb neg (in_class ic items y)) eqn:E; [|discriminate].
    exists [y], s. split; [reflexivity|]. split; [constructor; exact E|exact H].
  - cbn [rmatch] in H.
    destruct (xorb (word_opt prev) (word_opt (hd_error s))) eqn:E; [|discriminate].
    exists [], s. split; [reflexivity|]. split; [constructor; exact E|exact H].
  - cbn [rmatch] in H.
    destruct (IHa _ _ _ _ H) as (w1 & r1 & -> & M1 & H1).
    destruct (IHb _ _ _ _ H1) as (w2 & r2 & -> & M2 & H2).
    exists (w1 ++ w2), r2. split; [apply app_assoc|].
    split; [constructor; assumption|]. rewrite last_opt_app. exact H2.
  - cbn [rmatch] in H. destruct (rmatch ic a prev s k) as [y|] eqn:E.
    + injection H as ->. destruct (IHa _ _ _ _ E) as (w & rest & -> & M & Hk).
      exists w, rest. split; [reflexivity|]. split; [apply m_alt_l; exact M|exact Hk].
    + destruct (IHb _ _ _ _ H) as (w & rest & -> & M & Hk).
      exists w, rest. split; [reflexivity|]. split; [apply m_alt_r; exact M|exact Hk].
  - cbn [rmatch] in H. destruct (rmatch ic a prev s k) as [y|] eqn:E.
    + injection H as ->. destruct (IHa _ _ _ _ E) as (w & rest & -> & M & Hk).
      exists w, rest. split; [reflexivity|]. split; [apply m_opt_some; exact M|exact Hk].
    + exists [], s. split; [reflexivity|]. split; [apply m_opt_none|exact H].
  - rewrite rmatch_star in H. remember (length s) as n eqn:En in H. clear En.
    revert prev s H. induction n as [|n IHn]; intros prev s H.
    + cbn [star_loop] in H. exists [], s. split; [reflexivity|].
      split; [apply m_star_nil|exact H].
    + rewrite star_loop_S in H.
      destruct (rmatch ic a prev s _) as [y|] eqn:E.
      * injection H as ->. destruct (IHa _ _ _ _ E) as (w1 & r1 & -> & M1 & H1).
        destruct (length r1 <? length (w1 ++ r1)) eqn:El; [|discriminate].
        destruct (IHn _ _ H1) as (w2 & r2 & -> & M2 & H2).
        exists (w1 ++ w2), r2. split; [apply app_assoc|]. split.
        -- apply m_star_cons; [exact M1| |exact M2].
           intros ->. cbn [app] in El. apply Nat.ltb_lt in El. lia.
        -- rewrite last_opt_app. exact H2.
      * exists [], s. split; [reflexivity|]. split; [apply m_star_nil|exact H].
Qed.

(** The matcher is complete for the relation: when the pattern can read a
    word after which the continuation succeeds, the matcher succeeds. *)
Lemma rmatch_complete_gen {A} ic r prev w rest :
  matches ic r prev w rest ->
  (forall (k : option N -> pystr -> option A),
      k (last_opt prev w) rest <> None -> rmatch ic r prev (w ++ rest) k <> None)
  /\ (forall a, r = RStar a ->
      forall n (k : option N -> pystr -> option A),
        length (w ++ rest) <= n -> k (last_opt prev w) rest <> None ->
        star_loop (rmatch ic a) k n prev (w ++ rest) <> None).
Proof.
  induction 1 as [prev rest|p c prev rest Hc|neg items c prev rest Hc|prev rest Hb
                  |a b prev w1 w2 rest M1 [IH1 _] M2 [IH2 _]
                  |a b prev w rest M [IH _]|a b prev w rest M [IH _]
                  |a prev w rest M [IH _]|a prev rest|a prev rest
                  |a prev w1 w2 rest M1 [IH1 _] Hne M2 [_ IH2]].
  - split; [|discriminate]. intros k Hk. exact Hk.
  - split; [|discriminate]. intros k Hk. cbn [rmatch app]. rewrite Hc. exact Hk.
  - split; [|discriminate]. intros k Hk. cbn [rmatch app]. rewrite Hc. exact Hk.
  - split; [|discriminate]. intros k Hk. cbn [rmatch app]. unfold boundary in Hb.
    rewrite Hb. exact Hk.
  - split; [|discriminate]. intros k Hk. cbn [rmatch]. rewrite <- app_assoc.
    apply IH1. apply IH2. rewrite <- last_opt_app. exact Hk.
  - split; [|discriminate]. intros k Hk. cbn [rmatch].
    specialize (IH k Hk). destruct (rmatch ic a prev (w ++ rest) k); [discriminate|].
    contradiction.
  - split; [|discriminate]. intros k Hk. cbn [rmatch].
    destruct (rmatch ic a prev (w ++ rest) k); [discriminate|]. apply IH. exact Hk.
  - split; [|discriminate]. intros k Hk. cbn [rmatch].
    specialize (IH k Hk). destruct (rmatch ic a prev (w ++ rest) k); [discriminate|].
    contradiction.
  - split; [|discriminate]. intros k Hk. cbn [rmatch app].
    destruct (rmatch ic a prev rest k); [discriminate|]. exact Hk.
  - assert (H : forall n (k : option N -> pystr -> option A),
               k prev rest <> None -> star_loop (rmatch ic a) k n prev rest <> None).
    { intros n k Hk. destruct n as [|n]; [exact Hk|]. rewrite star_loop_S.
      destruct (rmatch ic a prev rest _); [discriminate|exact Hk]. }
    split.
    + intros k Hk. rewrite rmatch_star. apply H. exact Hk.
    + intros a' E n k _ Hk. injection E as <-. apply H. exact Hk.
  - assert (H : forall n (k : option N -> pystr -> option A),
               length ((w1 ++ w2) ++ rest) <= n ->
               k (last_opt prev (w1 ++ w2)) rest <> None ->
               star_loop (rmatch ic a) k n prev ((w1 ++ w2) ++ rest) <> None).
    { intros n k Hn Hk. rewrite <- app_assoc in *.
      destruct n as [|n].
      { destruct w1; [congruence|cbn [app length] in Hn; lia]. }
      rewrite star_loop_S.
      match goal with
      | |- match ?x with Some _ => _ | None => _ end <> None => destruct x eqn:E
      end; [discriminate|].
      exfalso. revert E. apply IH1.
      assert (Hl : (length (w2 ++ rest) <? length (w1 ++ w2 ++ rest)) = true).
      { apply Nat.ltb_lt. rewrite (length_app w1). destruct w1; [congruence|].
        cbn [length]. lia. }
      rewrite Hl. apply (IH2 a eq_refl).
      - rewrite (length_app w1) in Hn. destruct w1; [congruence|]. cbn [length] in Hn. lia.
      - rewrite <- last_opt_app. exact Hk. }
    split.
    + intros k Hk. rewrite rmatch_star. apply H; [apply Nat.le_refl|exact Hk].
    + intros a' E n k Hn Hk. injection E as <-. apply H; assumption.
Qed.

Lemma rmatch_complete {A} ic r prev w rest (k : option N -> pystr -> option A) :
  matches ic r prev w rest -> k (last_opt prev w) rest <> None ->
  rmatch ic r prev (w ++ rest) k <> None.
Proof. intros M. apply (proj1 (rmatch_complete_gen ic r prev w rest M)). Qed.

(** *** What can be read off a pattern *)

Lemma consumes_sound ic r prev w rest :
  consumes r = true -> matches ic r prev w rest -> w <> [].
Proof.
  intros Hc M. induction M; cbn [consumes] in Hc; try discriminate Hc.
  - intros E. discriminate E.
  - intros E. discriminate E.
  - apply orb_true_iff in Hc. destruct Hc as [Hc|Hc].
    + specialize (IHM1 Hc). destruct w1; [congruence|discriminate].
    + specialize (IHM2 Hc). destruct w1; [exact IHM2|discriminate].
  - apply andb_true_iff in Hc. apply IHM. tauto.
  - apply andb_true_iff in Hc. apply IHM. tauto.
Qed.

Lemma starts_wb_sound ic r prev w rest :
  starts_wb r = true -> matches ic r prev w rest -> boundary prev (w ++ rest) = true.
Proof.
  intros Hc M. induction M; cbn [starts_wb] in Hc; try discriminate Hc.
  - assumption.
  - rewrite <- app_assoc. apply IHM1. exact Hc.
  - apply andb_true_iff in Hc. apply IHM. tauto.
  - apply andb_true_iff in Hc. apply IHM. tauto.
Qed.

Lemma ends_wb_sound ic r prev w rest :
  ends_wb r = true -> matches ic r prev w rest -> boundary (last_opt prev w) rest = true.
Proof.
  intros Hc M. induction M; cbn [ends_wb] in Hc; try discriminate Hc.
  - assumption.
  - rewrite last_opt_app. apply IHM2. exact Hc.
  - apply andb_true_iff in Hc. apply IHM. tauto.
  - apply andb_true_iff in Hc. apply IHM. tauto.
Qed.

Lemma avoids_sound ic l r prev w rest :
  avoids ic l r = true -> matches ic r prev w rest -> forall c, In c w -> ~ In c l.
Proof.
  intros Hc M. induction M; cbn [avoids] in Hc; intros x Hx Hl.
  - contradiction.
  - destruct Hx as [<-|[]]. rewrite forallb_forall in Hc. specialize (Hc _ Hl).
    rewrite H in Hc. discriminate.
  - destruct Hx as [<-|[]]. rewrite forallb_forall in Hc. specialize (Hc _ Hl).
    rewrite H in Hc. discriminate.
  - contradiction.
  - apply andb_true_iff in Hc. destruct Hc as [Ha Hb]. apply in_app_or in Hx.
    destruct Hx as [Hx|Hx]; [apply (IHM1 Ha x Hx Hl)|apply (IHM2 Hb x Hx Hl)].
  - apply andb_true_iff in Hc. apply (IHM (proj1 Hc) x Hx Hl).
  - apply andb_true_iff in Hc. apply (IHM (proj2 Hc) x Hx Hl).
  - apply (IHM Hc x Hx Hl).
  - contradiction.
  - contradiction.
  - apply in_app_or in Hx.
    destruct Hx as [Hx|Hx]; [apply (IHM1 Hc x Hx Hl)|apply (IHM2 Hc x Hx Hl)].
Qed.

Lemma char_match_cases ic p c :
  char_match ic p c = true ->
  In c (if ic then [p; lower1 p; upper1 p] else [p]).
Proof.
  unfold char_match. destruct ic.
  - intros H. apply N.eqb_eq in H. unfold lower1, upper1 in *.
    unfold is_upper, is_lower in *.
    destruct (N.leb_spec 65 c), (N.leb_spec c 90), (N.leb_spec 65 p), (N.leb_spec p 90),
             (N.leb_spec 97 p), (N.leb_spec p 122);
      cbn [andb] in *; cbn [In]; lia.
  - intros H. apply N.eqb_eq in H. left. exact H.
Qed.

Lemma is_space_letter (c : N) : (48 <= c <= 122)%N -> is_space c = false.
Proof.
  intros H. unfold is_space. cbn [existsb].
  assert (E1 : (c <=? 13)%N = false) by (apply N.leb_gt; lia).
  assert (E2 : (c <=? 32)%N = false) by (apply N.leb_gt; lia).
  assert (E3 : (8192 <=? c)%N = false) by (apply N.leb_gt; lia).
  assert (E4 : forall k, (123 <= k)%N -> (c =? k)%N = false).
  { intros k Hk. apply N.eqb_neq. lia. }
  rewrite E1, E2, E3, !andb_false_r, !E4 by lia. reflexivity.
Qed.

Lemma is_space_case (c : N) :
  (is_space (lower1 c) = true -> is_space c = true)
  /\ (is_space (upper1 c) = true -> is_space c = true).
Proof.
  unfold lower1, upper1, is_upper, is_lower. split.
  - destruct (N.leb_spec 65 c), (N.leb_spec c 90); cbn [andb]; try (intros Hs; exact Hs).
    rewrite (is_space_letter (c + 32)) by lia. discriminate.
  - destruct (N.leb_spec 97 c), (N.leb_spec c 122); cbn [andb]; try (intros Hs; exact Hs).
    rewrite (is_space_letter (c - 32)) by lia. discriminate.
Qed.

Lemma space_class ic items c :
  forallb (fun it => match it with CSpace => true | _ => false end) items = true ->
  in_class ic items c = true -> is_space c = true.
Proof.
  intros Hall. unfold in_class.
  assert (H : forall x, existsb (in_item x) items = true -> is_space x = true).
  { intros x Hx. apply existsb_exists in Hx. destruct Hx as (it & Hit & Hx).
    rewrite forallb_forall in Hall. specialize (Hall it Hit).
    destruct it; try discriminate. exact Hx. }
  intros Hc. apply orb_true_iff in Hc. destruct Hc as [Hc|Hc]; [apply H; exact Hc|].
  apply andb_true_iff in Hc. destruct Hc as [_ Hc]. apply orb_true_iff in Hc.
  destruct Hc as [Hc|Hc]; apply H in Hc.
  - apply (proj1 (is_space_case c) Hc).
  - apply (proj2 (is_space_case c) Hc).
Qed.

Lemma needs_sound ic wt r prev w rest :
  needs ic wt r = true -> matches ic r prev w rest ->
  exists c, In c w /\ sat wt c = true.
Proof.
  intros Hc M. induction M; cbn [needs] in Hc; try discriminate Hc.
  - exists c. split; [left; reflexivity|]. rewrite forallb_forall in Hc.
    apply Hc. apply char_match_cases. exact H.
  - apply andb_true_iff in Hc. destruct Hc as [Hneg Hc].
    destruct neg; [discriminate|]. cbn [xorb] in H.
    destruct wt; [discriminate|]. exists c. split; [left; reflexivity|].
    cbn [sat]. apply (space_class ic items c Hc H).
  - apply orb_true_iff in Hc. destruct Hc as [Hc|Hc].
    + destruct (IHM1 Hc) as (c & Hin & Hs). exists c. split; [|exact Hs].
      apply in_or_app. left. exact Hin.
    + destruct (IHM2 Hc) as (c & Hin & Hs). exists c. split; [|exact Hs].
      apply in_or_app. right. exact Hin.
  - apply andb_true_iff in Hc. apply IHM. tauto.
  - apply andb_true_iff in Hc. apply IHM. tauto.
Qed.

End Matching.

(** ** redact_pii: the text between the tokens *)

Section Tokens.

Import Re.

(** ** Reading the relation *)

Lemma beside_boundary p' out p s :
  beside p' out p s -> boundary p' out = true -> boundary p s = true.
Proof. intros H. destruct H; assumption. Qed.

Lemma matches_beside ic r p' w u' :
  matches ic r p' w u' -> avoids ic brackets r = true ->
  forall p s, beside p' (w ++ u') p s ->
  exists u, s = w ++ u /\ matches ic r p w u
            /\ beside (last_opt p' w) u' (last_opt p w) u.
Proof.
  induction 1 as [p' u'|p0 c p' u' Hc|neg items c p' u' Hc|p' u' Hb
                  |a b p' w1 w2 u' M1 IH1 M2 IH2
                  |a b p' w u' M IH|a b p' w u' M IH
                  |a p' w u' M IH|a p' u'|a p' u'
                  |a p' w1 w2 u' M1 IH1 Hne M2 IH2]; intros Hav p s Hs; cbn [avoids] in Hav.
  - exists s. split; [reflexivity|]. split; [constructor|exact Hs].
  - cbn [app] in Hs. inversion Hs as [| ? ? ? ? ? Hin _|? ? ? ? s' _ Hs']; subst.
    + exfalso. rewrite forallb_forall in Hav. specialize (Hav c Hin).
      rewrite Hc in Hav. discriminate.
    + exists s'. split; [reflexivity|]. split; [constructor; exact Hc|exact Hs'].
  - cbn [app] in Hs. inversion Hs as [| ? ? ? ? ? Hin _|? ? ? ? s' _ Hs']; subst.
    + exfalso. rewrite forallb_forall in Hav. specialize (Hav c Hin).
      rewrite Hc in Hav. discriminate.
    + exists s'. split; [reflexivity|]. split; [constructor; exact Hc|exact Hs'].
  - exists s. split; [reflexivity|]. split; [|exact Hs].
    constructor. apply (beside_boundary _ _ _ _ Hs Hb).
  - apply andb_true_iff in Hav. destruct Hav as [Ha Hb].
    rewrite <- app_assoc in Hs.
    destruct (IH1 Ha p s Hs) as (u1 & -> & N1 & S1).
    destruct (IH2 Hb _ _ S1) as (u & -> & N2 & S2).
    exists u. split; [apply app_assoc|]. split; [constructor; assumption|].
    rewrite !last_opt_app. exact S2.
  - apply andb_true_iff in Hav. destruct (IH (proj1 Hav) p s Hs) as (u & -> & N1 & S1).
    exists u. split; [reflexivity|]. split; [apply m_alt_l; exact N1|exact S1].
  - apply andb_true_iff in Hav. destruct (IH (proj2 Hav) p s Hs) as (u & -> & N1 & S1).
    exists u. split; [reflexivity|]. split; [apply m_alt_r; exact N1|exact S1].
  - destruct (IH Hav p s Hs) as (u & -> & N1 & S1).
    exists u. split; [reflexivity|]. split; [apply m_opt_some; exact N1|exact S1].
  - exists s. split; [reflexivity|]. split; [apply m_opt_none|exact Hs].
  - exists s. split; [reflexivity|]. split; [apply m_star_nil|exact Hs].
  - rewrite <- app_assoc in Hs.
    destruct (IH1 Hav p s Hs) as (u1 & -> & N1 & S1).
    destruct (IH2 Hav _ _ S1) as (u & -> & N2 & S2).
    exists u. split; [apply app_assoc|]. split; [apply m_star_cons; assumption|].
    rewrite !last_opt_app. exact S2.
Qed.

(** ** A match as [match_here] reports it *)

Lemma match_here_sound ic r prev s rest :
  match_here ic r prev s false = Some rest ->
  exists w, s = w ++ rest /\ matches ic r prev w rest.
Proof.
  unfold match_here. intros H. apply rmatch_sound in H.
  destruct H as (w & u & -> & M & Hk). cbn [andb] in Hk. injection Hk as <-.
  exists w. split; [reflexivity|exact M].
Qed.

Lemma match_here_complete ic r prev w rest :
  matches ic r prev w rest -> match_here ic r prev (w ++ rest) false <> None.
Proof.
  intros M. unfold match_here. apply (rmatch_complete ic r prev w rest _ M).
  cbn [andb]. discriminate.
Qed.

Lemma matched_app (w rest : pystr) : matched (w ++ rest) rest = w.
Proof.
  unfold matched. rewrite length_app.
  replace (length w + length rest - length rest) with (length w) by lia.
  rewrite firstn_app, firstn_all, Nat.sub_diag. cbn [firstn]. apply app_nil_r.
Qed.

(** At a position a consuming pattern finds nothing, or one match that is
    not empty. *)
Lemma matches_here_cases ic r prev s :
  consumes r = true ->
  (match_here ic r prev s false = None /\ matches_here ic r prev s = ([], 0))
  \/ (exists c m rest,
        s = (c :: m) ++ rest /\ matches ic r prev (c :: m) rest
        /\ matches_here ic r prev s = ([c :: m], S (length m))).
Proof.
  intros Hc. unfold matches_here.
  destruct (match_here ic r prev s false) as [rest|] eqn:E; [right|left; split; reflexivity].
  destruct (match_here_sound _ _ _ _ _ E) as (w & -> & M).
  rewrite matched_app. pose proof (consumes_sound _ _ _ _ _ Hc M) as Hne.
  destruct w as [|c m]; [congruence|].
  exists c, m, rest. split; [reflexivity|]. split; [exact M|reflexivity].
Qed.

Lemma match_here_nil ic r prev ne :
  consumes r = true -> match_here ic r prev [] ne = None.
Proof.
  intros Hc. unfold match_here.
  destruct (rmatch ic r prev [] _) as [x|] eqn:E; [|reflexivity].
  apply rmatch_sound in E. destruct E as (w & u & E & M & _).
  pose proof (consumes_sound _ _ _ _ _ Hc M) as Hne.
  destruct w; [congruence|discriminate E].
Qed.

(** ** No rule touches a token *)

Lemma word_range (c : N) : is_word c = true -> (48 <= c <= 122)%N.
Proof.
  unfold is_word, is_upper, is_lower, is_digit. intros H.
  apply orb_true_iff in H. destruct H as [H|H]; [|apply N.eqb_eq in H; lia].
  apply orb_true_iff in H. destruct H as [H|H].
  - apply orb_true_iff in H.
    destruct H as [H|H]; apply andb_true_iff in H; destruct H as [H1 H2];
      apply N.leb_le in H1; apply N.leb_le in H2; lia.
  - apply andb_true_iff in H. destruct H as [H1 H2].
    apply N.leb_le in H1. apply N.leb_le in H2. lia.
Qed.

Lemma word_not_space (c : N) : is_word c = true -> is_space c = false.
Proof. intros H. apply is_space_letter. apply word_range. exact H. Qed.

(** A word without [c] at the head of [x ++ c :: y] lies inside [x]. *)
Lemma prefix_before (c : N) (w : pystr) : forall u x y,
  w ++ u = x ++ c :: y -> ~ In c w -> exists x2, x = w ++ x2 /\ u = x2 ++ c :: y.
Proof.
  induction w as [|a w IH]; intros u x y E Hn.
  - exists x. split; [reflexivity|exact E].
  - destruct x as [|b x].
    + cbn [app] in E. injection E as -> _. exfalso. apply Hn. left. reflexivity.
    + cbn [app] in E. injection E as -> E.
      destruct (IH u x y E) as (x2 & -> & ->).
      { intros H. apply Hn. right. exact H. }
      exists x2. split; reflexivity.
Qed.

Lemma last_opt_word prev (w : pystr) :
  w <> [] -> forallb is_word w = true -> word_opt (last_opt prev w) = true.
Proof.
  intros Hne Hw. unfold last_opt. destruct (rev w) as [|c l] eqn:E.
  - exfalso. apply Hne. rewrite <- (rev_involutive w), E. reflexivity.
  - cbn [word_opt]. rewrite forallb_forall in Hw. apply Hw.
    apply in_rev. rewrite E. left. reflexivity.
Qed.

(** Inside a token no match starts. *)
Lemma no_match_in_token ic r k post prev :
  rule_ok ic r = true -> token_like k ->
  forall k1 k2, k = k1 ++ k2 -> k2 <> [] ->
    match_here ic r (last_opt prev k1) (k2 ++ post) false = None.
Proof.
  intros Hok (word & -> & Hword & Hus) k1 k2 E Hne.
  unfold rule_ok in Hok.
  apply andb_true_iff in Hok. destruct Hok as [Hok Hkind].
  apply andb_true_iff in Hok. destruct Hok as [Hok Hav].
  apply andb_true_iff in Hok. destruct Hok as [Hok Hend].
  apply andb_true_iff in Hok. destruct Hok as [Hcons Hstart].
  destruct (match_here ic r (last_opt prev k1) (k2 ++ post) false) as [rest|] eqn:Em;
    [exfalso|reflexivity].
  destruct (match_here_sound _ _ _ _ _ Em) as (w & Es & M).
  pose proof (consumes_sound _ _ _ _ _ Hcons M) as Hw.
  pose proof (avoids_sound _ _ _ _ _ _ Hav M) as Hbr.
  destruct w as [|c w]; [congruence|].
  destruct k1 as [|b k1].
  { (* at the opening bracket *)
    cbn [app] in E. subst k2. cbn [app] in Es. injection Es as <- _.
    apply (Hbr 91%N); [left; reflexivity|left; reflexivity]. }
  cbn [app] in E. injection E as <- E.
  (* k1 ++ k2 is the word and the closing bracket *)
  assert (Hk2 : exists w2, k2 = w2 ++ [93%N] /\ word = k1 ++ w2).
  { destruct (exists_last Hne) as (w2 & z & ->).
    rewrite app_assoc in E. apply app_inj_tail in E. destruct E as [E <-].
    exists w2. split; [reflexivity|exact E]. }
  destruct Hk2 as (w2 & -> & ->).
  rewrite <- app_assoc in Es. cbn [app] in Es.
  destruct (prefix_before 93%N (c :: w) rest w2 post (eq_sym Es)) as (w3 & -> & ->).
  { intros H. apply (Hbr 93%N H). right. left. reflexivity. }
  rewrite forallb_app in Hword. apply andb_true_iff in Hword. destruct Hword as [Hk1 Hw2].
  rewrite forallb_app in Hw2. apply andb_true_iff in Hw2. destruct Hw2 as [Hcw Hw3].
  apply orb_true_iff in Hkind. destruct Hkind as [Hkind|Hsp].
  apply orb_true_iff in Hkind. destruct Hkind as [Hu|Hat].
  - (* the pattern reads no underscore: it would read the whole word *)
    pose proof (starts_wb_sound _ _ _ _ _ Hstart M) as Hb1.
    pose proof (ends_wb_sound _ _ _ _ _ Hend M) as Hb2.
    unfold boundary in Hb1, Hb2. cbn [app hd_error word_opt] in Hb1.
    assert (Hc : is_word c = true) by (cbn [forallb] in Hcw; apply andb_true_iff in Hcw; tauto).
    rewrite Hc in Hb1.
    assert (E1 : k1 = []).
    { destruct k1 as [|x k1]; [reflexivity|]. exfalso.
      change (last_opt prev (91%N :: x :: k1)) with (last_opt prev ([91%N] ++ (x :: k1))) in Hb1.
      rewrite last_opt_app, (last_opt_word _ (x :: k1)) in Hb1;
        [discriminate|discriminate|exact Hk1]. }
    assert (E3 : w3 = []).
    { destruct w3 as [|x w3]; [reflexivity|]. exfalso.
      rewrite (last_opt_word _ (c :: w)) in Hb2; [|discriminate|exact Hcw].
      cbn [app hd_error word_opt forallb] in Hb2, Hw3.
      apply andb_true_iff in Hw3. destruct Hw3 as [Hx _]. rewrite Hx in Hb2. discriminate. }
    subst k1 w3. rewrite app_nil_r in Hus. cbn [app] in Hus.
    apply (avoids_sound _ _ _ _ _ _ Hu M 95%N Hus). left. reflexivity.
  - (* the pattern needs an at sign *)
    destruct (needs_sound _ _ _ _ _ _ Hat M) as (x & Hx & Hs). cbn [sat] in Hs.
    apply N.eqb_eq in Hs. subst x. rewrite forallb_forall in Hcw.
    specialize (Hcw _ Hx). discriminate Hcw.
  - (* the pattern needs a space *)
    destruct (needs_sound _ _ _ _ _ _ Hsp M) as (x & Hx & Hs). cbn [sat] in Hs.
    rewrite forallb_forall in Hcw. specialize (Hcw _ Hx).
    rewrite (word_not_space _ Hcw) in Hs. discriminate.
Qed.

(** The search passes over a token. *)
Lemma search_over_token ic r k post prev :
  rule_ok ic r = true -> token_like k ->
  search_from ic r prev (k ++ post) = search_from ic r (Some 93%N) post.
Proof.
  intros Hok Hk.
  assert (H : forall k2 k1, k = k1 ++ k2 ->
            search_from ic r (last_opt prev k1) (k2 ++ post)
            = search_from ic r (last_opt prev k) post).
  { induction k2 as [|c k2 IH]; intros k1 E.
    - rewrite app_nil_r in E. subst k1. reflexivity.
    - pose proof (no_match_in_token ic r k post prev Hok Hk k1 (c :: k2) E) as Hn.
      cbn [app] in Hn. cbn [app search_from]. rewrite Hn by discriminate.
      specialize (IH (k1 ++ [c])). rewrite <- app_assoc in IH. specialize (IH E).
      rewrite last_opt_app in IH. exact IH. }
  specialize (H k [] eq_refl). cbn [last_opt rev] in H. rewrite H.
  destruct Hk as (word & -> & _).
  change (91%N :: word ++ [93%N]) with ((91%N :: word) ++ [93%N]).
  rewrite last_opt_app. reflexivity.
Qed.

(** ** The scan and the text it leaves *)

Lemma rule_ok_parts ic r :
  rule_ok ic r = true ->
  consumes r = true /\ starts_wb r = true /\ ends_wb r = true
  /\ avoids ic brackets r = true.
Proof.
  unfold rule_ok. intros H.
  apply andb_true_iff in H. destruct H as [H _].
  apply andb_true_iff in H. destruct H as [H H4].
  apply andb_true_iff in H. destruct H as [H H3].
  apply andb_true_iff in H. destruct H as [H1 H2]. tauto.
Qed.

Lemma subst_scan_nil ic r mk prev skip :
  consumes r = true -> subst_scan ic r mk prev [] skip = [].
Proof.
  intros Hc. destruct skip as [|k]; [|reflexivity]. cbn [subst_scan].
  destruct (matches_here_cases ic r prev [] Hc) as [[_ E]|(c & m & rest & E & _)];
    [|discriminate E].
  rewrite E. reflexivity.
Qed.

Lemma subst_scan_miss ic r mk prev c s :
  matches_here ic r prev (c :: s) = ([], 0) ->
  subst_scan ic r mk prev (c :: s) 0 = c :: subst_scan ic r mk (Some c) s 0.
Proof. intros E. cbn [subst_scan]. rewrite E. reflexivity. Qed.

Lemma subst_scan_hit ic r mk prev c s m :
  matches_here ic r prev (c :: s) = ([c :: m], S (length m)) ->
  subst_scan ic r mk prev (c :: s) 0
  = mk (c :: m) ++ subst_scan ic r mk (Some c) s (length m).
Proof.
  intros E. cbn [subst_scan]. rewrite E. cbn [flat_map]. rewrite app_nil_r. reflexivity.
Qed.

Lemma token_head (k : pystr) : token_like k -> exists k', k = 91%N :: k'.
Proof. intros (word & -> & _). exists (word ++ [93%N]). reflexivity. Qed.

(** Between two matches the redacted text stands beside the text. *)
Lemma subst_beside ic r mk :
  rule_ok ic r = true -> (forall m, token_like (mk m)) ->
  forall s prev prev',
    state_ok prev prev' s 0 ->
    beside prev' (subst_scan ic r mk prev s 0) prev s.
Proof.
  intros Hok Hmk. destruct (rule_ok_parts _ _ Hok) as (Hc & Hst & _ & _).
  induction s as [|c s IH]; intros prev prev' Hs; cbn [state_ok] in Hs.
  - rewrite subst_scan_nil by exact Hc. apply beside_nil.
    destruct Hs as [->|[Hw _]]; [intros H; exact H|].
    unfold boundary. cbn [hd_error word_opt]. rewrite Hw. discriminate.
  - assert (Hb : forall out, boundary prev' (c :: out) = true ->
                             boundary prev (c :: s) = true).
    { intros out. destruct Hs as [->|[Hw Hb]]; [intros H; exact H|intros _; exact Hb]. }
    destruct (matches_here_cases ic r prev (c :: s) Hc)
      as [[_ E]|(c0 & m & rest & Es & M & E)].
    + rewrite (subst_scan_miss _ _ _ _ _ _ E).
      apply beside_char; [apply Hb|]. apply IH. left. reflexivity.
    + cbn [app] in Es. injection Es as <- Es.
      rewrite (subst_scan_hit _ _ _ _ _ _ _ E).
      destruct (token_head _ (Hmk (c :: m))) as (k' & Ek). rewrite Ek. cbn [app].
      apply beside_stop; [left; reflexivity|]. intros _.
      pose proof (starts_wb_sound _ _ _ _ _ Hst M) as H. cbn [app] in H.
      rewrite <- Es in H. exact H.
Qed.

Lemma search_from_false ic r prev s :
  search_from ic r prev s = false ->
  match_here ic r prev s false = None
  /\ (forall c s', s = c :: s' -> search_from ic r (Some c) s' = false).
Proof.
  destruct s as [|c s]; cbn [search_from];
    destruct (match_here ic r prev _ false); try discriminate.
  - intros _. split; [reflexivity|]. intros c s' E. discriminate E.
  - intros H. split; [reflexivity|]. intros c' s' E. injection E as <- <-. exact H.
Qed.

(** The redacted text holds no match of a rule that had none in the gaps
    of the text. *)
Lemma subst_clear ic r mk ic0 r0 :
  rule_ok ic r = true -> rule_ok ic0 r0 = true -> (forall m, token_like (mk m)) ->
  forall s prev prev' skip,
    state_ok prev prev' s skip ->
    (ic0 = ic /\ r0 = r) \/ search_from ic0 r0 prev s = false ->
    search_from ic0 r0 prev' (subst_scan ic r mk prev s skip) = false.
Proof.
  intros Hok Hok0 Hmk.
  destruct (rule_ok_parts _ _ Hok) as (Hc & Hst & Hen & _).
  destruct (rule_ok_parts _ _ Hok0) as (Hc0 & _ & _ & Hav0).
  induction s as [|c s IH]; intros prev prev' skip Hs HG.
  - rewrite subst_scan_nil by exact Hc. cbn [search_from].
    rewrite match_here_nil by exact Hc0. reflexivity.
  - assert (HG' : (ic0 = ic /\ r0 = r) \/ search_from ic0 r0 (Some c) s = false).
    { destruct HG as [HG|HG]; [left; exact HG|right].
      apply (proj2 (search_from_false _ _ _ _ HG) c s eq_refl). }
    destruct skip as [|k].
    + (* between matches *)
      destruct (matches_here_cases ic r prev (c :: s) Hc)
        as [[En E]|(c0 & m & rest & Es & M & E)].
      * rewrite (subst_scan_miss _ _ _ _ _ _ E). cbn [search_from].
        assert (Hnone : match_here ic0 r0 prev' (c :: subst_scan ic r mk (Some c) s 0) false
                        = None).
        { destruct (match_here ic0 r0 prev' _ false) as [rest'|] eqn:Em; [exfalso|reflexivity].
          destruct (match_here_sound _ _ _ _ _ Em) as (w & Ew & M0).
          pose proof (subst_beside ic r mk Hok Hmk (c :: s) prev prev' Hs) as Hbes.
          rewrite (subst_scan_miss _ _ _ _ _ _ E), Ew in Hbes.
          destruct (matches_beside _ _ _ _ _ M0 Hav0 _ _ Hbes) as (u & Eu & M1 & _).
          pose proof (match_here_complete _ _ _ _ _ M1) as Hsome. rewrite <- Eu in Hsome.
          destruct HG as [[-> ->]|HG]; [congruence|].
          apply Hsome. apply (proj1 (search_from_false _ _ _ _ HG)). }
        rewrite Hnone. apply IH; [left; reflexivity|exact HG'].
      * cbn [app] in Es. injection Es as <- Es.
        rewrite (subst_scan_hit _ _ _ _ _ _ _ E).
        rewrite (search_over_token ic0 r0 _ _ prev' Hok0 (Hmk (c :: m))).
        apply IH; [|exact HG'].
        pose proof (ends_wb_sound _ _ _ _ _ Hen M) as Hb.
        change (c :: m) with ([c] ++ m) in Hb. rewrite last_opt_app in Hb.
        cbn [last_opt rev app] in Hb.
        destruct m as [|x m].
        -- cbn [length state_ok]. right. split; [reflexivity|].
           cbn [app] in Es. subst s. exact Hb.
        -- cbn [length state_ok]. split; [reflexivity|]. subst s.
           split; [rewrite length_app; cbn [length]; lia|].
           change (S (length m)) with (length (x :: m)).
           rewrite firstn_app, firstn_all, Nat.sub_diag. cbn [firstn].
           rewrite app_nil_r, skipn_app, skipn_all, Nat.sub_diag. cbn [skipn app].
           exact Hb.
    + (* inside a match *)
      cbn [subst_scan]. apply IH; [|exact HG'].
      cbn [state_ok] in Hs. destruct Hs as (Hw & Hlen & Hb). cbn [length] in Hlen.
      cbn [firstn skipn] in Hb.
      change (c :: firstn k s) with ([c] ++ firstn k s) in Hb.
      rewrite last_opt_app in Hb. cbn [last_opt rev app] in Hb.
      destruct k as [|k].
      * cbn [state_ok]. right. split; [exact Hw|]. cbn [firstn skipn last_opt rev] in Hb.
        exact Hb.
      * cbn [state_ok]. split; [exact Hw|]. split; [lia|exact Hb].
Qed.

Lemma search_scan ic r :
  forall s prev, search_from ic r prev s = false -> scan ic r prev s 0 = [].
Proof.
  induction s as [|c s IH]; intros prev H;
    destruct (search_from_false _ _ _ _ H) as [Hn Hrest]; cbn [scan];
    unfold matches_here; rewrite Hn.
  - reflexivity.
  - cbn [app Nat.sub]. apply IH. apply (Hrest c s eq_refl).
Qed.

End Tokens.

(** ** redact_pii: redacting twice *)

Section RedactionTwice.

(** ** The text component of [redact_pii] *)

Lemma apply_rule_text ic mk type pattern (st : pystr * list pystr) :
  fst (apply_rule ic mk (type, pattern) st) = rule_text ic mk pattern (fst st).
Proof.
  unfold apply_rule, rule_text.
  generalize (Re.finditer ic pattern (fst st)) as l. intros l.
  destruct st as [text labels]. cbn [fst]. revert text labels.
  induction l as [|o l IH]; intros text labels; [reflexivity|].
  cbn [fold_left fst snd]. apply IH.
Qed.

Lemma table_text ic (mk : string -> pystr -> pystr) (table : list (string * string)) :
  forall st,
    fst (fold_left (fun st rule => apply_rule ic (mk (fst rule)) rule st) table st)
    = pass_text (map (fun rule => (ic, mk (fst rule), snd rule)) table) (fst st).
Proof.
  unfold pass_text.
  induction table as [|[type pattern] table IH]; intros st; [reflexivity|].
  cbn [fold_left map fst snd]. rewrite IH, apply_rule_text. reflexivity.
Qed.

Lemma redact_pii_text (t : pystr) :
  fst (redact_pii true t) = pass_text redaction_rules t.
Proof.
  unfold redact_pii, redaction_rules, pass_text. cbn [negb fst].
  rewrite fold_left_app.
  rewrite (table_text false entity_token sensitive_entities).
  rewrite (table_text true pii_token privacy_patterns). reflexivity.
Qed.

(** ** The rules and their tokens *)

Lemma rules_ok :
  forallb (fun rule => rule_ok (fst (fst rule)) (Re.compile (snd rule))) redaction_rules
  = true.
Proof. vm_compute. reflexivity. Qed.

Lemma types_are_words :
  forallb (fun rule => forallb is_word (upper (u (fst rule))))
          (privacy_patterns ++ sensitive_entities) = true.
Proof. vm_compute. reflexivity. Qed.

Lemma hex_is_word (c : N) : is_hex c = true -> is_word c = true.
Proof.
  unfold is_hex, is_word, is_lower. intros H. apply orb_true_iff in H.
  destruct H as [H|H]; [rewrite H; apply orb_true_iff; left; apply orb_true_r|].
  apply andb_true_iff in H. destruct H as [H1 H2].
  apply N.leb_le in H1. apply N.leb_le in H2.
  assert (E1 : (97 <=? c)%N = true) by (apply N.leb_le; lia).
  assert (E2 : (c <=? 122)%N = true) by (apply N.leb_le; lia).
  rewrite E1, E2. cbn [andb]. rewrite orb_true_r. reflexivity.
Qed.

Lemma forallb_firstn {A} (f : A -> bool) n (l : list A) :
  forallb f l = true -> forallb f (firstn n l) = true.
Proof.
  intros H. rewrite forallb_forall in *. intros x Hx. apply H.
  rewrite <- (firstn_skipn n l). apply in_or_app. left. exact Hx.
Qed.

Lemma pii_token_like type original :
  forallb is_word (upper (u type)) = true -> token_like (pii_token type original).
Proof.
  intros H. exists (upper (u type) ++ u "_REDACTED"). split.
  - unfold pii_token. change (u "[") with [91%N].
    change (u "_REDACTED]") with (u "_REDACTED" ++ [93%N]).
    cbn [app]. rewrite app_assoc. reflexivity.
  - split.
    + rewrite forallb_app, H. vm_compute. reflexivity.
    + apply in_or_app. right. left. reflexivity.
Qed.

Lemma entity_token_like type original :
  forallb is_word (upper (u type)) = true -> token_like (entity_token type original).
Proof.
  intros H.
  exists (upper (u type) ++ 95%N :: firstn 8 (MD5.hexdigest (encode original))). split.
  - unfold entity_token. change (u "[") with [91%N]. change (u "_") with [95%N].
    change (u "]") with [93%N]. cbn [app]. rewrite <- !app_assoc. reflexivity.
  - split.
    + rewrite forallb_app, H. cbn [forallb andb].
      change (is_word 95) with true. cbn [andb].
      destruct (hexdigest_shape (encode original)) as [_ Hhex].
      apply forallb_firstn. rewrite forallb_forall in *.
      intros c Hc. apply hex_is_word. apply Hhex. exact Hc.
    + apply in_or_app. right. left. reflexivity.
Qed.

Lemma rule_tokens rule :
  In rule redaction_rules -> forall original, token_like (snd (fst rule) original).
Proof.
  intros Hin original. pose proof types_are_words as Hw.
  rewrite forallb_app in Hw. apply andb_true_iff in Hw. destruct Hw as [H1 H2].
  rewrite forallb_forall in H1, H2.
  unfold redaction_rules in Hin. apply in_app_or in Hin.
  destruct Hin as [Hin|Hin]; apply in_map_iff in Hin; destruct Hin as (x & <- & Hx);
    cbn [fst snd].
  - apply pii_token_like. apply H1. exact Hx.
  - apply entity_token_like. apply H2. exact Hx.
Qed.

(** ** One rule, then all of them *)

(** After a rule that replaced its matches only, the text holds no match
    of that rule, and none of a rule that found nothing before. *)
Lemma rule_clear rule rule0 (text : pystr) :
  In rule redaction_rules -> In rule0 redaction_rules ->
  str_eqb (rule_text (fst (fst rule)) (snd (fst rule)) (snd rule) text)
          (span_text (fst (fst rule)) (snd (fst rule)) (snd rule) text) = true ->
  rule0 = rule \/ finds_nothing rule0 text ->
  finds_nothing rule0 (rule_text (fst (fst rule)) (snd (fst rule)) (snd rule) text).
Proof.
  intros Hin Hin0 Heq Hfree. apply str_eqb_eq in Heq. rewrite Heq.
  pose proof rules_ok as Hok. rewrite forallb_forall in Hok.
  unfold finds_nothing, span_text.
  apply (subst_clear _ _ _ _ _ (Hok _ Hin) (Hok _ Hin0) (rule_tokens _ Hin)).
  - left. reflexivity.
  - destruct Hfree as [->|H]; [left; split; reflexivity|right; exact H].
Qed.

Lemma pass_clear (todo : list (bool * (pystr -> pystr) * string)) :
  forall done text,
    (forall rule, In rule (done ++ todo) -> In rule redaction_rules) ->
    (forall rule, In rule done -> finds_nothing rule text) ->
    only_matches todo text = true ->
    forall rule, In rule (done ++ todo) -> finds_nothing rule (pass_text todo text).
Proof.
  induction todo as [|[[ic mk] pattern] todo IH]; intros done text Hsub Hdone Hom rule Hin.
  - rewrite app_nil_r in Hin. apply Hdone. exact Hin.
  - cbn [only_matches] in Hom. apply andb_true_iff in Hom. destruct Hom as [Heq Hom].
    unfold pass_text. cbn [fold_left fst snd]. fold (pass_text todo (rule_text ic mk pattern text)).
    assert (Hy : In (ic, mk, pattern) redaction_rules).
    { apply Hsub. apply in_or_app. right. left. reflexivity. }
    apply (IH (done ++ [(ic, mk, pattern)])).
    + intros x Hx. apply Hsub. rewrite <- app_assoc in Hx. exact Hx.
    + intros x Hx. apply in_app_or in Hx.
      apply (rule_clear (ic, mk, pattern) x text Hy).
      * apply Hsub. apply in_or_app.
        destruct Hx as [Hx|[<-|[]]]; [left; exact Hx|right; left; reflexivity].
      * exact Heq.
      * destruct Hx as [Hx|[<-|[]]]; [right; apply Hdone; exact Hx|left; reflexivity].
    + exact Hom.
    + rewrite <- app_assoc. exact Hin.
Qed.

Lemma finds_nothing_finditer ic mk pattern (text : pystr) :
  finds_nothing (ic, mk, pattern) text -> Re.finditer ic pattern text = [].
Proof. unfold finds_nothing, Re.finditer. cbn [fst snd]. apply search_scan. Qed.

(** C3 (as amended).  When, under every rule of the first redaction,
    replacing all occurrences of the matched strings replaces the matches
    and nothing else, the redacted text holds no match of any rule: a
    second redaction returns it as it is, with no label. *)
Theorem redact_pii_idempotent_on_matches (t : pystr) :
  replaces_only_matches t = true ->
  redact_pii true (fst (redact_pii true t)) = (fst (redact_pii true t), [])
  /\ fst (redact_pii true (fst (redact_pii true t))) = fst (redact_pii true t)
  /\ residual_free (fst (redact_pii true t)) = true.
Proof.
  intros H.
  assert (Hall : forall rule, In rule redaction_rules ->
                   finds_nothing rule (pass_text redaction_rules t)).
  { apply (pass_clear redaction_rules [] t).
    - intros rule Hr. exact Hr.
    - intros rule [].
    - exact H. }
  assert (Hfree : residual_free (fst (redact_pii true t)) = true).
  { rewrite redact_pii_text. unfold residual_free.
    apply andb_true_iff. split; apply forallb_forall; intros rule Hr.
    - rewrite (finds_nothing_finditer true (pii_token (fst rule))); [reflexivity|].
      apply Hall. unfold redaction_rules. apply in_or_app. left.
      apply (in_map (fun rule => (true, pii_token (fst rule), snd rule)) _ _ Hr).
    - rewrite (finds_nothing_finditer false (entity_token (fst rule))); [reflexivity|].
      apply Hall. unfold redaction_rules. apply in_or_app. right.
      apply (in_map (fun rule => (false, entity_token (fst rule), snd rule)) _ _ Hr). }
  rewrite (redact_pii_unchanged _ Hfree). split; [reflexivity|]. split; [reflexivity|].
  exact Hfree.
Qed.

Lemma redact_pii_idempotent_witness :
  replaces_only_matches contact_text = true
  /\ fst (redact_pii true contact_text)
     = u "Write to [EMAIL_REDACTED] or call [PHONE_REDACTED]; [PERSON_NAME_68a62bda] will answer."
  /\ redact_pii true (fst (redact_pii true contact_text))
     = (fst (redact_pii true contact_text), []).
Proof.
  assert (H : replaces_only_matches contact_text = true) by (vm_compute; reflexivity).
  split; [exact H|]. split; [vm_compute; reflexivity|].
  exact (proj1 (redact_pii_idempotent_on_matches contact_text H)).
Defined.

(** On the text of the counterexample the first redaction does replace
    more than the matches: the first dotted number is replaced inside the
    second, which was no match there. *)
Example overlapping_addresses_replaced_elsewhere :
  replaces_only_matches overlapping_addresses = false
  /\ span_text true (pii_token "ip_address") "\b(?:\d{1,3}\.){3}\d{1,3}\b"
               overlapping_addresses
     = u "[IP_ADDRESS_REDACTED] a1.[IP_ADDRESS_REDACTED].7.8".
Proof. vm_compute. split; reflexivity. Qed.

End RedactionTwice.

(** ** analyze_task_completion: the confidence *)

Section TaskCompletionBounds.

Import Quality.

(** X10.  The confidence of [analyze_task_completion] is never negative and
    always below 1.  The status is in_progress exactly when none of the
    patterns of the three categories is found, which is also exactly when
    the confidence is 0; a completed status needs at least one match of a
    completed pattern; and no texts at all give in_progress. *)
Theorem completion_confidence_bounds (texts : list pystr) :
  let r := analyze_task_completion texts in
  (0 <= confidence r)%Q /\ (confidence r < 1)%Q
  /\ (status r = "in_progress" <-> Forall (fun kv => snd kv = 0) (scores r))
  /\ (status r = "in_progress" <-> (confidence r == 0)%Q)
  /\ (status r = "completed" -> 1 <= get "completed" (scores r))
  /\ status (analyze_task_completion []) = "in_progress".
Proof.
  intros r. subst r. unfold analyze_task_completion. cbn [confidence status scores].
  rewrite completion_scores_eq.
  set (c := match_count "completed" completion_patterns _).
  set (a := match_count "abandoned" completion_patterns _).
  set (b := match_count "blocked" completion_patterns _).
  destruct (completion_status_cases c a b) as (H1 & H2 & H3 & H4). cbv zeta in *.
  unfold max_value, sum_values. cbn [map snd fold_right list_sum].
  set (m := Nat.max c (Nat.max a (Nat.max b 0))).
  set (t := c + (a + (b + 0)) + 1).
  assert (Hm : m <= c + (a + (b + 0))) by (unfold m; lia).
  assert (Ht : (0 < inject_Z (Z.of_nat t))%Q) by (unfold Qlt; simpl; lia).
  assert (Hzero : (inject_Z (Z.of_nat m) / inject_Z (Z.of_nat t) == 0)%Q <-> m = 0).
  { split.
    - intros E. apply (Qmult_inj_r _ _ (inject_Z (Z.of_nat t))) in E.
      + rewrite Qmult_0_l in E. unfold Qdiv in E.
        rewrite <- Qmult_assoc, (Qmult_comm (/ _)), Qmult_inv_r, Qmult_1_r in E.
        * unfold Qeq in E. simpl in E. lia.
        * intros Hc. rewrite Hc in Ht. apply (Qlt_irrefl 0 Ht).
      + intros Hc. rewrite Hc in Ht. apply (Qlt_irrefl 0 Ht).
    - intros ->. unfold Qdiv. apply Qmult_0_l. }
  split.
  { apply Qle_shift_div_l; [exact Ht|]. rewrite Qmult_0_l. unfold Qle. simpl. lia. }
  split.
  { apply Qlt_shift_div_r; [exact Ht|]. rewrite Qmult_1_l. unfold Qlt. simpl.
    unfold t. lia. }
  assert (Hprog : completion_status [("completed", c); ("abandoned", a); ("blocked", b)]
                  = "in_progress" <-> c = 0 /\ a = 0 /\ b = 0).
  { destruct (Nat.lt_ge_cases (a + b) c) as [Hc|Hc].
    - rewrite (H1 Hc). split; [discriminate|lia].
    - destruct (Nat.eq_0_gt_0_cases a) as [Ha|Ha].
      + destruct (Nat.eq_0_gt_0_cases b) as [Hb|Hb].
        * rewrite (H4 Hc Ha Hb). split; [lia|reflexivity].
        * rewrite (H3 Hc Ha Hb). split; [discriminate|lia].
      + rewrite (H2 Hc Ha). split; [discriminate|lia]. }
  split.
  { rewrite Hprog. split.
    - intros (-> & -> & ->). repeat constructor.
    - intros HF. inversion HF as [|? ? Hc HF1]; subst.
      inversion HF1 as [|? ? Ha HF2]; subst. inversion HF2 as [|? ? Hb _]; subst.
      cbn [snd] in *. tauto. }
  split.
  { rewrite Hprog, Hzero. unfold m. lia. }
  split.
  { intros Hs. cbn [get String.eqb Ascii.eqb Bool.eqb].
    change (get "completed" [("completed", c); ("abandoned", a); ("blocked", b)]) with c.
    destruct (Nat.lt_ge_cases (a + b) c) as [Hc|Hc]; [lia|].
    destruct (Nat.eq_0_gt_0_cases a) as [Ha|Ha].
    - destruct (Nat.eq_0_gt_0_cases b) as [Hb|Hb].
      + rewrite (H4 Hc Ha Hb) in Hs. discriminate.
      + rewrite (H3 Hc Ha Hb) in Hs. discriminate.
    - rewrite (H2 Hc Ha) in Hs. discriminate. }
  vm_compute. reflexivity.
Qed.

End TaskCompletionBounds.

(** ** analyze_collaboration_quality: the order of the messages *)

Section CollaborationOrder.

Import Quality.

Lemma collaboration_score_sum q (messages : list message) :
  In q (map fst collaboration_patterns) ->
  get q (collaboration_scores messages)
  = list_sum (map (fun msg => increments q collaboration_patterns (message_text msg))
                  messages).
Proof.
  intros Hq.
  assert (Hq0 : In q (map fst (map (fun entry : string * list string => (fst entry, 0))
                                   collaboration_patterns))).
  { rewrite map_map. exact Hq. }
  destruct (collaboration_scores_get q messages _ Hq0) as [_ Hg].
  unfold collaboration_scores. unfold message_text in Hg. rewrite Hg.
  assert (H0 : get q (map (fun entry : string * list string => (fst entry, 0))
                          collaboration_patterns) = 0).
  { clear. induction collaboration_patterns as [|e t IH]; [reflexivity|].
    cbn [map get fst snd]. destruct (String.eqb (fst e) q); [reflexivity|exact IH]. }
  rewrite H0. reflexivity.
Qed.

Lemma list_sum_permutation (l1 l2 : list nat) :
  Permutation l1 l2 -> list_sum l1 = list_sum l2.
Proof.
  induction 1 as [|x l l' _ IH|x y l|l l' l'' _ IH1 _ IH2]; simpl; lia.
Qed.

(** X11.  The collaboration quality of a conversation does not depend on the
    order of its messages: two lists with the same messages in any order
    get the same answer. *)
Theorem collaboration_quality_order (messages messages' : list message) :
  Permutation messages messages' ->
  analyze_collaboration_quality messages = analyze_collaboration_quality messages'.
Proof.
  intros HP.
  assert (Hget : forall q, In q (map fst collaboration_patterns) ->
            get q (collaboration_scores messages) = get q (collaboration_scores messages')).
  { intros q Hq. rewrite !collaboration_score_sum by exact Hq.
    apply list_sum_permutation. apply Permutation_map. exact HP. }
  unfold analyze_collaboration_quality, collaboration_decision.
  rewrite (Hget "confrontational"), (Hget "medium"), (Hget "low"), (Hget "high").
  - reflexivity.
  - cbn [map fst collaboration_patterns In]. tauto.
  - cbn [map fst collaboration_patterns In]. tauto.
  - cbn [map fst collaboration_patterns In]. tauto.
  - cbn [map fst collaboration_patterns In]. tauto.
Qed.

Lemma collaboration_quality_order_witness :
  Permutation [blunt_message; polite_message] [polite_message; blunt_message]
  /\ analyze_collaboration_quality [blunt_message; polite_message]
     = analyze_collaboration_quality [polite_message; blunt_message].
Proof.
  split.
  - apply perm_swap.
  - apply (collaboration_quality_order [blunt_message; polite_message]
                                       [polite_message; blunt_message]).
    apply perm_swap.
Defined.

End CollaborationOrder.

(** ** analyze_response_effectiveness *)

Section Effectiveness.

Import Quality.

Lemma quality_patterns_parse : forallb parses quality_patterns = true.
Proof. vm_compute. reflexivity. Qed.


Lemma increments_of_entry q ps (table : list (string * list string)) text :
  NoDup (map fst table) -> In (q, ps) table ->
  increments q table text = matching_patterns ps text.
Proof.
  unfold increments.
  induction table as [|[k v] table IH]; intros Hnd Hin; [contradiction|].
  cbn [map fst snd] in *. inversion Hnd as [|? ? Hn Hnd']; subst.
  change (list_sum (?a :: ?l)) with (a + list_sum l).
  destruct Hin as [E|Hin].
  - inversion E; subst. rewrite String.eqb_refl.
    assert (H0 : list_sum (map (fun entry : string * list string =>
                     if String.eqb (fst entry) q then matching_patterns (snd entry) text
                     else 0) table) = 0).
    { clear -Hn. induction table as [|[k' v'] t IHt]; [reflexivity|].
      cbn [map fst snd] in *. change (list_sum (?a :: ?l)) with (a + list_sum l).
      destruct (String.eqb_spec k' q) as [->|_]; [exfalso; apply Hn; left; reflexivity|].
      rewrite IHt; [reflexivity|]. intros H. apply Hn. right. exact H. }
    rewrite H0. lia.
  - destruct (String.eqb_spec k q) as [->|_].
    + exfalso. apply Hn. change q with (fst (q, ps)). apply in_map. exact Hin.
    + rewrite (IH Hnd' Hin). reflexivity.
Qed.









End Effectiveness.

(** ** calculate_conversation_metrics *)

Section Metrics.

Import Quality.

Lemma count_single (c : N) (s : pystr) :
  count_from [c] s 0 = length (filter (fun x => (x =? c)%N) s)
  /\ (contains [c] s = false -> count_from [c] s 0 = 0).
Proof.
  induction s as [|x s [IH1 IH2]]; [split; reflexivity|].
  cbn [count_from contains starts_with filter length Nat.sub].
  rewrite andb_true_r, (N.eqb_sym c x).
  destruct (N.eqb x c); cbn [length orb].
  - split; [rewrite IH1; reflexivity|discriminate].
  - split; [exact IH1|exact IH2].
Qed.

Lemma question_count (q : nat) (text : pystr) :
  (if contains (u "?") text then q + count text (u "?") else q)
  = q + question_marks text.
Proof.
  change (u "?") with [63%N]. unfold count, question_marks.
  destruct (count_single 63 text) as [H1 H2].
  destruct (contains [63%N] text).
  - rewrite H1. reflexivity.
  - rewrite <- H1, H2 by reflexivity. lia.
Qed.

Lemma user_not_assistant (msg : message) :
  has_role msg "user" = true -> has_role msg "assistant" = false.
Proof.
  unfold has_role. destruct (role msg) as [r|]; [|discriminate].
  intros H. apply str_eqb_eq in H. subst r. vm_compute. reflexivity.
Qed.

(** The state of the loop after a list of messages. *)
Lemma metrics_loop (messages : list message) : forall st,
  let st' := fold_left metrics_step messages st in
  let users := messages_of_role "user" messages in
  let assistants := messages_of_role "assistant" messages in
  st_questions st'
  = st_questions st + list_sum (map (fun msg => question_marks (content_of msg)) users)
  /\ st_code_blocks st'
     = st_code_blocks st
       + list_sum (map (fun msg => count (content_of msg) (u "```")) assistants)
  /\ st_tool_uses st'
     = st_tool_uses st
       + length (filter (fun msg => Re.search true tool_pattern (content_of msg)) assistants)
  /\ st_clarifications st'
     = st_clarifications st
       + length (filter (fun msg => Re.search true clarification_pattern (content_of msg))
                        users)
  /\ st_user_lengths st'
     = st_user_lengths st ++ map (fun msg => length (content_of msg)) users
  /\ st_assistant_lengths st'
     = st_assistant_lengths st ++ map (fun msg => length (content_of msg)) assistants.
Proof.
  induction messages as [|msg messages IH]; intros st.
  - cbn [fold_left messages_of_role filter map list_sum fold_right length].
    unfold list_sum. cbn [fold_right]. rewrite !app_nil_r, !Nat.add_0_r.
    repeat split; reflexivity.
  - cbn [fold_left]. cbv zeta in IH |- *.
    specialize (IH (metrics_step st msg)).
    destruct IH as (I1 & I2 & I3 & I4 & I5 & I6).
    rewrite I1, I2, I3, I4, I5, I6. clear I1 I2 I3 I4 I5 I6.
    unfold messages_of_role. cbn [filter]. unfold metrics_step. fold (content_of msg).
    destruct (has_role msg "user") eqn:Eu.
    + rewrite (user_not_assistant msg Eu).
      cbn [st_questions st_code_blocks st_tool_uses st_clarifications st_user_lengths
           st_assistant_lengths map filter].
      change (list_sum (?a :: ?l)) with (a + list_sum l).
      rewrite question_count.
      destruct (Re.search true clarification_pattern (content_of msg)); cbn [length];
        rewrite <- ?app_assoc; cbn [app]; repeat split; lia || reflexivity.
    + destruct (has_role msg "assistant") eqn:Ea.
      * cbn [st_questions st_code_blocks st_tool_uses st_clarifications st_user_lengths
             st_assistant_lengths map filter].
        change (list_sum (?a :: ?l)) with (a + list_sum l).
        destruct (Re.search true tool_pattern (content_of msg)); cbn [length];
          rewrite <- ?app_assoc; cbn [app]; repeat split; lia || reflexivity.
      * repeat split; reflexivity.
Qed.



(** The metrics of a short exchange: the message of role 'human' is not
    counted. *)
Example conversation_metrics_example :
  let m := calculate_conversation_metrics short_exchange in
  turn_count m = 1 /\ user_questions m = 2 /\ clarification_requests m = 1
  /\ assistant_tool_uses m = 1 /\ assistant_code_blocks m = 0
  /\ (avg_user_length m == 30)%Q /\ (avg_assistant_length m == 19)%Q.
Proof. vm_compute. repeat split; reflexivity. Qed.

End Metrics.

(** ** analyze_conversation_flow *)

Section Flow.

Import Quality.

Lemma flow_loop_counts (rest : list timed_message) : forall previous fl,
  let pairs := combine (previous :: rest) rest in
  let fl' := flow_loop previous rest fl in
  interruptions fl'
  = interruptions fl + length (filter (fun p => same_role p && by_user (snd p)) pairs)
  /\ monologues fl'
     = monologues fl + length (filter (fun p => same_role p && negb (by_user (snd p))) pairs)
  /\ quick_responses fl'
     = quick_responses fl + length (filter (gap_below 60000000) pairs)
  /\ long_gaps fl'
     = long_gaps fl
       + length (filter (fun p => negb (gap_below 60000000 p) && gap_above 3600000000 p)
                        pairs).
Proof.
  induction rest as [|current rest IH]; intros previous fl.
  - cbn [combine filter length flow_loop]. rewrite !Nat.add_0_r.
    repeat split; reflexivity.
  - cbv zeta in IH |- *. cbn [flow_loop].
    destruct (IH current (flow_step previous current fl)) as (I1 & I2 & I3 & I4).
    rewrite I1, I2, I3, I4. clear I1 I2 I3 I4 IH.
    change (combine (previous :: current :: rest) (current :: rest))
      with ((previous, current) :: combine (current :: rest) rest).
    cbn [filter]. unfold same_role, by_user, gap_below, gap_above, flow_step.
    cbn [fst snd].
    destruct (role_eqb (tm_role current) (tm_role previous));
      destruct (role_eqb (tm_role current) (Some (u "user")));
      destruct (gap current previous) as [g|];
      try destruct (g <? 60000000)%Z; try destruct (3600000000 <? g)%Z;
      cbn [andb negb interruptions monologues quick_responses long_gaps length];
      repeat split; lia.
Qed.

Lemma adjacent_length (messages : list timed_message) :
  length (adjacent messages) = length messages - 1.
Proof.
  unfold adjacent. rewrite length_combine.
  destruct messages as [|m l]; cbn [tl length]; lia.
Qed.

(** X14.  [analyze_conversation_flow] looks at each message together with
    the one before it.  A pair with equal roles is an interruption when
    the role is 'user' and a monologue otherwise, also when both messages
    have no role at all; a pair whose two time stamps can be read and
    subtracted is a quick response when the second is less than 60 seconds
    after the first, also when it is earlier than the first, and a long gap
    when it is more than 3600 seconds after.  So the interruptions and the
    monologues together, and the quick responses and the long gaps
    together, are at most the number of messages less one, and fewer than
    two messages give four zeros. *)
Theorem conversation_flow_spec (messages : list timed_message) :
  let fl := analyze_conversation_flow messages in
  let pairs := adjacent messages in
  interruptions fl = length (filter (fun p => same_role p && by_user (snd p)) pairs)
  /\ monologues fl = length (filter (fun p => same_role p && negb (by_user (snd p))) pairs)
  /\ quick_responses fl = length (filter (gap_below 60000000) pairs)
  /\ long_gaps fl = length (filter (gap_above 3600000000) pairs)
  /\ interruptions fl + monologues fl <= length messages - 1
  /\ quick_responses fl + long_gaps fl <= length messages - 1
  /\ (length messages < 2 ->
      fl = {| interruptions := 0; monologues := 0; quick_responses := 0; long_gaps := 0 |}).
Proof.
  intros fl pairs.
  assert (Hlong : forall p, (negb (gap_below 60000000 p) && gap_above 3600000000 p)
                            = gap_above 3600000000 p).
  { intros p. unfold gap_below, gap_above. destruct (gap (snd p) (fst p)) as [g|];
      [|reflexivity].
    destruct (Z.ltb_spec g 60000000), (Z.ltb_spec 3600000000 g); cbn [negb andb];
      try reflexivity; lia. }
  assert (H : interruptions fl
              = length (filter (fun p => same_role p && by_user (snd p)) pairs)
              /\ monologues fl
                 = length (filter (fun p => same_role p && negb (by_user (snd p))) pairs)
              /\ quick_responses fl = length (filter (gap_below 60000000) pairs)
              /\ long_gaps fl = length (filter (gap_above 3600000000) pairs)).
  { subst fl pairs. unfold analyze_conversation_flow, adjacent.
    destruct messages as [|first rest].
    - cbn [combine filter length interruptions monologues quick_responses long_gaps].
      repeat split; reflexivity.
    - cbn [tl].
      destruct (flow_loop_counts rest first
                  {| interruptions := 0; monologues := 0; quick_responses := 0;
                     long_gaps := 0 |}) as (I1 & I2 & I3 & I4).
      cbn [interruptions monologues quick_responses long_gaps Nat.add] in I1, I2, I3, I4.
      rewrite (filter_ext _ _ Hlong) in I4.
      repeat split; assumption. }
  destruct H as (H1 & H2 & H3 & H4).
  split; [exact H1|]. split; [exact H2|]. split; [exact H3|]. split; [exact H4|].
  split.
  { rewrite H1, H2, <- adjacent_length. fold pairs.
    apply filter_length_disjoint. intros p Hp.
    apply andb_true_iff in Hp. destruct Hp as [-> ->]. reflexivity. }
  split.
  { rewrite H3, H4, <- adjacent_length. fold pairs.
    apply filter_length_disjoint. intros p. unfold gap_below, gap_above.
    destruct (gap (snd p) (fst p)) as [g|]; [|discriminate].
    intros Hg. apply Z.ltb_lt in Hg. apply Z.ltb_ge. lia. }
  intros Hlen. subst fl. destruct messages as [|a [|b l]]; [reflexivity|reflexivity|].
  cbn [length] in Hlen. lia.
Qed.

(** The example of the documentation: user, user, assistant, assistant,
    user, without time stamps; and two messages without a role that are
    out of order in time. *)
Example conversation_flow_example :
  let say r := {| tm_role := Some (u r); tm_stamp := NoKey |} in
  analyze_conversation_flow [say "user"; say "user"; say "assistant"; say "assistant";
                             say "user"]
  = {| interruptions := 1; monologues := 1; quick_responses := 0; long_gaps := 0 |}
  /\ analyze_conversation_flow out_of_order
     = {| interruptions := 0; monologues := 1; quick_responses := 1; long_gaps := 0 |}.
Proof. vm_compute. split; reflexivity. Qed.

End Flow.

(** ** advanced_analyzer.py: the quality columns *)

Section QualityColumns.

Import Quality Advanced.

Lemma collaboration_empty_text :
  forallb (fun entry => forallb (fun p => negb (Re.search true p [])) (snd entry))
          collaboration_patterns = true.
Proof. vm_compute. reflexivity. Qed.

Lemma matching_patterns_none (ps : list string) (text : pystr) :
  (forall p, In p ps -> Re.search true p text = false) -> matching_patterns ps text = 0.
Proof.
  unfold matching_patterns. induction ps as [|p ps IH]; intros H; [reflexivity|].
  cbn [filter]. rewrite (H p (or_introl eq_refl)). apply IH.
  intros p' Hp'. apply H. right. exact Hp'.
Qed.

Lemma list_sum_zero {A} (f : A -> nat) (l : list A) :
  (forall x, In x l -> f x = 0) -> list_sum (map f l) = 0.
Proof.
  induction l as [|x l IH]; intros H; [reflexivity|].
  cbn [map]. change (list_sum (?a :: ?t)) with (a + list_sum t).
  rewrite (H x (or_introl eq_refl)), IH; [reflexivity|].
  intros y Hy. apply H. right. exact Hy.
Qed.

Lemma record_score (q : string) (rows : list Analyzer.row) :
  In q (map fst collaboration_patterns) ->
  get q (collaboration_scores (map record_of rows)) = 0.
Proof.
  intros Hq. rewrite (collaboration_score_sum q _ Hq).
  apply list_sum_zero. intros msg Hmsg.
  apply in_map_iff in Hmsg. destruct Hmsg as (r & <- & _).
  apply in_map_iff in Hq. destruct Hq as ([q' ps] & Eq & Hin). cbn [fst] in Eq. subst q'.
  rewrite (increments_of_entry q ps collaboration_patterns _ collaboration_keys_nodup Hin).
  apply matching_patterns_none. intros p Hp.
  pose proof collaboration_empty_text as Hall.
  rewrite forallb_forall in Hall. specialize (Hall (q, ps) Hin). cbn [snd] in Hall.
  rewrite forallb_forall in Hall. specialize (Hall p Hp).
  apply negb_true_iff in Hall. exact Hall.
Qed.

Lemma filter_records (rows : list Analyzer.row) (name : string) :
  filter (fun msg => has_role msg name) (map record_of rows)
  = map record_of (filter (fun r => str_eqb (Analyzer.role r) (u name)) rows).
Proof.
  induction rows as [|r rows IH]; [reflexivity|].
  cbn [map filter]. unfold has_role at 1. cbn [record_of role].
  destruct (str_eqb (Analyzer.role r) (u name)); cbn [map]; rewrite IH; reflexivity.
Qed.

(** X15.  The dictionaries that [_add_quality_metrics] hands to the quality
    functions are the rows of the frame, which has no column 'content'.
    So, whatever the messages of a conversation say, its collaboration
    quality is medium and its numbers of questions and of code blocks are
    0; only the turn count depends on the rows: it is the number of rows
    whose role is exactly 'user'. *)
Theorem quality_columns_of_rows (rows : list Analyzer.row) :
  let q := conversation_quality rows in
  collaboration_quality q = "medium"
  /\ conversation_questions q = 0
  /\ conversation_code_blocks q = 0
  /\ conversation_turn_count q
     = length (filter (fun r => str_eqb (Analyzer.role r) (u "user")) rows).
Proof.
  intros q. subst q. unfold conversation_quality.
  cbn [collaboration_quality conversation_questions conversation_code_blocks
       conversation_turn_count].
  split.
  { unfold analyze_collaboration_quality.
    destruct (collaboration_decision_cases (collaboration_scores (map record_of rows)))
      as (_ & _ & _ & H).
    assert (Hin : forall q, In q ["high"; "medium"; "low"; "confrontational"] ->
                            In q (map fst collaboration_patterns)).
    { intros q Hq. exact Hq. }
    rewrite (record_score "confrontational"), (record_score "high"),
      (record_score "medium"), (record_score "low") in H.
    - apply H; lia.
    - apply Hin. cbn [In]. tauto.
    - apply Hin. cbn [In]. tauto.
    - apply Hin. cbn [In]. tauto.
    - apply Hin. cbn [In]. tauto. }
  unfold calculate_conversation_metrics.
  cbn [user_questions assistant_code_blocks turn_count].
  set (st0 := {| st_questions := 0; st_code_blocks := 0; st_tool_uses := 0;
                 st_clarifications := 0; st_user_lengths := [];
                 st_assistant_lengths := [] |}).
  destruct (metrics_loop (map record_of rows) st0) as (I1 & I2 & _).
  rewrite I1, I2. cbn [st0 st_questions st_code_blocks Nat.add].
  split.
  { apply list_sum_zero. intros msg Hmsg. unfold messages_of_role in Hmsg.
    apply filter_In in Hmsg. destruct Hmsg as [Hmsg _].
    apply in_map_iff in Hmsg. destruct Hmsg as (r & <- & _). reflexivity. }
  split.
  { apply list_sum_zero. intros msg Hmsg. unfold messages_of_role in Hmsg.
    apply filter_In in Hmsg. destruct Hmsg as [Hmsg _].
    apply in_map_iff in Hmsg. destruct Hmsg as (r & <- & _). reflexivity. }
  rewrite filter_records, length_map. reflexivity.
Qed.

End QualityColumns.

(** ** identify_conversation_streaks: the shape and the order of the streaks *)

Section StreakShape.

Import Temporal.

Lemma sorted_app_lt (l1 l2 : list Z) :
  StronglySorted Z.lt (l1 ++ l2) ->
  StronglySorted Z.lt l2 /\ (forall a b, In a l1 -> In b l2 -> (a < b)%Z).
Proof.
  induction l1 as [|x l1 IH]; cbn [app]; intros H.
  - split; [exact H|]. intros a b [].
  - apply StronglySorted_inv in H. destruct H as [Hs Hx].
    destruct (IH Hs) as [H2 Hlt]. split; [exact H2|].
    intros a b [<-|Ha] Hb.
    + rewrite Forall_forall in Hx. apply Hx. apply in_or_app. right. exact Hb.
    + apply Hlt; assumption.
Qed.

Lemma in_hd (r : list Z) : r <> [] -> In (hd 0%Z r) r.
Proof. destruct r; [congruence|]. intros _. left. reflexivity. Qed.

Lemma in_last (r : list Z) : r <> [] -> In (last r 0%Z) r.
Proof.
  induction r as [|x r IH]; [congruence|]. intros _.
  destruct r as [|y r]; [left; reflexivity|].
  right. apply IH. discriminate.
Qed.

(** A run of consecutive dates is the interval from its first to its last
    date. *)
Lemma consecutive_interval (r : list Z) :
  r <> [] -> consecutive r ->
  (last r 0 = hd 0 r + Z.of_nat (length r) - 1)%Z
  /\ (forall d, In d r <-> (hd 0 r <= d <= last r 0)%Z)
  /\ NoDup r.
Proof.
  induction r as [|x r IH]; [congruence|]. intros _ Hc.
  destruct r as [|y r].
  - cbn [last hd length]. split; [lia|]. split.
    + intros d. cbn [In]. split; [intros [<-|[]]; lia|intros H; left; lia].
    + constructor; [intros []|constructor].
  - destruct Hc as [Hy Hc].
    destruct (IH ltac:(discriminate) Hc) as (Hl & Hr & Hn).
    change (last (x :: y :: r) 0%Z) with (last (y :: r) 0%Z).
    cbn [hd] in *. cbn [length] in *.
    split; [lia|]. split.
    + intros d. split.
      * intros [<-|Hd]; [lia|]. apply Hr in Hd. lia.
      * intros Hd. destruct (Z.eq_dec d x) as [->|Hne]; [left; reflexivity|].
        right. apply Hr. lia.
    + constructor; [|exact Hn]. intros Hx. apply Hr in Hx. lia.
Qed.

Lemma runs_gapped (rs : list (list Z)) :
  StronglySorted Z.lt (concat rs) ->
  Forall (fun r => r <> [] /\ consecutive r) rs ->
  separated rs ->
  StronglySorted runs_apart rs.
Proof.
  induction rs as [|r1 rs IH]; intros Hs Hf Hsep; [constructor|].
  cbn [concat] in Hs. destruct (sorted_app_lt _ _ Hs) as [Hs' Hlt].
  inversion Hf as [|? ? [Hne1 Hc1] Hf']; subst.
  assert (Hsep' : separated rs).
  { destruct rs as [|r2 rs]; [exact I|]. destruct Hsep as [_ H]. exact H. }
  specialize (IH Hs' Hf' Hsep').
  constructor; [exact IH|].
  destruct rs as [|r2 rs]; [constructor|].
  destruct Hsep as [Hgap _].
  inversion Hf' as [|? ? [Hne2 Hc2] _]; subst.
  assert (H12 : (last r1 0 < hd 0 r2)%Z).
  { apply Hlt; [apply in_last; exact Hne1|].
    cbn [concat]. apply in_or_app. left. apply in_hd. exact Hne2. }
  constructor; [unfold runs_apart; lia|].
  apply StronglySorted_inv in IH. destruct IH as [_ H23].
  eapply Forall_impl; [|exact H23]. intros r3 H3. unfold runs_apart in *.
  destruct (consecutive_interval r2 Hne2 Hc2) as (_ & Hr2 & _).
  pose proof (proj1 (Hr2 (hd 0%Z r2)) (in_hd r2 Hne2)). lia.
Qed.

Lemma runs_of_partition (df : list row) :
  run_partition (active_dates df) (runs_of (active_dates df))
  /\ StronglySorted runs_apart (runs_of (active_dates df)).
Proof.
  assert (H : run_partition (active_dates df) (runs_of (active_dates df))).
  { unfold runs_of, run_partition. destruct (active_dates df) as [|first rest].
    - split; [reflexivity|]. split; [constructor|exact I].
    - destruct (group_runs_partition rest first [first])
        as (H1 & H2 & H3 & _); [discriminate|reflexivity|exact I|].
      split; [exact H1|]. split; [exact H2|exact H3]. }
  split; [exact H|]. destruct H as (H1 & H2 & H3).
  apply runs_gapped; [|exact H2|exact H3].
  rewrite H1. apply active_dates_sorted.
Qed.

(** What the function returns, when it returns. *)
Lemma streaks_result (df : list row) (min_days : Z) (out : list streak) :
  identify_conversation_streaks df min_days = Ok out ->
  out = sort_desc (map (streak_of df)
                       (filter (long_enough min_days) (runs_of (active_dates df)))).
Proof.
  unfold identify_conversation_streaks.
  destruct (runs_of_partition df) as [(Hcat & _ & _) _].
  destruct (Z.ltb_spec (Z.of_nat (length (active_dates df))) min_days) as [Hshort|Hlong].
  - intros H. injection H as <-.
    rewrite (filter_none (long_enough min_days)); [reflexivity|].
    intros r Hr. unfold long_enough. apply Z.leb_gt.
    pose proof (run_length_le r _ Hr) as Hle. rewrite Hcat in Hle. lia.
  - unfold runs_of. destruct (active_dates df) as [|first rest]; [discriminate|].
    intros H. injection H as <-. rewrite streak_loop_runs. reflexivity.
Qed.

Lemma streak_in_result (df : list row) (min_days : Z) (out : list streak) (s : streak) :
  identify_conversation_streaks df min_days = Ok out -> In s out ->
  exists r, In r (runs_of (active_dates df))
            /\ (min_days <= Z.of_nat (length r))%Z
            /\ s = streak_of df r.
Proof.
  intros Hout Hs. apply streaks_result in Hout. subst out.
  apply (Permutation_in _ (Permutation_sym (sort_desc_perm _))) in Hs.
  apply in_map_iff in Hs. destruct Hs as (r & <- & Hr).
  apply filter_In in Hr. destruct Hr as [Hr Hlong].
  exists r. split; [exact Hr|]. split; [|reflexivity].
  unfold long_enough in Hlong. apply Z.leb_le in Hlong. exact Hlong.
Qed.

Lemma dropna_length {A} (l : list (option A)) : length (dropna l) <= length l.
Proof. induction l as [|[x|] l IH]; simpl; lia. Qed.

Lemma in_concat_run (r : list Z) (rs : list (list Z)) (d : Z) :
  In r rs -> In d r -> In d (concat rs).
Proof. intros Hr Hd. apply in_concat. exists r. split; assumption. Qed.

Lemma strongly_sorted_pairs {A} (R : A -> A -> Prop) (l : list A) :
  StronglySorted R l -> forall a b, In a l -> In b l -> a = b \/ R a b \/ R b a.
Proof.
  induction 1 as [|x l Hs IH Hx]; intros a b Ha Hb; [contradiction|].
  rewrite Forall_forall in Hx.
  destruct Ha as [<-|Ha], Hb as [<-|Hb].
  - left. reflexivity.
  - right. left. apply Hx. exact Hb.
  - right. right. apply Hx. exact Ha.
  - apply IH; assumption.
Qed.

(** X16.  Every streak that [identify_conversation_streaks] returns is an
    interval of days: its end is its start plus its length less one day, it
    has at least one day and at least [min_days] days, every day of it has a
    message while the day before its start and the day after its end have
    none, and its message count is at least its length. *)
Theorem streak_shape (df : list row) (min_days : Z) (out : list streak) (s : streak) :
  identify_conversation_streaks df min_days = Ok out -> In s out ->
  (end_date s = start_date s + Z.of_nat (length_days s) - 1)%Z
  /\ 1 <= length_days s
  /\ (min_days <= Z.of_nat (length_days s))%Z
  /\ (forall d, (start_date s <= d <= end_date s)%Z -> active df d)
  /\ ~ active df (start_date s - 1)
  /\ ~ active df (end_date s + 1)
  /\ length_days s <= message_count s.
Proof.
  intros Hout Hs.
  destruct (streak_in_result df min_days out s Hout Hs) as (r & Hr & Hlong & ->).
  destruct (runs_of_partition df) as [(Hcat & Hall & _) Hgap].
  rewrite Forall_forall in Hall. destruct (Hall r Hr) as [Hne Hc].
  destruct (consecutive_interval r Hne Hc) as (Hlast & Hrange & Hnd).
  cbn [streak_of start_date end_date length_days message_count].
  assert (Hact : forall d, In d r -> active df d).
  { intros d Hd. apply active_dates_in. rewrite <- Hcat.
    apply (in_concat_run r); assumption. }
  assert (Hout_of : forall d, active df d -> ~ In d r ->
                      (d <= hd 0 r - 2 \/ last r 0 + 2 <= d)%Z).
  { intros d Hd Hnot. apply active_dates_in in Hd. rewrite <- Hcat in Hd.
    apply in_concat in Hd. destruct Hd as (r' & Hr' & Hd).
    destruct (Hall r' Hr') as [Hne' Hc'].
    destruct (consecutive_interval r' Hne' Hc') as (_ & Hrange' & _).
    apply Hrange' in Hd.
    destruct (strongly_sorted_pairs runs_apart _ Hgap r' r Hr' Hr) as [E|[H|H]].
    - subst r'. exfalso. apply Hnot. apply Hrange. exact Hd.
    - unfold runs_apart in H. lia.
    - unfold runs_apart in H. lia. }
  split; [exact Hlast|].
  split; [destruct r; [congruence|cbn [length]; lia]|].
  split; [exact Hlong|].
  split; [intros d Hd; apply Hact; apply Hrange; exact Hd|].
  split.
  { intros Hd. destruct (Hout_of _ Hd) as [H|H]; [|lia|lia].
    intros Hin. apply Hrange in Hin. lia. }
  split.
  { intros Hd. destruct (Hout_of _ Hd) as [H|H]; [|lia|lia].
    intros Hin. apply Hrange in Hin. lia. }
  unfold messages_between.
  set (inside := fun m : row => match date m with
                                | Some d => ((hd 0 r <=? d) && (d <=? last r 0))%Z
                                | None => false
                                end).
  apply Nat.le_trans with (length (dropna (map date (filter inside df)))).
  - apply NoDup_incl_length; [exact Hnd|].
    intros d Hd. apply dropna_in. destruct (Hact d Hd) as (m & Hm & Edate).
    rewrite <- Edate. apply in_map. apply filter_In. split; [exact Hm|].
    unfold inside. rewrite Edate. apply Hrange in Hd.
    apply andb_true_iff. split; apply Z.leb_le; lia.
  - etransitivity; [apply dropna_length|]. rewrite length_map. apply Nat.le_refl.
Qed.

Lemma streak_shape_witness :
  identify_conversation_streaks week_frame 3
  = Ok [ {| start_date := 4; end_date := 7; length_days := 4; message_count := 5 |};
         {| start_date := 0; end_date := 2; length_days := 3; message_count := 3 |} ]%Z
  /\ ~ active week_frame 3 /\ active week_frame 4.
Proof.
  assert (Hout : identify_conversation_streaks week_frame 3
            = Ok [ {| start_date := 4; end_date := 7; length_days := 4;
                      message_count := 5 |};
                   {| start_date := 0; end_date := 2; length_days := 3;
                      message_count := 3 |} ]%Z) by (vm_compute; reflexivity).
  split; [exact Hout|].
  destruct (streak_shape week_frame 3 _
              {| start_date := 4; end_date := 7; length_days := 4; message_count := 5 |}%Z
              Hout (or_introl eq_refl)) as (_ & _ & _ & Hin & Hbefore & _).
  split; [exact Hbefore|]. apply Hin. cbn [start_date end_date]. lia.
Defined.

(** *** The order of the result *)

Lemma streak_of_run (df : list row) (r : list Z) :
  r <> [] -> consecutive r ->
  start_date (streak_of df r) = hd 0%Z r /\ end_date (streak_of df r) = last r 0%Z
  /\ (start_date (streak_of df r) <= end_date (streak_of df r))%Z.
Proof.
  intros Hne Hc. cbn [streak_of start_date end_date].
  split; [reflexivity|]. split; [reflexivity|].
  destruct (consecutive_interval r Hne Hc) as (_ & Hr & _).
  apply (Hr (hd 0%Z r)). apply in_hd. exact Hne.
Qed.

Lemma filter_strongly_sorted {A} (R : A -> A -> Prop) (f : A -> bool) (l : list A) :
  StronglySorted R l -> StronglySorted R (filter f l).
Proof.
  induction 1 as [|x l Hs IH Hx]; [constructor|].
  cbn [filter]. destruct (f x); [|exact IH].
  constructor; [exact IH|]. rewrite Forall_forall in *.
  intros y Hy. apply filter_In in Hy. apply Hx. tauto.
Qed.

(** The streaks before the sort: in order of time and apart. *)
Lemma streaks_in_time_order (df : list row) (min_days : Z) :
  StronglySorted apart
    (map (streak_of df) (filter (long_enough min_days) (runs_of (active_dates df)))).
Proof.
  destruct (runs_of_partition df) as [(_ & Hall & _) Hgap].
  apply (filter_strongly_sorted _ (long_enough min_days)) in Hgap.
  assert (Hall' : Forall (fun r => r <> [] /\ consecutive r)
                         (filter (long_enough min_days) (runs_of (active_dates df)))).
  { rewrite Forall_forall in *. intros r Hr. apply filter_In in Hr. apply Hall. tauto. }
  clear Hall.
  induction Hgap as [|r rs Hs IH Hr]; [constructor|].
  inversion Hall' as [|? ? _ Hrs]; subst.
  cbn [map]. constructor; [apply IH; exact Hrs|].
  rewrite Forall_forall in *. intros s Hin.
  apply in_map_iff in Hin. destruct Hin as (r' & <- & Hr').
  specialize (Hr r' Hr'). unfold apart, runs_apart in *.
  cbn [streak_of start_date end_date]. exact Hr.
Qed.

Lemma ranked_length (a b : streak) : ranked a b -> length_days b <= length_days a.
Proof. unfold ranked. lia. Qed.

Lemma insert_desc_ranked (x : streak) (l : list streak) :
  StronglySorted ranked l ->
  (forall y, In y l -> (end_date x < start_date y)%Z) ->
  StronglySorted ranked (insert_desc x l).
Proof.
  induction 1 as [|y l Hs IH Hy]; intros Hx.
  - cbn [insert_desc]. constructor; [constructor|constructor].
  - cbn [insert_desc]. destruct (Nat.ltb_spec (length_days x) (length_days y)) as [Hlt|Hge].
    + constructor.
      * apply IH. intros z Hz. apply Hx. right. exact Hz.
      * rewrite Forall_forall in *. intros z Hz.
        apply (Permutation_in _ (Permutation_sym (insert_desc_perm x l))) in Hz.
        destruct Hz as [<-|Hz]; [left; exact Hlt|apply Hy; exact Hz].
    + constructor; [constructor; assumption|].
      rewrite Forall_forall in *. intros z Hz.
      assert (Hlen : length_days z <= length_days y).
      { destruct Hz as [<-|Hz]; [apply Nat.le_refl|apply ranked_length, Hy; exact Hz]. }
      unfold ranked. specialize (Hx z Hz).
      destruct (Nat.eq_dec (length_days x) (length_days z)) as [E|E]; [right|left; lia].
      split; assumption.
Qed.

(** X17.  The streaks that [identify_conversation_streaks] returns never
    touch: between any two of them lies at least one day.  They are listed
    from the longest to the shortest, and streaks of the same length from
    the earliest to the latest. *)
Theorem streaks_apart_and_ranked (df : list row) (min_days : Z) (out : list streak) :
  identify_conversation_streaks df min_days = Ok out ->
  (forall a b, In a out -> In b out -> a = b \/ apart a b \/ apart b a)
  /\ StronglySorted ranked out.
Proof.
  intros Hout. apply streaks_result in Hout. subst out.
  pose proof (streaks_in_time_order df min_days) as Hs.
  set (l := map (streak_of df) (filter (long_enough min_days) (runs_of (active_dates df))))
    in *.
  split.
  - intros a b Ha Hb.
    apply (Permutation_in _ (Permutation_sym (sort_desc_perm l))) in Ha.
    apply (Permutation_in _ (Permutation_sym (sort_desc_perm l))) in Hb.
    apply (strongly_sorted_pairs apart l Hs); assumption.
  - clearbody l. induction Hs as [|x l Hs IH Hx]; [constructor|].
    change (sort_desc (x :: l)) with (insert_desc x (sort_desc l)).
    apply insert_desc_ranked; [exact IH|].
    intros y Hy. apply (Permutation_in _ (Permutation_sym (sort_desc_perm l))) in Hy.
    rewrite Forall_forall in Hx. specialize (Hx y Hy). unfold apart in Hx. lia.
Qed.

Lemma streaks_apart_and_ranked_witness :
  identify_conversation_streaks week_frame 1
  = Ok [ {| start_date := 4; end_date := 7; length_days := 4; message_count := 5 |};
         {| start_date := 0; end_date := 2; length_days := 3; message_count := 3 |} ]%Z
  /\ StronglySorted ranked
       [ {| start_date := 4; end_date := 7; length_days := 4; message_count := 5 |};
         {| start_date := 0; end_date := 2; length_days := 3; message_count := 3 |} ]%Z.
Proof.
  assert (Hout : identify_conversation_streaks week_frame 1
            = Ok [ {| start_date := 4; end_date := 7; length_days := 4;
                      message_count := 5 |};
                   {| start_date := 0; end_date := 2; length_days := 3;
                      message_count := 3 |} ]%Z) by (vm_compute; reflexivity).
  split; [exact Hout|].
  exact (proj2 (streaks_apart_and_ranked week_frame 1 _ Hout)).
Defined.

End StreakShape.

(** ** identify_conversation_streaks: the order of the rows, and the error *)

Section StreakOrder.

Import Temporal.

Lemma sorted_unique (l1 : list Z) : forall l2,
  StronglySorted Z.lt l1 -> StronglySorted Z.lt l2 ->
  (forall x, In x l1 <-> In x l2) -> l1 = l2.
Proof.
  induction l1 as [|x l1 IH]; intros l2 H1 H2 Hin.
  - destruct l2 as [|y l2]; [reflexivity|].
    exfalso. apply (proj2 (Hin y)). left. reflexivity.
  - destruct l2 as [|y l2].
    { exfalso. apply (proj1 (Hin x)). left. reflexivity. }
    apply StronglySorted_inv in H1. destruct H1 as [S1 F1].
    apply StronglySorted_inv in H2. destruct H2 as [S2 F2].
    rewrite Forall_forall in F1, F2.
    assert (E : x = y).
    { destruct (proj1 (Hin x) (or_introl eq_refl)) as [E|Hx]; [symmetry; exact E|].
      destruct (proj2 (Hin y) (or_introl eq_refl)) as [E|Hy]; [exact E|].
      specialize (F1 y Hy). specialize (F2 x Hx). lia. }
    subst y. f_equal. apply IH; [exact S1|exact S2|].
    intros z. split; intros Hz.
    + destruct (proj1 (Hin z) (or_intror Hz)) as [E|H]; [|exact H].
      specialize (F1 z Hz). lia.
    + destruct (proj2 (Hin z) (or_intror Hz)) as [E|H]; [|exact H].
      specialize (F2 z Hz). lia.
Qed.

Lemma active_dates_permutation (df df' : list row) :
  Permutation df df' -> active_dates df = active_dates df'.
Proof.
  intros HP. apply sorted_unique; try apply active_dates_sorted.
  intros d. rewrite !active_dates_in. split; intros (r & Hr & Hd); exists r.
  - split; [apply (Permutation_in _ HP Hr)|exact Hd].
  - split; [apply (Permutation_in _ (Permutation_sym HP) Hr)|exact Hd].
Qed.

Lemma filter_length_permutation {A} (f : A -> bool) (l l' : list A) :
  Permutation l l' -> length (filter f l) = length (filter f l').
Proof.
  induction 1 as [|x l l' _ IH|x y l|l l' l'' _ IH1 _ IH2]; cbn [filter].
  - reflexivity.
  - destruct (f x); cbn [length]; rewrite IH; reflexivity.
  - destruct (f x), (f y); reflexivity.
  - rewrite IH1. exact IH2.
Qed.

(** X18.  [identify_conversation_streaks] does not depend on the order of
    the rows of the frame: the same messages in another order give the
    same streaks, in the same order, or the same error. *)
Theorem streaks_row_order (df df' : list row) (min_days : Z) :
  Permutation df df' ->
  identify_conversation_streaks df min_days = identify_conversation_streaks df' min_days.
Proof.
  intros HP. unfold identify_conversation_streaks.
  rewrite (active_dates_permutation df df' HP).
  destruct (Z.of_nat (length (active_dates df')) <? min_days)%Z; [reflexivity|].
  destruct (active_dates df') as [|first rest]; [reflexivity|].
  rewrite !streak_loop_runs. cbn [app]. f_equal. f_equal.
  apply map_ext. intros r. unfold streak_of. f_equal.
  unfold messages_between. apply filter_length_permutation. exact HP.
Qed.

Lemma streaks_row_order_witness :
  Permutation week_frame week_frame_reversed
  /\ identify_conversation_streaks week_frame 3
     = identify_conversation_streaks week_frame_reversed 3.
Proof.
  split.
  - apply Permutation_rev.
  - apply (streaks_row_order week_frame week_frame_reversed 3). apply Permutation_rev.
Defined.



End StreakOrder.

(** ** detect_pattern_changes: where a change can be reported *)

Section ChangePosition.

Import Temporal.

Lemma pattern_changes_by_index (df : list row) :
  detect_pattern_changes df
  = flat_map (change_at (sort_values df) (moving_average df))
             (seq 1 (length (sort_values df) - 1)).
Proof.
  unfold detect_pattern_changes.
  set (df_sorted := sort_values df). set (score := map sentiment_score df_sorted).
  change (rolling_mean 10 [] score) with (rolling_mean 10 (last_n 10 []) score).
  rewrite (rolling_mean_window 10 score []). cbn [app length].
  change (fun i => zmean (window 10 score i)) with (moving_average df).
  unfold score at 1 2. rewrite length_map.
  destruct df_sorted as [|r rows] eqn:E; [reflexivity|].
  cbn [length seq map diff_abs collect_changes app].
  replace (S (length rows) - 1) with (length rows) by lia.
  apply (collect_changes_at (moving_average df) rows 0 [r]). reflexivity.
Qed.

(** *** The window as a buffer *)

Lemma firstn_snoc (xs : list Z) : forall i,
  i < length xs -> firstn (S i) xs = firstn i xs ++ [nth i xs 0%Z].
Proof.
  induction xs as [|x xs IH]; intros i Hi; [cbn [length] in Hi; lia|].
  destruct i as [|i]; [reflexivity|].
  cbn [length] in Hi. change (firstn (S (S i)) (x :: xs)) with (x :: firstn (S i) xs).
  rewrite IH by lia. reflexivity.
Qed.

Lemma window_last_n (w : nat) (xs : list Z) (i : nat) :
  i < length xs -> window w xs i = last_n w (firstn (S i) xs).
Proof.
  intros Hi. unfold window, last_n. rewrite length_firstn.
  replace (Nat.min (S i) (length xs)) with (S i) by lia. reflexivity.
Qed.

Lemma last_n_length {A} (w : nat) (l : list A) :
  length (last_n w l) = Nat.min w (length l).
Proof. unfold last_n. rewrite length_skipn. lia. Qed.

Lemma last_n_small {A} (w : nat) (l : list A) : length l <= w -> last_n w l = l.
Proof.
  intros H. unfold last_n. replace (length l - w) with 0 by lia. reflexivity.
Qed.

Lemma last_n_full {A} (w : nat) (b : list A) (x : A) :
  length b = w -> 1 <= w -> last_n w (b ++ [x]) = tl b ++ [x].
Proof.
  intros H Hw. unfold last_n. rewrite length_app. cbn [length].
  replace (length b + 1 - w) with 1 by lia.
  destruct b as [|y b]; [cbn [length] in H; lia|reflexivity].
Qed.

Lemma in_part_l {A} (n : nat) (l : list A) (x : A) : In x (firstn n l) -> In x l.
Proof.
  intros H. rewrite <- (firstn_skipn n l). apply in_or_app. left. exact H.
Qed.

Lemma in_part_r {A} (n : nat) (l : list A) (x : A) : In x (skipn n l) -> In x l.
Proof.
  intros H. rewrite <- (firstn_skipn n l). apply in_or_app. right. exact H.
Qed.

(** The two windows that meet at index [i]: a buffer and its successor. *)
Lemma window_step (w : nat) (xs : list Z) (i : nat) :
  1 <= i -> i < length xs ->
  exists b,
    window w xs (i - 1) = b
    /\ window w xs i = last_n w (b ++ [nth i xs 0%Z])
    /\ length b = Nat.min w i
    /\ (forall x, In x b -> In x xs).
Proof.
  intros H1 Hi. exists (last_n w (firstn i xs)).
  split.
  { rewrite window_last_n by lia. replace (S (i - 1)) with i by lia. reflexivity. }
  split.
  { rewrite window_last_n, firstn_snoc, last_n_snoc by lia. reflexivity. }
  split.
  { rewrite last_n_length, length_firstn. lia. }
  intros x Hx. unfold last_n in Hx.
  apply in_part_r in Hx. apply in_part_l in Hx. exact Hx.
Qed.

(** *** The step of a mean of scores *)

Lemma zsum_app (l1 l2 : list Z) : zsum (l1 ++ l2) = (zsum l1 + zsum l2)%Z.
Proof.
  unfold zsum. induction l1 as [|x l1 IH]; cbn [app fold_right]; [reflexivity|].
  rewrite IH. lia.
Qed.

Lemma zsum_bound (l : list Z) :
  Forall is_score l -> (- Z.of_nat (length l) <= zsum l <= Z.of_nat (length l))%Z.
Proof.
  unfold zsum, is_score. induction 1 as [|x l Hx _ IH]; cbn [fold_right length]; lia.
Qed.

Lemma zmean_times (l : list Z) :
  l <> [] -> (zmean l * inject_Z (Z.of_nat (length l)) == inject_Z (zsum l))%Q.
Proof.
  intros Hne. unfold zmean.
  assert (Hn : ~ (inject_Z (Z.of_nat (length l)) == 0)%Q).
  { destruct l; [congruence|]. unfold Qeq. simpl. lia. }
  unfold Qdiv. rewrite <- Qmult_assoc, (Qmult_comm (/ _)), Qmult_inv_r by exact Hn.
  apply Qmult_1_r.
Qed.

Lemma half_step (a b k e : Q) :
  ((a - b) * k == e -> -(2) <= e -> e <= 2 -> 4 <= k -> Qabs (a - b) <= 1 # 2)%Q.
Proof.
  intros E H1 H2 Hk. apply Qabs_Qle_condition. split; nra.
Qed.

Lemma unit_mean (b n t : Q) :
  (b * n == t -> - n <= t -> t <= n -> 0 < n -> -(1) <= b /\ b <= 1)%Q.
Proof. intros E H1 H2 Hn. split; nra. Qed.

(** Appending a score to at least three scores moves the mean by at most
    one half. *)
Lemma mean_grow (b : list Z) (x : Z) :
  Forall is_score b -> is_score x -> 3 <= length b ->
  (Qabs (zmean (b ++ [x]) - zmean b) <= 1 # 2)%Q.
Proof.
  intros Hb Hx Hlen.
  assert (Hne : b <> []) by (destruct b; [cbn [length] in Hlen; lia|discriminate]).
  assert (Hne' : b ++ [x] <> []) by (destruct b; discriminate).
  pose proof (zmean_times b Hne) as Eb.
  pose proof (zmean_times (b ++ [x]) Hne') as Ea.
  rewrite zsum_app, length_app in Ea. cbn [length] in Ea.
  change (zsum [x]) with (x + 0)%Z in Ea.
  rewrite Nat2Z.inj_add, Z.add_0_r, !inject_Z_plus in Ea.
  pose proof (zsum_bound b Hb) as [Hs1 Hs2].
  rewrite Zle_Qle in Hs1, Hs2. rewrite inject_Z_opp in Hs1.
  destruct Hx as [Hx1 Hx2]. rewrite Zle_Qle in Hx1, Hx2.
  assert (Hn : (3 <= inject_Z (Z.of_nat (length b)))%Q).
  { change 3%Q with (inject_Z 3). rewrite <- Zle_Qle. lia. }
  set (n := inject_Z (Z.of_nat (length b))) in *.
  set (t := inject_Z (zsum b)) in *.
  set (qx := inject_Z x) in *.
  change (inject_Z (Z.of_nat 1)) with 1%Q in Ea.
  change (inject_Z (-1)) with (-(1))%Q in Hx1. change (inject_Z 1) with 1%Q in Hx2.
  destruct (unit_mean (zmean b) n t Eb Hs1 Hs2) as [Hb1 Hb2]; [lra|].
  apply (half_step _ _ (n + 1) (qx - zmean b)); [|lra|lra|lra].
  set (ma := zmean (b ++ [x])) in *. set (mb := zmean b) in *.
  clearbody ma mb n t qx. lra.
Qed.

(** Replacing the oldest of ten scores moves the mean by at most one
    half. *)
Lemma mean_slide (b : list Z) (x : Z) :
  Forall is_score b -> is_score x -> 4 <= length b ->
  (Qabs (zmean (tl b ++ [x]) - zmean b) <= 1 # 2)%Q.
Proof.
  intros Hb Hx Hlen.
  destruct b as [|o m]; [cbn [length] in Hlen; lia|]. cbn [tl].
  inversion Hb as [|? ? Ho Hm]; subst.
  assert (Hne' : m ++ [x] <> []) by (destruct m; discriminate).
  pose proof (zmean_times (o :: m) ltac:(discriminate)) as Eb.
  pose proof (zmean_times (m ++ [x]) Hne') as Ea.
  rewrite zsum_app, length_app in Ea. cbn [length] in Ea, Eb, Hlen.
  change (zsum [x]) with (x + 0)%Z in Ea. change (zsum (o :: m)) with (o + zsum m)%Z in Eb.
  replace (length m + 1) with (S (length m)) in Ea by lia.
  rewrite Z.add_0_r, !inject_Z_plus in Ea. rewrite inject_Z_plus in Eb.
  destruct Hx as [Hx1 Hx2]. rewrite Zle_Qle in Hx1, Hx2.
  destruct Ho as [Ho1 Ho2]. rewrite Zle_Qle in Ho1, Ho2.
  assert (Hn : (4 <= inject_Z (Z.of_nat (S (length m))))%Q).
  { change 4%Q with (inject_Z 4). rewrite <- Zle_Qle. lia. }
  set (n := inject_Z (Z.of_nat (S (length m)))) in *.
  set (t := inject_Z (zsum m)) in *.
  set (qx := inject_Z x) in *. set (qo := inject_Z o) in *.
  change (inject_Z (-1)) with (-(1))%Q in Hx1, Ho1.
  change (inject_Z 1) with 1%Q in Hx2, Ho2.
  apply (half_step _ _ n (qx - qo)); [|lra|lra|lra].
  set (ma := zmean (m ++ [x])) in *. set (mb := zmean (o :: m)) in *.
  clearbody ma mb n t qx qo. lra.
Qed.

Lemma sentiment_score_is_score (r : row) : is_score (sentiment_score r).
Proof.
  unfold is_score, sentiment_score.
  destruct (contains (u "Negative") (sentiment r));
    destruct (contains (u "Positive") (sentiment r)); lia.
Qed.

(** From the fourth row on the moving average never moves by more than
    one half. *)
Lemma late_step_small (df : list row) (i : nat) :
  3 <= i -> i < length (sort_values df) ->
  (Qabs (moving_average df i - moving_average df (i - 1)) <= 1 # 2)%Q.
Proof.
  intros H3 Hi. unfold moving_average.
  set (xs := map sentiment_score (sort_values df)).
  assert (Hxs : Forall is_score xs).
  { unfold xs. apply Forall_forall. intros x Hx. apply in_map_iff in Hx.
    destruct Hx as (r & <- & _). apply sentiment_score_is_score. }
  assert (Hlen : i < length xs) by (unfold xs; rewrite length_map; exact Hi).
  destruct (window_step 10 xs i ltac:(lia) Hlen) as (b & -> & -> & Hb & Hin).
  assert (Hbs : Forall is_score b).
  { apply Forall_forall. intros x Hx. rewrite Forall_forall in Hxs. apply Hxs, Hin, Hx. }
  assert (Hx : is_score (nth i xs 0%Z)).
  { rewrite Forall_forall in Hxs. apply Hxs. apply nth_In. exact Hlen. }
  destruct (Nat.lt_ge_cases i 10) as [Hsmall|Hbig].
  - rewrite last_n_small by (rewrite length_app; cbn [length]; lia).
    apply mean_grow; [exact Hbs|exact Hx|lia].
  - rewrite last_n_full by lia.
    apply mean_slide; [exact Hbs|exact Hx|lia].
Qed.

Lemma change_at_late (df : list row) (i : nat) :
  3 <= i -> change_at (sort_values df) (moving_average df) i = [].
Proof.
  intros H3. unfold change_at.
  destruct (nth_error (sort_values df) i) as [r|] eqn:E; [|reflexivity].
  assert (Hi : i < length (sort_values df)).
  { apply nth_error_Some. rewrite E. discriminate. }
  pose proof (late_step_small df i H3 Hi) as Hs.
  apply Qle_bool_iff in Hs. cbv zeta. unfold Qltb at 1. rewrite Hs. reflexivity.
Qed.

Lemma change_at_outside (df : list row) (i : nat) :
  length (sort_values df) <= i -> change_at (sort_values df) (moving_average df) i = [].
Proof.
  intros H. unfold change_at.
  rewrite (proj2 (nth_error_None _ _) H). reflexivity.
Qed.

Lemma flat_map_nil {A B} (f : A -> list B) (l : list A) :
  (forall x, In x l -> f x = []) -> flat_map f l = [].
Proof.
  induction l as [|x l IH]; intros H; [reflexivity|].
  cbn [flat_map]. rewrite (H x (or_introl eq_refl)), IH; [reflexivity|].
  intros y Hy. apply H. right. exact Hy.
Qed.

(** X20.  [detect_pattern_changes] reports at most two changes, and only
    for the second and the third row in the order of the time stamps:
    from the fourth row on, one more score cannot move the mean of the
    window by more than one half. *)
Theorem pattern_changes_position (df : list row) :
  detect_pattern_changes df
  = change_at (sort_values df) (moving_average df) 1
    ++ change_at (sort_values df) (moving_average df) 2
  /\ length (detect_pattern_changes df) <= 2
  /\ (forall c, In c (detect_pattern_changes df) ->
        exists r, (nth_error (sort_values df) 1 = Some r
                   \/ nth_error (sort_values df) 2 = Some r)
                  /\ change_timestamp c = timestamp r)
  /\ (length df < 2 -> detect_pattern_changes df = []).
Proof.
  assert (E : detect_pattern_changes df
              = change_at (sort_values df) (moving_average df) 1
                ++ change_at (sort_values df) (moving_average df) 2).
  { rewrite pattern_changes_by_index.
    set (f := change_at (sort_values df) (moving_average df)).
    assert (Hlate : forall k, flat_map f (seq 3 k) = []).
    { intros k. apply flat_map_nil. intros i Hin. apply in_seq in Hin.
      apply change_at_late. lia. }
    destruct (length (sort_values df)) as [|[|[|n]]] eqn:El.
    - cbn [Nat.sub seq flat_map]. unfold f.
      rewrite !change_at_outside by lia. reflexivity.
    - cbn [Nat.sub seq flat_map]. unfold f.
      rewrite !change_at_outside by lia. reflexivity.
    - cbn [Nat.sub seq flat_map]. unfold f.
      rewrite (change_at_outside df 2) by lia. reflexivity.
    - replace (S (S (S n)) - 1) with (S (S n)) by lia.
      cbn [seq flat_map]. rewrite Hlate, app_nil_r. reflexivity. }
  assert (Hone : forall i c,
            In c (change_at (sort_values df) (moving_average df) i) ->
            exists r, nth_error (sort_values df) i = Some r
                      /\ change_timestamp c = timestamp r).
  { intros i c Hc. unfold change_at in Hc.
    destruct (nth_error (sort_values df) i) as [r|]; [|contradiction].
    exists r. split; [reflexivity|]. cbv zeta in Hc.
    destruct (Qltb _ _) in Hc; [|contradiction].
    destruct Hc as [<-|[]]. reflexivity. }
  assert (Hlen1 : forall i, length (change_at (sort_values df) (moving_average df) i) <= 1).
  { intros i. unfold change_at.
    destruct (nth_error (sort_values df) i) as [r|]; [|cbn [length]; lia].
    cbv zeta. destruct (Qltb _ _); cbn [length]; lia. }
  split; [exact E|].
  split.
  { rewrite E, length_app. pose proof (Hlen1 1). pose proof (Hlen1 2). lia. }
  split.
  { intros c Hc. rewrite E in Hc. apply in_app_or in Hc.
    destruct Hc as [Hc|Hc]; destruct (Hone _ _ Hc) as (r & Hr & Ht); exists r.
    - split; [left; exact Hr|exact Ht].
    - split; [right; exact Hr|exact Ht]. }
  intros Hshort. rewrite E.
  assert (Hl : length (sort_values df) = length df).
  { apply Permutation_length, sort_values_perm. }
  rewrite !change_at_outside by lia. reflexivity.
Qed.

End ChangePosition.

(** ** calculate_engagement_score: the days, and the scores that are no number *)

Section EngagementDays.

Import Temporal.

Lemma sorted_nodup (l : list Z) : StronglySorted Z.lt l -> NoDup l.
Proof.
  induction 1 as [|x l _ IH Hx]; constructor; [|exact IH].
  intros Hin. rewrite Forall_forall in Hx. specialize (Hx x Hin). lia.
Qed.

Lemma indicator_sum (d0 : Z) (ds : list Z) :
  NoDup ds -> In d0 ds ->
  list_sum (map (fun d => if (d0 =? d)%Z then 1 else 0) ds) = 1.
Proof.
  induction 1 as [|d ds Hn Hnd IH]; intros Hin; [contradiction|].
  cbn [map]. change (list_sum (?a :: ?t)) with (a + list_sum t).
  destruct Hin as [->|Hin].
  - rewrite Z.eqb_refl. rewrite list_sum_zero; [reflexivity|].
    intros d Hd. destruct (Z.eqb_spec d0 d) as [->|_]; [contradiction|reflexivity].
  - destruct (Z.eqb_spec d0 d) as [->|_]; [contradiction|]. rewrite (IH Hin). reflexivity.
Qed.

Lemma list_sum_map_add {A} (f g : A -> nat) (l : list A) :
  list_sum (map (fun x => f x + g x) l) = list_sum (map f l) + list_sum (map g l).
Proof.
  induction l as [|x l IH]; [reflexivity|].
  cbn [map]. change (list_sum (?a :: ?t)) with (a + list_sum t) in *. rewrite IH. lia.
Qed.

(** The groups of the days cut the dated rows: their sizes add up. *)
Lemma groups_cover (rows : list row) (ds : list Z) :
  NoDup ds ->
  (forall r d, In r rows -> date r = Some d -> In d ds) ->
  list_sum (map (fun d => length (on_day rows d)) ds) = length (dated rows).
Proof.
  intros Hnd. induction rows as [|r rows IH]; intros Hin.
  - apply list_sum_zero. reflexivity.
  - assert (IH' : list_sum (map (fun d => length (on_day rows d)) ds) = length (dated rows)).
    { apply IH. intros r' d Hr'. apply Hin. right. exact Hr'. }
    destruct (date r) as [d0|] eqn:Ed.
    + assert (E : map (fun d => length (on_day (r :: rows) d)) ds
                  = map (fun d => (if (d0 =? d)%Z then 1 else 0) + length (on_day rows d))
                        ds).
      { apply map_ext. intros d. unfold on_day. cbn [filter]. rewrite Ed.
        destruct (d0 =? d)%Z; reflexivity. }
      rewrite E, list_sum_map_add, IH'.
      rewrite (indicator_sum d0 ds Hnd (Hin r d0 (or_introl eq_refl) Ed)).
      unfold dated. cbn [filter]. rewrite Ed. reflexivity.
    + assert (E : map (fun d => length (on_day (r :: rows) d)) ds
                  = map (fun d => length (on_day rows d)) ds).
      { apply map_ext. intros d. unfold on_day. cbn [filter]. rewrite Ed. reflexivity. }
      rewrite E, IH'. unfold dated. cbn [filter]. rewrite Ed. reflexivity.
Qed.

Lemma dedup_bound (xs : list pystr) : forall acc,
  length (fold_left (fun acc x => if existsb (str_eqb x) acc then acc else acc ++ [x])
                    xs acc)
  <= length acc + length xs.
Proof.
  induction xs as [|x xs IH]; intros acc; cbn [fold_left length]; [lia|].
  destruct (existsb (str_eqb x) acc).
  - specialize (IH acc). lia.
  - specialize (IH (acc ++ [x])). rewrite length_app in IH. cbn [length] in IH. lia.
Qed.

Lemma nunique_le (xs : list pystr) : nunique xs <= length xs.
Proof. unfold nunique, dedup. apply (dedup_bound xs []). Qed.

Lemma engagement_line (df : list row) (m : daily) (s : option Q) :
  In (m, s) (calculate_engagement_score df) ->
  exists d, In d (active_dates df)
            /\ m = {| day := d;
                      day_message_count := length (on_day df d);
                      day_avg_length := mean (map word_count (on_day df d));
                      day_conversation_count :=
                        nunique (map conversation_id (on_day df d)) |}
            /\ In m (daily_metrics df).
Proof.
  unfold calculate_engagement_score. cbv zeta. intros Hin.
  apply in_map_iff in Hin. destruct Hin as (m' & E & Hm). injection E as -> _.
  pose proof Hm as Hm'. unfold daily_metrics in Hm. apply in_map_iff in Hm.
  destruct Hm as (d & <- & Hd). exists d. split; [exact Hd|]. split; [reflexivity|exact Hm'].
Qed.

(** X21.  [calculate_engagement_score] returns one line for every distinct
    date of the frame, in ascending order of the dates; rows without a date
    belong to no line, so a frame without dates gives no line at all.  The
    message counts of the lines add up to the number of rows that have a
    date, and every line has at least one conversation and at most as many
    conversations as messages. *)
Theorem engagement_days (df : list row) :
  let out := calculate_engagement_score df in
  map day_of out = active_dates df
  /\ StronglySorted Z.lt (map day_of out)
  /\ (forall d, In d (map day_of out) <-> active df d)
  /\ list_sum (map (fun line => day_message_count (fst line)) out) = length (dated df)
  /\ (forall m s, In (m, s) out ->
        1 <= day_conversation_count m /\ day_conversation_count m <= day_message_count m)
  /\ ((forall r, In r df -> date r = None) -> out = []).
Proof.
  intros out.
  assert (Hdays : map day_of out = active_dates df).
  { subst out. unfold calculate_engagement_score, daily_metrics, day_of. cbv zeta.
    rewrite !map_map. cbn [fst day]. apply map_id. }
  split; [exact Hdays|].
  split; [rewrite Hdays; apply active_dates_sorted|].
  split; [intros d; rewrite Hdays; apply active_dates_in|].
  split.
  { subst out. unfold calculate_engagement_score, daily_metrics. cbv zeta.
    rewrite !map_map. cbn [fst day_message_count].
    apply groups_cover.
    - apply sorted_nodup, active_dates_sorted.
    - intros r d Hr Hd. apply active_dates_in. exists r. split; assumption. }
  split.
  { intros m s Hin. destruct (engagement_line df m s Hin) as (d & Hd & -> & _).
    cbn [day_conversation_count day_message_count]. split.
    - apply nunique_pos. intros E. apply map_eq_nil in E.
      apply (on_day_nonempty df d Hd E).
    - etransitivity; [apply nunique_le|]. rewrite length_map. apply Nat.le_refl. }
  intros Hnone. subst out. unfold calculate_engagement_score, daily_metrics. cbv zeta.
  destruct (active_dates df) as [|d l] eqn:E; [reflexivity|].
  exfalso. assert (Hd : In d (active_dates df)) by (rewrite E; left; reflexivity).
  apply active_dates_in in Hd. destruct Hd as (r & Hr & Hd).
  rewrite (Hnone r Hr) in Hd. discriminate.
Qed.

(** *** The scores that are no number *)

Lemma mean_zero (l : list nat) :
  l <> [] -> ((mean l == 0)%Q <-> Forall (fun n => n = 0) l).
Proof.
  intros Hne.
  assert (Hn : ~ (inject_Z (Z.of_nat (length l)) == 0)%Q).
  { destruct l; [congruence|]. unfold Qeq. simpl. lia. }
  assert (Hsum : list_sum l = 0 <-> Forall (fun n => n = 0) l).
  { clear. induction l as [|x l IH].
    - split; [constructor|reflexivity].
    - change (list_sum (x :: l)) with (x + list_sum l). split.
      + intros H. constructor; [lia|]. apply IH. lia.
      + intros H. inversion H as [|? ? Hx Hl]; subst. apply IH in Hl. lia. }
  rewrite <- Hsum. unfold mean. split.
  - intros E. apply (Qmult_inj_r _ _ _ Hn) in E.
    unfold Qdiv in E.
    rewrite <- Qmult_assoc, (Qmult_comm (/ _)), Qmult_inv_r, Qmult_1_r, Qmult_0_l in E
      by exact Hn.
    unfold Qeq in E. simpl in E. lia.
  - intros ->. unfold Qdiv. apply Qmult_0_l.
Qed.

Lemma mean_nonneg (l : list nat) : (0 <= mean l)%Q.
Proof.
  unfold mean. destruct l as [|x l].
  - unfold Qle. simpl. lia.
  - apply Qle_shift_div_l; [unfold Qlt; simpl; lia|].
    rewrite Qmult_0_l. unfold Qle. simpl. lia.
Qed.

Lemma q_max_zero (l : list Q) :
  (q_max l == 0)%Q <-> Forall (fun x => (x <= 0)%Q) l.
Proof.
  unfold q_max. induction l as [|x l IH]; cbn [fold_right].
  - split; [constructor|reflexivity].
  - fold (q_max l) in *. pose proof (q_max_nonneg l) as H0.
    destruct (Qle_bool (q_max l) x) eqn:E.
    + apply Qle_bool_iff in E. split.
      * intros Hx. constructor; [rewrite Hx; apply Qle_refl|].
        apply IH. apply Qle_antisym; [|exact H0]. rewrite <- Hx. exact E.
      * intros H. inversion H as [|? ? Hx Hl]; subst.
        apply Qle_antisym; [exact Hx|]. apply Qle_trans with (q_max l); assumption.
    + assert (Hlt : (x < q_max l)%Q).
      { apply Qnot_le_lt. intros Hc. apply Qle_bool_iff in Hc. congruence. }
      split.
      * intros Hq. constructor; [|apply IH; exact Hq].
        rewrite Hq in Hlt. apply Qlt_le_weak. exact Hlt.
      * intros H. inversion H as [|? ? Hx Hl]; subst. apply IH. exact Hl.
Qed.

(** X22.  A score of [calculate_engagement_score] is no number exactly when
    no dated message of the whole frame has a word: then the largest
    average length is 0 and every line is divided by it.  Otherwise every
    line has a score. *)
Theorem engagement_score_defined (df : list row) (m : daily) (s : option Q) :
  In (m, s) (calculate_engagement_score df) ->
  (s = None <-> wordless df).
Proof.
  intros Hin. destruct (engagement_line df m s Hin) as (d & Hd & Em & Hm).
  unfold calculate_engagement_score in Hin. cbv zeta in Hin.
  apply in_map_iff in Hin. destruct Hin as (m' & E & _). injection E as -> Es.
  set (dm := daily_metrics df) in *.
  assert (Hmc : (0 < qnat (nat_max (map day_message_count dm)))%Q).
  { apply qnat_pos. apply Nat.le_trans with (day_message_count m).
    - rewrite Em. cbn [day_message_count].
      pose proof (on_day_nonempty df d Hd) as Hne.
      destruct (on_day df d); [congruence|cbn [length]; lia].
    - apply nat_max_ge. apply in_map. exact Hm. }
  assert (Hcc : (0 < qnat (nat_max (map day_conversation_count dm)))%Q).
  { apply qnat_pos. apply Nat.le_trans with (day_conversation_count m).
    - rewrite Em. cbn [day_conversation_count]. apply nunique_pos.
      intros E. apply map_eq_nil in E. apply (on_day_nonempty df d Hd E).
    - apply nat_max_ge. apply in_map. exact Hm. }
  rewrite (fdiv_some _ _ Hmc), (fdiv_some _ _ Hcc) in Es.
  assert (Hzero : (q_max (map day_avg_length dm) == 0)%Q <-> wordless df).
  { rewrite q_max_zero, Forall_forall. unfold wordless. split.
    - intros H r Hr Hdate. destruct (date r) as [d'|] eqn:Ed; [|congruence].
      assert (Hd' : In d' (active_dates df)).
      { apply active_dates_in. exists r. split; assumption. }
      assert (Hz : (mean (map word_count (on_day df d')) == 0)%Q).
      { apply Qle_antisym; [|apply mean_nonneg]. apply H.
        unfold dm, daily_metrics. rewrite map_map. cbn [day_avg_length].
        apply (in_map (fun d => mean (map word_count (on_day df d))) _ _ Hd'). }
      apply mean_zero in Hz.
      + rewrite Forall_forall in Hz. apply Hz.
        apply in_map. unfold on_day. apply filter_In. split; [exact Hr|].
        rewrite Ed. apply Z.eqb_refl.
      + intros E. apply map_eq_nil in E. apply (on_day_nonempty df d' Hd' E).
    - intros H x Hx. unfold dm, daily_metrics in Hx. rewrite map_map in Hx.
      cbn [day_avg_length] in Hx. apply in_map_iff in Hx. destruct Hx as (d' & <- & Hd').
      assert (Hz : (mean (map word_count (on_day df d')) == 0)%Q).
      { apply mean_zero.
        - intros E. apply map_eq_nil in E. apply (on_day_nonempty df d' Hd' E).
        - apply Forall_forall. intros n Hn. apply in_map_iff in Hn.
          destruct Hn as (r & <- & Hr). unfold on_day in Hr. apply filter_In in Hr.
          destruct Hr as [Hr Hdate]. apply H; [exact Hr|].
          destruct (date r); [discriminate|discriminate Hdate]. }
      rewrite Hz. apply Qle_refl. }
  rewrite <- Hzero. unfold fdiv in Es.
  destruct (Qeq_bool (q_max (map day_avg_length dm)) 0) eqn:Eq.
  - cbn [engagement] in Es. subst s. apply Qeq_bool_iff in Eq.
    split; [intros _; exact Eq|reflexivity].
  - cbn [engagement] in Es. subst s. split; [discriminate|].
    intros Hc. apply Qeq_bool_iff in Hc. congruence.
Qed.

Lemma engagement_score_defined_witness :
  In ({| day := 0; day_message_count := 2; day_avg_length := 0 # 2;
         day_conversation_count := 1 |}, None)
     (calculate_engagement_score wordless_frame)
  /\ wordless wordless_frame.
Proof.
  assert (Hin : In ({| day := 0; day_message_count := 2; day_avg_length := 0 # 2;
                       day_conversation_count := 1 |}, None)
                   (calculate_engagement_score wordless_frame)).
  { vm_compute. left. reflexivity. }
  split; [exact Hin|].
  apply (proj1 (engagement_score_defined wordless_frame _ None Hin)). reflexivity.
Defined.

End EngagementDays.
